(** * Feed assembly and social interactions of the tweet backend

    A shallow embedding of [src/routes/tweets.js], [src/routes/users.js] and
    [src/models/Tweet.js].  Route handlers are written in a small monad that
    threads the two document collections and models [return res...json(...)]
    as an early reply and a thrown exception as the [catch] block's 500. *)

From Stdlib Require Import Ascii.
From stdpp Require Import base decidable option numbers list sorting strings.

Local Open Scope string_scope.
Local Open Scope nat_scope.

(** ** Documents *)

(** ObjectIds, by their numeric value.  A stored id ([_id], the elements of
    the id arrays) and [req.user.id], which is the text [oid_hex] below of
    the viewer's [_id], are ids of this type.  The [:id] of the tweet
    routes is only ever cast to an ObjectId, so it is given as the id it
    denotes; the [:id] of the follow routes is also compared as a text and
    is given as the text it is. *)
Definition oid := nat.

(** [models/Tweet.js]: the paths of the TweetSchema, with [createdAt] of
    [timestamps: true].  An optional ObjectId path that was never assigned
    is [None].  The record leaves out [updatedAt] and the version key, which
    no route reads and every [save] rewrites: two records that are equal are
    documents that agree on the paths below. *)
Record Tweet := mkTweet {
  t_id : oid;
  t_content : string;
  t_user : oid;
  t_image : string;
  t_likes : list oid;
  t_retweets : list oid;
  t_retweetData : option oid;
  t_replyTo : option oid;
  t_pinned : bool;
  t_createdAt : nat
}.

(** Modelled from the spec: [models/User.js] is not among the sources.  The
    fields are the ones the routes read and write ([name], [username],
    [profileImage], [following], [followers], [likes], [retweets]), which
    section 3 of the specification lists as followingIds, followersIds,
    likedTweetIds and retweetedTweetIds. *)
Record User := mkUser {
  u_id : oid;
  u_name : string;
  u_username : string;
  u_profileImage : string;
  u_following : list oid;
  u_followers : list oid;
  u_likes : list oid;
  u_retweets : list oid
}.

(** The four id arrays of a user document. *)
Inductive UserPath := following | followers | likes | retweets.

(** Update operators of [User.findByIdAndUpdate]. *)
Inductive Update :=
| push (p : UserPath) (v : oid)
| pull (p : UserPath) (v : oid).

(** A write call issued to the store. *)
Inductive Write :=
| WTweetSave (id : oid)
| WUserUpdate (id : oid) (up : Update).

(** The two collections, in storage order, and the journal of the write
    calls issued so far (oldest first).  The journal is not part of the
    database; it records how many writes a handler performs. *)
Record Store := mkStore {
  users : list User;
  tweets : list Tweet;
  journal : list Write
}.

Definition set_t_likes (l : list oid) (t : Tweet) : Tweet :=
  mkTweet (t_id t) (t_content t) (t_user t) (t_image t) l (t_retweets t)
          (t_retweetData t) (t_replyTo t) (t_pinned t) (t_createdAt t).

Definition set_t_retweets (l : list oid) (t : Tweet) : Tweet :=
  mkTweet (t_id t) (t_content t) (t_user t) (t_image t) (t_likes t) l
          (t_retweetData t) (t_replyTo t) (t_pinned t) (t_createdAt t).

Definition get_path (p : UserPath) (u : User) : list oid :=
  match p with
  | following => u_following u
  | followers => u_followers u
  | likes => u_likes u
  | retweets => u_retweets u
  end.

Definition set_path (p : UserPath) (l : list oid) (u : User) : User :=
  match p with
  | following =>
      mkUser (u_id u) (u_name u) (u_username u) (u_profileImage u)
             l (u_followers u) (u_likes u) (u_retweets u)
  | followers =>
      mkUser (u_id u) (u_name u) (u_username u) (u_profileImage u)
             (u_following u) l (u_likes u) (u_retweets u)
  | likes =>
      mkUser (u_id u) (u_name u) (u_username u) (u_profileImage u)
             (u_following u) (u_followers u) l (u_retweets u)
  | retweets =>
      mkUser (u_id u) (u_name u) (u_username u) (u_profileImage u)
             (u_following u) (u_followers u) (u_likes u) l
  end.

(** ** Responses *)

(** What a populated reference to a user carries: [_id] always, the other
    paths only when the [select] string of the populate names them. *)
Record UserRef := mkUserRef {
  ref_id : oid;
  ref_name : option string;
  ref_username : option string;
  ref_profileImage : option string
}.

(** A populated [replyTo]: the parent tweet with its own [user] populated
    ([None] when that user document does not exist). *)
Record ParentRef := mkParentRef {
  parent : Tweet;
  parent_user : option UserRef
}.

(** The value of [tweet.replyTo] on a document returned by a query. *)
Inductive ReplyToField :=
| ReplyUnset                      (* path absent: undefined *)
| ReplyId (id : oid)              (* not populated: the raw ObjectId *)
| ReplyNull                       (* populated, parent not found: null *)
| ReplyDoc (p : ParentRef).       (* populated parent *)

Record TweetDoc := mkTweetDoc {
  doc : Tweet;
  doc_user : option UserRef;
  doc_replyTo : ReplyToField
}.

(** [replyToUser] of an annotated tweet: [{_id, name, username}]. *)
Record ReplyToUser := mkReplyToUser {
  r_id : oid;
  r_name : option string;
  r_username : option string
}.

(** One element of the [tweets] array of a feed response. *)
Record TweetView := mkTweetView {
  tweetObj : TweetDoc;
  isLiked : bool;
  isRetweeted : bool;
  likesCount : nat;
  retweetsCount : nat;
  commentsCount : nat;
  replyToUser : option ReplyToUser
}.

Inductive Body :=
| Message (message : string)
| Tweets (ts : list TweetView).

(** [res.status(s).json({ success, ...body })]. *)
Record Response := mkResponse {
  status : nat;
  success : bool;
  body : Body
}.

Definition fail (s : nat) (msg : string) : Response :=
  mkResponse s false (Message msg).
Definition ok (b : Body) : Response := mkResponse 200 true b.

(** ** The handler monad *)

Inductive Outcome (A : Type) :=
| Val (a : A)          (* the computation goes on with [a] *)
| Reply (r : Response) (* [return res...json(...)] *)
| Throw.               (* an exception, to be caught by the handler *)
Arguments Val {A} a.
Arguments Reply {A} r.
Arguments Throw {A}.

Definition M (A : Type) : Type := Store → Store * Outcome A.

#[global] Instance M_ret : MRet M := λ A a st, (st, Val a).
#[global] Instance M_bind : MBind M := λ A B f m st,
  match m st with
  | (st', Val a) => f a st'
  | (st', Reply r) => (st', Reply r)
  | (st', Throw) => (st', Throw)
  end.

Definition reply {A} (r : Response) : M A := λ st, (st, Reply r).
Definition throw {A} : M A := λ st, (st, Throw).
Definition get_store : M Store := λ st, (st, Val st).
Definition put_store (st : Store) : M unit := λ _, (st, Val ()).

(** [try { ... } catch (error) { res.status(500).json(...) }] *)
Definition try_catch (m : M Response) (st : Store) : Store * Response :=
  match m st with
  | (st', Val r) => (st', r)
  | (st', Reply r) => (st', r)
  | (st', Throw) => (st', fail 500 "Server error")
  end.

(** ** The document store *)

(** Conditions the routes put on an ObjectId path of a tweet:
    [{ path: id }], [{ path: { $in: ids } }] and
    [{ path: { $exists: false } }]. *)
Inductive IdCond :=
| CEq (id : oid)
| CIn (ids : list oid)
| CNotExists.

(** A filter object for the tweet collection; [None] is an absent key.
    [c_content] is the pattern of [{ $regex: pattern, $options: 'i' }] and
    [c_image] the value of [{ $ne: value }]. *)
Record Criteria := mkCriteria {
  c_id : option IdCond;
  c_user : option IdCond;
  c_content : option string;
  c_image : option string;
  c_replyTo : option IdCond
}.

Definition no_criteria : Criteria := mkCriteria None None None None None.

Definition set_c_user (v : IdCond) (c : Criteria) : Criteria :=
  mkCriteria (c_id c) (Some v) (c_content c) (c_image c) (c_replyTo c).
Definition set_c_content (v : string) (c : Criteria) : Criteria :=
  mkCriteria (c_id c) (c_user c) (Some v) (c_image c) (c_replyTo c).
Definition set_c_image (v : string) (c : Criteria) : Criteria :=
  mkCriteria (c_id c) (c_user c) (c_content c) (Some v) (c_replyTo c).
Definition set_c_replyTo (v : IdCond) (c : Criteria) : Criteria :=
  mkCriteria (c_id c) (c_user c) (c_content c) (c_image c) (Some v).

Definition holds_id (c : option IdCond) (v : option oid) : bool :=
  match c, v with
  | None, _ => true
  | Some (CEq i), Some x => bool_decide (x = i)
  | Some (CIn l), Some x => bool_decide (x ∈ l)
  | Some CNotExists, None => true
  | Some _, _ => false
  end.

(** The part of a filter that does not involve the pattern. *)
Definition holds_plain (c : Criteria) (t : Tweet) : bool :=
  holds_id (c_id c) (Some (t_id t))
  && holds_id (c_user c) (Some (t_user t))
  && match c_image c with
     | Some v => bool_decide (t_image t ≠ v)
     | None => true
     end
  && holds_id (c_replyTo c) (t_replyTo t).

(** [sort({ createdAt: -1 })]: newest first. *)
Definition newer_first (a b : Tweet) : Prop := t_createdAt b ≤ t_createdAt a.

#[global] Instance newer_first_dec a b : Decision (newer_first a b).
Proof. unfold newer_first. apply _. Defined.

#[global] Instance newer_first_total : Total newer_first.
Proof. intros a b. unfold newer_first. lia. Qed.

#[global] Instance newer_first_trans : Transitive newer_first.
Proof. intros a b c. unfold newer_first. lia. Qed.

(** [.skip(skip).limit(limit)] on a cursor.  The store rejects a negative
    skip; a limit of 0 means no limit and a negative limit is read as its
    absolute value. *)
Definition skip_limit {A} (skip limit : Z) (l : list A) : option (list A) :=
  if bool_decide (skip < 0)%Z then None
  else
    let rest := drop (Z.to_nat skip) l in
    Some (if bool_decide (limit = 0)%Z then rest
          else take (Z.abs_nat limit) rest).

Definition find_user (id : oid) (st : Store) : option User :=
  find (λ u, bool_decide (u_id u = id)) (users st).

Definition find_tweet (id : oid) (st : Store) : option Tweet :=
  find (λ t, bool_decide (t_id t = id)) (tweets st).

(** Which paths a populate selects from the referenced user. *)
Record Select := mkSelect {
  sel_name : bool; sel_username : bool; sel_profileImage : bool
}.

Definition select_user (s : Select) (u : User) : UserRef :=
  mkUserRef (u_id u)
            (if sel_name s then Some (u_name u) else None)
            (if sel_username s then Some (u_username u) else None)
            (if sel_profileImage s then Some (u_profileImage u) else None).

Definition populate_user (s : Select) (st : Store) (id : oid) : option UserRef :=
  select_user s <$> find_user id st.

(** [populate({ path: 'replyTo', populate: { path: 'user', select } })] *)
Definition populate_replyTo (s : Select) (st : Store) (t : Tweet) : ReplyToField :=
  match t_replyTo t with
  | None => ReplyUnset
  | Some pid =>
      match find_tweet pid st with
      | None => ReplyNull
      | Some p => ReplyDoc (mkParentRef p (populate_user s st (t_user p)))
      end
  end.

Definition raw_replyTo (t : Tweet) : ReplyToField :=
  match t_replyTo t with
  | None => ReplyUnset
  | Some pid => ReplyId pid
  end.

(** The elementary store calls of the routes. *)
Definition Tweet_findById (id : oid) : M (option Tweet) :=
  st ← get_store; mret (find_tweet id st).

Definition User_findById (id : oid) : M (option User) :=
  st ← get_store; mret (find_user id st).

Definition find_username (username : string) (st : Store) : option User :=
  find (λ u, bool_decide (u_username u = username)) (users st).

Definition User_findOne_username (username : string) : M (option User) :=
  st ← get_store; mret (find_username username st).

(** [tweet.save()]: the stored document with this [_id] is replaced. *)
Definition save_tweet (t : Tweet) (st : Store) : Store :=
  mkStore (users st)
    ((λ d, if bool_decide (t_id d = t_id t) then t else d) <$> tweets st)
    (journal st ++ [WTweetSave (t_id t)])%list.

Definition Tweet_save (t : Tweet) : M unit :=
  st ← get_store; put_store (save_tweet t st).

(** [$push] appends the value at the end of the array, whether or not it
    is already there; [$pull] removes every occurrence. *)

Definition apply_update (up : Update) (u : User) : User :=
  match up with
  | push p v => set_path p (get_path p u ++ [v])%list u
  | pull p v => set_path p (filter (λ x, x ≠ v) (get_path p u)) u
  end.

Definition update_user (id : oid) (up : Update) (st : Store) : Store :=
  mkStore
    ((λ u, if bool_decide (u_id u = id) then apply_update up u else u)
       <$> users st)
    (tweets st)
    (journal st ++ [WUserUpdate id up])%list.

Definition User_findByIdAndUpdate (id : oid) (up : Update) : M unit :=
  st ← get_store; put_store (update_user id up st).

Fixpoint mapM {A B} (f : A → M B) (l : list A) : M (list B) :=
  match l with
  | [] => mret []
  | x :: l' => y ← f x; ys ← mapM f l'; mret (y :: ys)
  end.

(** Query-string parameters of [GET /api/tweets].  [None] is an absent
    parameter.  [page] and [limit] stand for the numbers their strings
    denote; [replyToId] for the id it denotes (an empty one is [None]). *)
Record Query := mkQuery {
  q_username : option string;
  q_query : option string;
  q_type : option string;
  q_replyToId : option oid;
  q_page : option Z;
  q_limit : option Z
}.

(** JavaScript truthiness of an optional string: [undefined] and the empty
    string are falsy. *)
Definition truthy (o : option string) : bool :=
  match o with
  | Some s => bool_decide (s ≠ "")
  | None => false
  end.

Definition select_author : Select := mkSelect true true true.   (* 'name username profileImage' *)
Definition select_username : Select := mkSelect false true false. (* 'username' *)

Section Feed.

(** The store's [$regex] operator with [$options: 'i']: a pattern is
    either rejected or compiled to a test on strings.  The engine is the
    store's, not the repository's. *)
Variable regex_i : string → option (string → bool).

(** A filter as a predicate on tweets; [None] when its pattern is
    rejected. *)
Definition compile (c : Criteria) : option (Tweet → bool) :=
  match c_content c with
  | None => Some (holds_plain c)
  | Some pat =>
      m ← regex_i pat;
      Some (λ t, m (t_content t) && holds_plain c t)
  end.

(** [Tweet.find(c).populate('user', ...)[.populate(replyTo ...)]
      .sort({ createdAt: -1 }).skip(skip).limit(limit)];
    [pop_reply] tells whether [replyTo] is populated. *)
Definition Tweet_find (c : Criteria) (pop_reply : bool) (skip limit : Z)
  : M (list TweetDoc) :=
  st ← get_store;
  match compile c with
  | None => throw
  | Some p =>
      match skip_limit skip limit
              (merge_sort newer_first (filter (λ t, p t) (tweets st))) with
      | None => throw
      | Some page =>
          mret ((λ t, mkTweetDoc t
                   (populate_user select_author st (t_user t))
                   (if pop_reply
                    then populate_replyTo select_username st t
                    else raw_replyTo t)) <$> page)
      end
  end.

Definition Tweet_countDocuments (c : Criteria) : M nat :=
  st ← get_store;
  match compile c with
  | None => throw
  | Some p => mret (length (filter (λ t, p t) (tweets st)))
  end.

(** [addUserInteractionInfo]: the body of the mapped callback, then the
    [Promise.all] over the page.  Reading [tweet.replyTo.user._id] throws
    a TypeError when [tweet.replyTo.user] is null or undefined. *)
Definition addUserInteractionInfo1 (user : User) (tweet : TweetDoc)
  : M TweetView :=
  let isLiked := bool_decide (u_id user ∈ t_likes (doc tweet)) in
  let isRetweeted := bool_decide (u_id user ∈ t_retweets (doc tweet)) in
  commentsCount ← Tweet_countDocuments
    (set_c_replyTo (CEq (t_id (doc tweet))) no_criteria);
  replyToUser ←
    match doc_replyTo tweet with
    | ReplyUnset | ReplyNull => mret None
    | ReplyId _ => throw
    | ReplyDoc p =>
        match parent_user p with
        | None => throw
        | Some u =>
            mret (Some (mkReplyToUser (ref_id u) (ref_name u) (ref_username u)))
        end
    end;
  mret (mkTweetView tweet isLiked isRetweeted
          (length (t_likes (doc tweet))) (length (t_retweets (doc tweet)))
          commentsCount replyToUser).

Definition addUserInteractionInfo (tweets : list TweetDoc) (user : User)
  : M (list TweetView) :=
  mapM (addUserInteractionInfo1 user) tweets.

Definition type_is (q : Query) (s : string) : bool :=
  bool_decide (q_type q = Some s).

(** [GET /api/tweets], the body of the [try] block. *)
Definition get_tweets_body (viewer : User) (q : Query) : M Response :=
  let page := default 1%Z (q_page q) in
  let limit := default 10%Z (q_limit q) in
  let skip := ((page - 1) * limit)%Z in
  let matchCriteria := no_criteria in
  (* Filter by username *)
  matchCriteria ←
    (if truthy (q_username q) then
       user ← User_findOne_username (default "" (q_username q));
       match user with
       | None => reply (fail 404 "User not found")
       | Some user => mret (set_c_user (CEq (u_id user)) matchCriteria)
       end
     else mret matchCriteria);
  (* Filter by search query *)
  let matchCriteria :=
    if truthy (q_query q)
    then set_c_content (default "" (q_query q)) matchCriteria
    else matchCriteria in
  (* Filter by tweet type *)
  matchCriteria ←
    (if truthy (q_type q) then
       if type_is q "replies" then mret matchCriteria
       else if type_is q "media" then mret (set_c_image "" matchCriteria)
       else if type_is q "likes" then
         if truthy (q_username q) then
           user ← User_findOne_username (default "" (q_username q));
           match user with
           | None => reply (fail 404 "User not found")
           | Some user =>
               likedTweets ← Tweet_find
                 (mkCriteria (Some (CIn (u_likes user))) None None None None)
                 true skip limit;
               tweetsWithUserInfo ← addUserInteractionInfo likedTweets viewer;
               reply (ok (Tweets tweetsWithUserInfo))
           end
         else mret matchCriteria
       else mret matchCriteria
     else mret matchCriteria);
  (* Filter by replies to a specific tweet *)
  let matchCriteria :=
    match q_replyToId q with
    | Some replyToId => set_c_replyTo (CEq replyToId) matchCriteria
    | None =>
        if negb (truthy (q_type q)) || type_is q "tweets"
        then set_c_replyTo CNotExists matchCriteria
        else matchCriteria
    end in
  tweets ←
    (if negb (truthy (q_username q)) && negb (truthy (q_query q))
        && negb (bool_decide (is_Some (q_replyToId q)))
        && (negb (truthy (q_type q)) || type_is q "tweets")
     then
       (* home timeline; the push lands on the request's own copy of the
          viewer, which is not saved *)
       let followingIds := (u_following viewer ++ [u_id viewer])%list in
       Tweet_find
         (mkCriteria None (Some (CIn followingIds)) None None (Some CNotExists))
         false skip limit
     else Tweet_find matchCriteria true skip limit);
  tweetsWithUserInfo ← addUserInteractionInfo tweets viewer;
  mret (ok (Tweets tweetsWithUserInfo)).

Definition get_tweets (viewer : User) (q : Query) : Store → Store * Response :=
  try_catch (get_tweets_body viewer q).

(** The common shape of the three places where the route queries the
    collection, annotates the page and replies. *)
Definition respond_with (viewer : User) (c : Criteria) (pop_reply : bool)
  (page limit : Z) : Store → Store * Response :=
  try_catch (
    tweets ← Tweet_find c pop_reply ((page - 1) * limit)%Z limit;
    tweetsWithUserInfo ← addUserInteractionInfo tweets viewer;
    mret (ok (Tweets tweetsWithUserInfo))).

End Feed.

(** The three filters of the route, as functions of the request. *)
Definition is_home (q : Query) : bool :=
  negb (truthy (q_username q)) && negb (truthy (q_query q))
  && negb (bool_decide (is_Some (q_replyToId q)))
  && (negb (truthy (q_type q)) || type_is q "tweets").

Definition home_criteria (viewer : User) : Criteria :=
  mkCriteria None (Some (CIn (u_following viewer ++ [u_id viewer])%list))
             None None (Some CNotExists).

Definition likes_criteria (user : User) : Criteria :=
  mkCriteria (Some (CIn (u_likes user))) None None None None.

(** [matchCriteria] as it stands when the last query of the route runs;
    [author] is the id the username resolved to. *)
Definition match_criteria (q : Query) (author : option oid) : Criteria :=
  let c :=
    match author with
    | Some a => set_c_user (CEq a) no_criteria
    | None => no_criteria
    end in
  let c :=
    if truthy (q_query q) then set_c_content (default "" (q_query q)) c else c in
  let c := if type_is q "media" then set_c_image "" c else c in
  match q_replyToId q with
  | Some replyToId => set_c_replyTo (CEq replyToId) c
  | None =>
      if negb (truthy (q_type q)) || type_is q "tweets"
      then set_c_replyTo CNotExists c
      else c
  end.

(** Whether annotation can read [replyToUser] off a returned document. *)
Definition reply_ready (d : TweetDoc) : Prop :=
  match doc_replyTo d with
  | ReplyUnset | ReplyNull => True
  | ReplyId _ => False
  | ReplyDoc p => is_Some (parent_user p)
  end.

(** ** Social actions on tweets ([routes/tweets.js]) *)

(** [POST /api/tweets/:id/like] *)
Definition like_body (viewer : User) (id : oid) : M Response :=
  tweet ← Tweet_findById id;
  match tweet with
  | None => reply (fail 404 "Tweet not found")
  | Some tweet =>
      (* Check if tweet has already been liked *)
      if bool_decide (u_id viewer ∈ t_likes tweet)
      then reply (fail 400 "Tweet already liked")
      else
        (* tweet.likes.unshift(req.user.id) *)
        let tweet := set_t_likes (u_id viewer :: t_likes tweet) tweet in
        Tweet_save tweet;;
        User_findByIdAndUpdate (u_id viewer) (push likes (t_id tweet));;
        mret (ok (Message "Tweet liked"))
  end.

Definition like (viewer : User) (id : oid) : Store → Store * Response :=
  try_catch (like_body viewer id).

(** [POST /api/tweets/:id/unlike] *)
Definition unlike_body (viewer : User) (id : oid) : M Response :=
  tweet ← Tweet_findById id;
  match tweet with
  | None => reply (fail 404 "Tweet not found")
  | Some tweet =>
      (* Check if tweet has not been liked *)
      if negb (bool_decide (u_id viewer ∈ t_likes tweet))
      then reply (fail 400 "Tweet has not been liked")
      else
        let tweet :=
          set_t_likes (filter (λ like, like ≠ u_id viewer) (t_likes tweet)) tweet in
        Tweet_save tweet;;
        User_findByIdAndUpdate (u_id viewer) (pull likes (t_id tweet));;
        mret (ok (Message "Tweet unliked"))
  end.

Definition unlike (viewer : User) (id : oid) : Store → Store * Response :=
  try_catch (unlike_body viewer id).

(** [POST /api/tweets/:id/retweet] *)
Definition retweet_body (viewer : User) (id : oid) : M Response :=
  tweet ← Tweet_findById id;
  match tweet with
  | None => reply (fail 404 "Tweet not found")
  | Some tweet =>
      if bool_decide (u_id viewer ∈ t_retweets tweet)
      then reply (fail 400 "Tweet already retweeted")
      else
        let tweet := set_t_retweets (u_id viewer :: t_retweets tweet) tweet in
        Tweet_save tweet;;
        User_findByIdAndUpdate (u_id viewer) (push retweets (t_id tweet));;
        mret (ok (Message "Tweet retweeted"))
  end.

Definition retweet (viewer : User) (id : oid) : Store → Store * Response :=
  try_catch (retweet_body viewer id).

(** [POST /api/tweets/:id/unretweet] *)
Definition unretweet_body (viewer : User) (id : oid) : M Response :=
  tweet ← Tweet_findById id;
  match tweet with
  | None => reply (fail 404 "Tweet not found")
  | Some tweet =>
      if negb (bool_decide (u_id viewer ∈ t_retweets tweet))
      then reply (fail 400 "Tweet has not been retweeted")
      else
        let tweet :=
          set_t_retweets
            (filter (λ retweet, retweet ≠ u_id viewer) (t_retweets tweet)) tweet in
        Tweet_save tweet;;
        User_findByIdAndUpdate (u_id viewer) (pull retweets (t_id tweet));;
        mret (ok (Message "Tweet unretweeted"))
  end.

Definition unretweet (viewer : User) (id : oid) : Store → Store * Response :=
  try_catch (unretweet_body viewer id).

(** ** Ids as request texts

    [req.params.id] is a piece of the URL.  An ObjectId prints, through
    [toString] and the [id] getter of a document, as 24 hexadecimal digits
    in lower case: [oid_hex].  ObjectIds are the numbers below 16^24; a
    larger number gets more digits, and no request text denotes it. *)
Definition hex_digit (d : nat) : ascii :=
  ascii_of_nat (if d <? 10 then 48 + d else 87 + d).

(** The digits of [n], most significant first, none for 0; [fuel] bounds
    the number of digits. *)
Fixpoint hex_digits (fuel n : nat) : list ascii :=
  match fuel with
  | 0 => []
  | S fuel' =>
      if n =? 0 then []
      else (hex_digits fuel' (n / 16) ++ [hex_digit (n mod 16)])%list
  end.

Definition oid_hex (id : oid) : string :=
  let ds := hex_digits id id in
  String.string_of_list_ascii
    (replicate (24 - length ds) "0"%char ++ ds)%list.

(** The cast of a text to an ObjectId that [findById], [findByIdAndUpdate]
    and the operands of [$push] and [$pull] go through: 24 hexadecimal
    digits, in either case, denote the id with these digits, and the cast
    of a text that is no ObjectId throws.  The cast is the library's; the
    twelve-character texts that some of its versions also take for the
    twelve bytes of an id are left out. *)
Definition hex_value (c : ascii) : option nat :=
  let n := nat_of_ascii c in
  if (48 <=? n) && (n <=? 57) then Some (n - 48)
  else if (97 <=? n) && (n <=? 102) then Some (n - 87)
  else if (65 <=? n) && (n <=? 70) then Some (n - 55)
  else None.

Fixpoint parse_hex (acc : nat) (l : list ascii) : option nat :=
  match l with
  | [] => Some acc
  | c :: l' =>
      match hex_value c with
      | Some v => parse_hex (16 * acc + v) l'
      | None => None
      end
  end.

Definition cast_oid (s : string) : option oid :=
  let l := String.list_ascii_of_string s in
  if bool_decide (length l = 24) then parse_hex 0 l else None.

Definition cast_param (param : string) : M oid :=
  match cast_oid param with
  | Some id => mret id
  | None => throw
  end.

(** ** The follow graph ([routes/users.js]) *)

(** [POST /api/users/:id/follow].  [param] is [req.params.id].  The self
    test compares it with [req.user.id] as strings ([===]); [includes] on
    the viewer's [following] compares it with the text of each stored id;
    the store calls cast it. *)
Definition follow_body (viewer : User) (param : string) : M Response :=
  if bool_decide (param = oid_hex (u_id viewer))
  then reply (fail 400 "You cannot follow yourself")
  else
    id ← cast_param param;
    userToFollow ← User_findById id;
    match userToFollow with
    | None => reply (fail 404 "User not found")
    | Some _ =>
        (* Check if already following *)
        if bool_decide (param ∈ oid_hex <$> u_following viewer)
        then reply (fail 400 "You are already following this user")
        else
          (* Add to following *)
          User_findByIdAndUpdate (u_id viewer) (push following id);;
          (* Add to followers *)
          User_findByIdAndUpdate id (push followers (u_id viewer));;
          mret (ok (Message "User followed successfully"))
    end.

Definition follow (viewer : User) (param : string) : Store → Store * Response :=
  try_catch (follow_body viewer param).

(** [POST /api/users/:id/unfollow] *)
Definition unfollow_body (viewer : User) (param : string) : M Response :=
  if bool_decide (param = oid_hex (u_id viewer))
  then reply (fail 400 "You cannot unfollow yourself")
  else
    id ← cast_param param;
    userToUnfollow ← User_findById id;
    match userToUnfollow with
    | None => reply (fail 404 "User not found")
    | Some _ =>
        (* Check if following *)
        if negb (bool_decide (param ∈ oid_hex <$> u_following viewer))
        then reply (fail 400 "You are not following this user")
        else
          (* Remove from following *)
          User_findByIdAndUpdate (u_id viewer) (pull following id);;
          (* Remove from followers *)
          User_findByIdAndUpdate id (pull followers (u_id viewer));;
          mret (ok (Message "User unfollowed successfully"))
    end.

Definition unfollow (viewer : User) (param : string) : Store → Store * Response :=
  try_catch (unfollow_body viewer param).

(** ** A reference engine for the pattern operator

    The engine behind [$regex] belongs to the store.  [PcreLite] implements
    its behaviour on the fragment of patterns made of literal characters,
    the wildcard [.] and backslash-escaped punctuation, matched
    case-insensitively anywhere in the subject (the pattern is not
    anchored).  Patterns outside the fragment are not compiled. *)
Module PcreLite.

Inductive atom :=
| Lit (c : ascii)
| AnyChar.

Definition chars (s : string) : list ascii := String.list_ascii_of_string s.

(** Characters with a special meaning in a pattern. *)
Definition meta (c : ascii) : bool :=
  bool_decide (c ∈ chars "\^$.|?*+()[]{}").

Definition lower (c : ascii) : ascii :=
  let n := nat_of_ascii c in
  if (65 <=? n) && (n <=? 90) then ascii_of_nat (n + 32) else c.

Definition newline : ascii := ascii_of_nat 10.

Fixpoint parse (p : list ascii) : option (list atom) :=
  match p with
  | [] => Some []
  | c :: p' =>
      if bool_decide (c = "."%char) then (AnyChar ::.) <$> parse p'
      else if bool_decide (c = "\"%char) then
        match p' with
        | e :: p'' => if meta e then (Lit e ::.) <$> parse p'' else None
        | [] => None
        end
      else if meta c then None
      else (Lit c ::.) <$> parse p'
  end.

(** [.] matches any character but a line feed. *)
Definition atom_match (a : atom) (x : ascii) : bool :=
  match a with
  | Lit c => bool_decide (lower c = lower x)
  | AnyChar => negb (bool_decide (x = newline))
  end.

Fixpoint match_here (p : list atom) (s : list ascii) : bool :=
  match p, s with
  | [], _ => true
  | a :: p', x :: s' => atom_match a x && match_here p' s'
  | _ :: _, [] => false
  end.

Fixpoint search (p : list atom) (s : list ascii) : bool :=
  match_here p s
  || match s with
     | [] => false
     | _ :: s' => search p s'
     end.

Definition regex_i (pat : string) : option (string → bool) :=
  atoms ← parse (chars pat);
  Some (λ s, search atoms (chars s)).

End PcreLite.

(** ** Vocabulary of the specification *)

(** "The content contains the query as a case-insensitive substring". *)
Definition contains_ci (query content : string) : Prop :=
  ∃ pre post : list ascii,
    PcreLite.lower <$> PcreLite.chars content
    = (pre ++ (PcreLite.lower <$> PcreLite.chars query) ++ post)%list.

(** A query without characters that are special in a pattern. *)
Definition plain_query (query : string) : Prop :=
  Forall (λ c, PcreLite.meta c = false) (PcreLite.chars query).

(** Every tweet was posted by a stored user (tweets are created with
    [user: req.user.id] and no route deletes a user). *)
Definition authors_exist (st : Store) : Prop :=
  Forall (λ t, is_Some (find_user (t_user t) st)) (tweets st).

(** The tweets of a feed response, in order. *)
Definition view_docs (r : Response) : option (list Tweet) :=
  match body r with
  | Tweets ts => Some ((λ v, doc (tweetObj v)) <$> ts)
  | Message _ => None
  end.

(** The slice that [page] and [limit] select. *)
Definition page_of {A} (page limit : Z) (l : list A) : list A :=
  take (Z.to_nat limit) (drop (Z.to_nat ((page - 1) * limit)) l).

(** "Newest-like-first": the like route appends the id of each newly
    liked tweet at the end of the user's [likes], so the most recent like
    is the last element. *)
Definition newest_like_first (u : User) : list oid := reverse (u_likes u).

(** The home timeline's scope: posted by the viewer or by somebody the
    viewer follows, and not a reply. *)
Definition in_home (viewer : User) (t : Tweet) : Prop :=
  (t_user t = u_id viewer ∨ t_user t ∈ u_following viewer)
  ∧ t_replyTo t = None.

#[global] Instance in_home_dec viewer t : Decision (in_home viewer t).
Proof. unfold in_home. apply _. Defined.


(** Section 7 of the specification maps a violated idempotency guard
    (Conflict) to a 400 reply. *)
Definition Conflict (r : Response) : Prop :=
  status r = 400 ∧ success r = false.

(** ** Concrete stores *)

Definition user0 (id : oid) (name username : string) : User :=
  mkUser id name username "" [] [] [] [].

Definition tweet0 (id author : oid) (content : string) (created : nat) : Tweet :=
  mkTweet id content author "" [] [] None None false created.

Definition reply0 (id author : oid) (content : string) (created : nat)
  (parent_id : oid) : Tweet :=
  mkTweet id content author "" [] [] None (Some parent_id) false created.

Definition no_query : Query := mkQuery None None None None None None.

(** Section 8: V follows A and B; A posts T1 at time 1, B replies with T2
    at time 2 to a tweet X of a stranger, A posts T3 at time 3. *)
Module HomeScenario.
Definition V : User := mkUser 1 "Vi" "v" "" [2; 3] [] [] [].
Definition A : User := mkUser 2 "Al" "a" "" [] [1] [] [].
Definition B : User := mkUser 3 "Bo" "b" "" [] [1] [] [].
Definition C : User := user0 4 "Cy" "c".
Definition X : Tweet := tweet0 10 4 "x" 0.
Definition T1 : Tweet := tweet0 11 2 "one" 1.
Definition T2 : Tweet := reply0 12 3 "two" 2 10.
Definition T3 : Tweet := tweet0 13 2 "three" 3.
Definition store : Store := mkStore [V; A; B; C] [X; T1; T2; T3] [].
End HomeScenario.

(** Section 8: 25 tweets of one author, posted at times 0 to 24. *)
Module PageScenario.
Definition author : User := user0 2 "Al" "a".
Definition viewer : User := user0 1 "Vi" "v".
Definition post (i : nat) : Tweet := tweet0 (100 + i) 2 "post" i.
Definition store : Store := mkStore [viewer; author] (post <$> seq 0 25) [].
Definition request (page limit : Z) : Query :=
  mkQuery (Some "a") None None None (Some page) (Some limit).
End PageScenario.

(** A user who likes T2, then T3, then T1; the tweets were posted in the
    order T1, T2, T3. *)
Module LikesScenario.
Definition U : User := user0 1 "Us" "u".
Definition W : User := user0 2 "Wr" "w".
Definition T1 : Tweet := tweet0 1 2 "one" 1.
Definition T2 : Tweet := tweet0 2 2 "two" 2.
Definition T3 : Tweet := tweet0 3 2 "three" 3.
Definition store0 : Store := mkStore [U; W] [T1; T2; T3] [].
Definition store : Store :=
  (like U 1 (like U 3 (like U 2 store0).1).1).1.
Definition request : Query :=
  mkQuery (Some "u") None (Some "likes") None None None.
End LikesScenario.

(** A tweet whose content matches the pattern [a.c] without containing
    the three characters [a.c]. *)
Module SearchScenario.
Definition viewer : User := user0 1 "Vi" "v".
Definition T : Tweet := tweet0 1 1 "abc" 1.
Definition store : Store := mkStore [viewer] [T] [].
Definition request : Query :=
  mkQuery None (Some "a.c") None None None None.
End SearchScenario.

(** A reply whose parent is stored while the parent's author is not. *)
Module OrphanScenario.
Definition viewer : User := user0 1 "Vi" "v".
Definition P : Tweet := tweet0 10 99 "parent" 1.
Definition R : Tweet := reply0 11 1 "reply" 2 10.
Definition store : Store := mkStore [viewer] [P; R] [].
Definition request : Query :=
  mkQuery None None None (Some 10) None None.
(** The same collection once the parent's author is stored. *)
Definition author : User := user0 99 "Pa" "p".
Definition store_with_author : Store := mkStore [viewer; author] [P; R] [].
End OrphanScenario.

(** Mirrored lists that already disagree: the user's [likes] holds the
    tweet while the tweet's [likes] does not hold the user, and the target's
    [followers] holds the viewer while the viewer's [following] does not
    hold the target. *)
Module MirrorScenario.
Definition U : User := mkUser 1 "Us" "u" "" [] [] [5] [].
Definition W : User := mkUser 2 "Wr" "w" "" [] [1] [] [].
Definition T : Tweet := tweet0 5 2 "five" 1.
Definition store : Store := mkStore [U; W] [T] [].
End MirrorScenario.

(** A viewer who follows nobody; A posts a picture, then a text; B
    replies to the picture with another picture. *)
Module MediaScenario.
Definition V : User := user0 1 "Vi" "v".
Definition A : User := user0 2 "Al" "a".
Definition B : User := user0 3 "Bo" "b".
Definition P1 : Tweet := mkTweet 20 "look" 2 "a.png" [] [] None None false 1.
Definition P2 : Tweet := tweet0 21 2 "words" 2.
Definition P3 : Tweet := mkTweet 22 "and this" 3 "b.png" [] [] None (Some 20) false 3.
Definition store : Store := mkStore [V; A; B] [P1; P2; P3] [].
Definition request : Query := mkQuery None None (Some "media") None None None.
End MediaScenario.

(** User 10, whose id prints with a letter, and the same text with that
    letter in upper case; in [store2] user 11 follows user 10, in [store3]
    nobody follows anybody. *)
Module SpellingScenario.
Definition U : User := user0 10 "Us" "u".
Definition store : Store := mkStore [U] [] [].
Definition upper : string := "00000000000000000000000A".
Definition W : User := mkUser 11 "Wr" "w" "" [10] [] [] [].
Definition U2 : User := mkUser 10 "Us" "u" "" [] [11] [] [].
Definition store2 : Store := mkStore [U2; W] [] [].
End SpellingScenario.

(** ** The other routes of [routes/tweets.js] *)

(** A handler whose success reply carries a value of type [A] ([inr]); an
    early [return res.status(s).json(...)] and the [catch] block give
    [inl]. *)
Definition try_catch_with {A} (m : M A) (st : Store) : Store * (Response + A) :=
  match m st with
  | (st', Val a) => (st', inr a)
  | (st', Reply r) => (st', inl r)
  | (st', Throw) => (st', inl (fail 500 "Server error"))
  end.

(** [tweet.deleteOne()]: the document with this [_id] leaves the
    collection.  The journal lists save and update calls; a removal shows
    in the collection itself. *)
Definition remove_tweet (id : oid) (st : Store) : Store :=
  mkStore (users st) (filter (λ t, t_id t ≠ id) (tweets st)) (journal st).

Definition Tweet_deleteOne (t : Tweet) : M unit :=
  st ← get_store; put_store (remove_tweet (t_id t) st).

(** [DELETE /api/tweets/:id] *)
Definition delete_tweet_body (viewer : User) (id : oid) : M Response :=
  tweet ← Tweet_findById id;
  match tweet with
  | None => reply (fail 404 "Tweet not found")
  | Some tweet =>
      (* Check if tweet belongs to user *)
      if bool_decide (t_user tweet ≠ u_id viewer)
      then reply (fail 401 "User not authorized")
      else
        Tweet_deleteOne tweet;;
        mret (ok (Message "Tweet removed"))
  end.

Definition delete_tweet (viewer : User) (id : oid) : Store → Store * Response :=
  try_catch (delete_tweet_body viewer id).

(** The request of [POST /api/tweets]: the three fields of its body and,
    because [check('content', ...)] looks the field up in the body, the
    cookies, the headers, the route parameters and the query string alike,
    the values that a field named [content] has outside the body. *)
Record NewTweet := mkNewTweet {
  n_content : option string;
  n_image : option string;
  n_replyToId : option oid;
  n_content_elsewhere : list string
}.

(** Success replies of [POST /api/tweets]: the 400 reply with the validator's
    errors and the 201 reply with the populated tweet. *)
Inductive CreateReply :=
| ValidationErrors (errors : list string)
| Created (tweet : TweetDoc).

(** [.not().isEmpty().isLength({ max: 280 })] on one value: it is not
    empty and has at most 280 characters.  A string is a sequence of
    one-unit characters with codes below 256. *)
Definition valid_content (s : string) : bool :=
  negb (bool_decide (s = "")) && bool_decide (String.length s ≤ 280).

(** The values that the chain checks: every value the field has in some
    location, the body's first; when it has none anywhere, the absent
    field, which reads as the empty string. *)
Definition content_instances (b : NewTweet) : list string :=
  let found := (option_list (n_content b) ++ n_content_elsewhere b)%list in
  if bool_decide (found = []) then [""] else found.

(** [validationResult(req).array()], by message: one error for each value
    that fails. *)
Definition content_errors (b : NewTweet) : list string :=
  (λ _, "Content is required")
    <$> filter (λ s, valid_content s = false) (content_instances b).

(** The schema's [trim: true], which is [String.prototype.trim]: white
    space and line terminators are removed at both ends when the content
    is set.  Among the characters with codes below 256 these are tab, line
    feed, vertical tab, form feed, carriage return, space and the no-break
    space; the others that [trim] removes have codes from 5760 on. *)
Definition is_space (c : ascii) : bool :=
  bool_decide (nat_of_ascii c ∈ [9; 10; 11; 12; 13; 32; 160]).

Fixpoint skip_spaces (l : list ascii) : list ascii :=
  match l with
  | [] => []
  | c :: l' => if is_space c then skip_spaces l' else l
  end.

Definition trim (s : string) : string :=
  String.string_of_list_ascii
    (reverse (skip_spaces (reverse (skip_spaces (String.list_ascii_of_string s))))).

Definition set_t_replyTo (r : oid) (t : Tweet) : Tweet :=
  mkTweet (t_id t) (t_content t) (t_user t) (t_image t) (t_likes t)
          (t_retweets t) (t_retweetData t) (Some r) (t_pinned t) (t_createdAt t).

Definition insert_tweet (t : Tweet) (st : Store) : Store :=
  mkStore (users st) (tweets st ++ [t])%list
          (journal st ++ [WTweetSave (t_id t)])%list.

(** [newTweet.save()] of a new document.  The schema validators run first:
    [required] rejects an empty content, [maxlength] one of more than 280
    characters; then the collection rejects an [_id] it already holds.
    Each rejection is thrown. *)
Definition Tweet_save_new (t : Tweet) : M unit :=
  st ← get_store;
  if bool_decide (t_content t = "") then throw
  else if negb (bool_decide (String.length (t_content t) ≤ 280)) then throw
  else if bool_decide (is_Some (find_tweet (t_id t) st)) then throw
  else put_store (insert_tweet t st).

(** [POST /api/tweets].  [new_id] is the ObjectId the new document gets
    and [now] the time of the save ([timestamps: true]).  The handler reads
    [content] from the body alone, whatever the validator looked at. *)
Definition create_tweet_body (viewer : User) (b : NewTweet) (new_id : oid)
  (now : nat) : M CreateReply :=
  (* Check for validation errors *)
  let errors := content_errors b in
  if negb (bool_decide (errors = []))
  then mret (ValidationErrors errors)
  else
    (* Create new tweet *)
    let newTweet :=
      mkTweet new_id (trim (default "" (n_content b))) (u_id viewer)
              (if truthy (n_image b) then default "" (n_image b) else "")
              [] [] None None false now in
    (* If it's a reply, add replyTo field *)
    newTweet ←
      match n_replyToId b with
      | Some replyToId =>
          originalTweet ← Tweet_findById replyToId;
          match originalTweet with
          | None => reply (fail 404 "Tweet to reply to not found")
          | Some _ => mret (set_t_replyTo replyToId newTweet)
          end
      | None => mret newTweet
      end;
    Tweet_save_new newTweet;;
    (* Populate user info *)
    st ← get_store;
    mret (Created (mkTweetDoc newTweet
                     (populate_user select_author st (t_user newTweet))
                     (populate_replyTo select_username st newTweet))).

Definition create_tweet (viewer : User) (b : NewTweet) (new_id : oid) (now : nat)
  : Store → Store * (Response + CreateReply) :=
  try_catch_with (create_tweet_body viewer b new_id now).

(** The status of a reply of [POST /api/tweets]. *)
Definition create_status (r : Response + CreateReply) : nat :=
  match r with
  | inl r => status r
  | inr (ValidationErrors _) => 400
  | inr (Created _) => 201
  end.

Section TweetById.

Variable regex_i : string → option (string → bool).

(** [GET /api/tweets/:id]; the parent's author is populated with
    ['name username profileImage']. *)
Definition get_tweet_body (viewer : User) (id : oid) : M TweetView :=
  st ← get_store;
  match find_tweet id st with
  | None => reply (fail 404 "Tweet not found")
  | Some t =>
      let tweet :=
        mkTweetDoc t (populate_user select_author st (t_user t))
                   (populate_replyTo select_author st t) in
      (* Get reply/retweet/like counts *)
      commentsCount ← Tweet_countDocuments regex_i
        (set_c_replyTo (CEq (t_id t)) no_criteria);
      let likesCount := length (t_likes t) in
      let retweetsCount := length (t_retweets t) in
      (* Check if user has liked or retweeted *)
      let isLiked := bool_decide (u_id viewer ∈ t_likes t) in
      let isRetweeted := bool_decide (u_id viewer ∈ t_retweets t) in
      (* If it's a reply, add replyToUser info *)
      replyToUser ←
        match doc_replyTo tweet with
        | ReplyUnset | ReplyNull => mret None
        | ReplyId _ => throw
        | ReplyDoc p =>
            match parent_user p with
            | None => throw
            | Some u =>
                mret (Some (mkReplyToUser (ref_id u) (ref_name u) (ref_username u)))
            end
        end;
      mret (mkTweetView tweet isLiked isRetweeted likesCount retweetsCount
              commentsCount replyToUser)
  end.

Definition get_tweet (viewer : User) (id : oid)
  : Store → Store * (Response + TweetView) :=
  try_catch_with (get_tweet_body viewer id).

End TweetById.

(** ** The other routes of [routes/users.js] *)

(** The [user] of the reply of [GET /api/users/profile/:username]: the
    stored document with the three counts and [isFollowing]. *)
Record ProfileView := mkProfileView {
  pv_user : User;
  pv_tweetsCount : nat;
  pv_followingCount : nat;
  pv_followersCount : nat;
  pv_isFollowing : bool
}.

(** [GET /api/users/profile/:username] *)
Definition get_profile_body (viewer : User) (username : string) : M ProfileView :=
  user ← User_findOne_username username;
  match user with
  | None => reply (fail 404 "User not found")
  | Some user =>
      (* Count tweets, following, followers:
         countDocuments({ user: user._id, retweetData: { $exists: false } }) *)
      st ← get_store;
      let tweetsCount :=
        length (filter (λ t, t_user t = u_id user ∧ t_retweetData t = None)
                       (tweets st)) in
      let followingCount := length (u_following user) in
      let followersCount := length (u_followers user) in
      (* Check if current user is following this user *)
      let isFollowing := bool_decide (u_id user ∈ u_following viewer) in
      mret (mkProfileView user tweetsCount followingCount followersCount
              isFollowing)
  end.

Definition get_profile (viewer : User) (username : string)
  : Store → Store * (Response + ProfileView) :=
  try_catch_with (get_profile_body viewer username).

(** An element of the [users] array of a listing: the selected paths
    ([_id name username profileImage]; the model has no [bio]) and
    [isFollowing]. *)
Record Listed := mkListed {
  l_user : UserRef;
  l_isFollowing : bool
}.

(** [GET /api/users/suggestions]:
    [User.find({ _id: { $ne: me, $nin: following } }).select(...).limit(5)],
    every entry with [isFollowing: false]. *)
Definition get_suggestions_body (viewer : User) : M (list Listed) :=
  st ← get_store;
  let users :=
    take 5 (filter (λ u, u_id u ≠ u_id viewer ∧ u_id u ∉ u_following viewer)
                   (users st)) in
  mret ((λ user, mkListed (select_user select_author user) false) <$> users).

Definition get_suggestions (viewer : User)
  : Store → Store * (Response + list Listed) :=
  try_catch_with (get_suggestions_body viewer).

(** Query-string parameters of [GET /api/users]; [page], [limit] and
    [userId] as in [Query]. *)
Record UsersQuery := mkUsersQuery {
  uq_query : option string;
  uq_type : option string;
  uq_userId : option oid;
  uq_page : option Z;
  uq_limit : option Z
}.

Section UsersList.

Variable regex_i : string → option (string → bool).

(** [populate({ path, select, options: { skip, limit } })] on a list of
    user ids: the user documents the populated path then holds, or nothing
    when the store rejects the query.  This is the library's doing, not the
    repository's. *)
Variable populate_path : list oid → Z → Z → Store → option (list User).

(** [User.findById(userId).populate(...)] followed by the 404 test and
    the reading of the populated path. *)
Definition populated_path (path : User → list oid) (userId : oid)
  (skip limit : Z) : M (list User) :=
  st ← get_store;
  match find_user userId st with
  | None => reply (fail 404 "User not found")
  | Some user =>
      match populate_path (path user) skip limit st with
      | None => throw
      | Some l => mret l
      end
  end.

(** [User.find(filter).select(...).skip(skip).limit(limit)], in storage
    order. *)
Definition User_find (filter_by : User → bool) (skip limit : Z) : M (list User) :=
  st ← get_store;
  match skip_limit skip limit (filter (λ u, filter_by u) (users st)) with
  | None => throw
  | Some page => mret page
  end.

(** [GET /api/users] *)
Definition get_users_body (viewer : User) (q : UsersQuery) : M (list Listed) :=
  let page := default 1%Z (uq_page q) in
  let limit := default 10%Z (uq_limit q) in
  let skip := ((page - 1) * limit)%Z in
  users ←
    (if bool_decide (uq_type q = Some "followers")
        && bool_decide (is_Some (uq_userId q))
     then (* Get user's followers *)
       populated_path u_followers (default 0 (uq_userId q)) skip limit
     else if bool_decide (uq_type q = Some "following")
             && bool_decide (is_Some (uq_userId q))
     then (* Get who user is following *)
       populated_path u_following (default 0 (uq_userId q)) skip limit
     else if truthy (uq_query q) then
       (* Search users by name or username *)
       match regex_i (default "" (uq_query q)) with
       | None => throw
       | Some m =>
           User_find (λ u, (m (u_name u) || m (u_username u))
                           && bool_decide (u_id u ≠ u_id viewer)) skip limit
       end
     else
       (* Get all users (except current user) *)
       User_find (λ u, bool_decide (u_id u ≠ u_id viewer)) skip limit);
  (* Add isFollowing property to each user *)
  mret ((λ user, mkListed (select_user select_author user)
                   (bool_decide (u_id user ∈ u_following viewer))) <$> users).

Definition get_users (viewer : User) (q : UsersQuery)
  : Store → Store * (Response + list Listed) :=
  try_catch_with (get_users_body viewer q).

End UsersList.

(** Whether [GET /api/users] lists the followers or followed users of
    [userId]. *)
Definition lists_graph (q : UsersQuery) : bool :=
  (bool_decide (uq_type q = Some "followers")
   || bool_decide (uq_type q = Some "following"))
  && bool_decide (is_Some (uq_userId q)).

(** ** Invariants of the data model *)

(** A tweet-side list and the user-side list that mirrors it agree: a
    stored user is in the list of a stored tweet exactly when the tweet is
    in the user's list. *)
Definition mirrored (side : Tweet → list oid) (p : UserPath) (st : Store) : Prop :=
  ∀ uid tid u t,
    find_user uid st = Some u → find_tweet tid st = Some t →
    (uid ∈ side t ↔ tid ∈ get_path p u).

(** [b] is in [a]'s [following] exactly when [a] is in [b]'s
    [followers]. *)
Definition follows_mirrored (st : Store) : Prop :=
  ∀ a b ua ub,
    find_user a st = Some ua → find_user b st = Some ub →
    (b ∈ u_following ua ↔ a ∈ u_followers ub).

(** Nobody follows oneself. *)
Definition no_self_follow (st : Store) : Prop :=
  ∀ a ua, find_user a st = Some ua →
    (a ∉ u_following ua) ∧ (a ∉ u_followers ua).

(** No id is listed twice. *)
Definition lists_nodup (side : Tweet → list oid) (p : UserPath) (st : Store) : Prop :=
  (∀ tid t, find_tweet tid st = Some t → NoDup (side t))
  ∧ (∀ uid u, find_user uid st = Some u → NoDup (get_path p u)).

(** The content of every stored tweet has 1 to 280 characters. *)
Definition contents_ok (st : Store) : Prop :=
  Forall (λ t, 1 ≤ String.length (t_content t) ≤ 280) (tweets st).

(** The number of stored replies to a tweet. *)
Definition replies_to (id : oid) (st : Store) : nat :=
  length (filter (λ t, t_replyTo t = Some id) (tweets st)).

(** * Properties *)

(** ** Running handlers and reading the store back *)

Ltac run :=
  unfold Tweet_findById, User_findById, User_findOne_username, Tweet_save,
    User_findByIdAndUpdate in *;
  unfold try_catch, mbind, M_bind, mret, M_ret, reply, throw,
    get_store, put_store in *;
  cbn beta iota zeta in *.

Lemma find_fmap_keyed {A} (key : A → oid) (f : A → A) (id : oid) (l : list A) :
  (∀ x, key (f x) = key x) →
  find (λ x, bool_decide (key x = id)) (f <$> l)
  = f <$> find (λ x, bool_decide (key x = id)) l.
Proof.
  intros Hkey. induction l as [|x l IH]; [done|].
  cbn [fmap list_fmap find]. rewrite Hkey.
  case_bool_decide; [done|]. apply IH.
Qed.

Lemma u_id_apply_update up u : u_id (apply_update up u) = u_id u.
Proof. by destruct up as [[] ?|[] ?]. Qed.

Lemma get_path_apply_push p v u :
  get_path p (apply_update (push p v) u) = (get_path p u ++ [v])%list.
Proof. by destruct p. Qed.

Lemma get_path_apply_pull p v u :
  get_path p (apply_update (pull p v) u) = filter (λ x, x ≠ v) (get_path p u).
Proof. by destruct p. Qed.

Lemma find_tweet_id id st t : find_tweet id st = Some t → t_id t = id.
Proof.
  unfold find_tweet. intros H. apply find_some in H as [_ H].
  by apply bool_decide_eq_true in H.
Qed.

Lemma find_user_id id st u : find_user id st = Some u → u_id u = id.
Proof.
  unfold find_user. intros H. apply find_some in H as [_ H].
  by apply bool_decide_eq_true in H.
Qed.

(** Reading a user after [findByIdAndUpdate]. *)
Lemma find_user_update_user id up id' st :
  find_user id' (update_user id up st)
  = (λ u, if bool_decide (id' = id) then apply_update up u else u)
      <$> find_user id' st.
Proof.
  unfold find_user, update_user. cbn [users].
  rewrite (find_fmap_keyed u_id).
  - destruct (find _ (users st)) as [u|] eqn:Hu; [|done]. cbn.
    apply find_some in Hu as [_ Hu]. apply bool_decide_eq_true in Hu.
    by rewrite Hu.
  - intros u. case_bool_decide; [apply u_id_apply_update|done].
Qed.

(** Reading a tweet after [save]. *)
Lemma find_tweet_save_tweet t id st :
  find_tweet id (save_tweet t st)
  = (λ d, if bool_decide (id = t_id t) then t else d) <$> find_tweet id st.
Proof.
  unfold find_tweet, save_tweet. cbn [tweets].
  rewrite (find_fmap_keyed t_id).
  - destruct (find _ (tweets st)) as [d|] eqn:Hd; [|done]. cbn.
    apply find_some in Hd as [_ Hd]. apply bool_decide_eq_true in Hd.
    by rewrite Hd.
  - intros d. by case_bool_decide.
Qed.

Lemma find_tweet_update_user id up id' st :
  find_tweet id' (update_user id up st) = find_tweet id' st.
Proof. done. Qed.

Lemma find_user_save_tweet t id st :
  find_user id (save_tweet t st) = find_user id st.
Proof. done. Qed.

Lemma filter_ne_fresh (x : oid) (l : list oid) :
  x ∉ l → filter (λ y, y ≠ x) l = l.
Proof.
  induction l as [|y l IH]; [done|]. intros H.
  apply not_elem_of_cons in H as [Hxy Hl].
  rewrite filter_cons_True by done. by rewrite IH.
Qed.

(** ** Request texts and the ids they denote *)

Lemma hex_value_digit d : d < 16 → hex_value (hex_digit d) = Some d.
Proof.
  intros Hd. do 16 (destruct d as [|d]; [reflexivity|]). lia.
Qed.


Lemma parse_hex_app acc l1 l2 :
  parse_hex acc (l1 ++ l2)
  = match parse_hex acc l1 with
    | Some a => parse_hex a l2
    | None => None
    end.
Proof.
  revert acc. induction l1 as [|c l1 IH]; intros acc; [done|].
  cbn [app parse_hex]. destruct (hex_value c); [apply IH|done].
Qed.

Lemma parse_hex_zeros k : parse_hex 0 (replicate k "0"%char) = Some 0.
Proof. induction k as [|k IH]; [done|]. exact IH. Qed.

Lemma parse_hex_digits fuel n : n ≤ fuel → parse_hex 0 (hex_digits fuel n) = Some n.
Proof.
  revert n. induction fuel as [|fuel IH]; intros n Hn.
  - by replace n with 0 by lia.
  - cbn [hex_digits]. destruct (Nat.eqb_spec n 0) as [->|Hpos]; [done|].
    pose proof (Nat.div_mod_eq n 16) as Hdm.
    pose proof (Nat.mod_upper_bound n 16) as Hmod.
    rewrite parse_hex_app, IH by lia. cbn [parse_hex].
    rewrite hex_value_digit by lia. f_equal. lia.
Qed.

(** The text of an id reads back as that id. *)
Lemma parse_oid_hex n :
  parse_hex 0 (String.list_ascii_of_string (oid_hex n)) = Some n.
Proof.
  unfold oid_hex. rewrite String.list_ascii_of_string_of_list_ascii.
  by rewrite parse_hex_app, parse_hex_zeros, parse_hex_digits.
Qed.



(** A text that denotes [id] is a spelling of the text of [id]: it is that
    text or differs from it. *)
Lemma cast_oid_hex_inv s n m : cast_oid s = Some n → s = oid_hex m → m = n.
Proof.
  unfold cast_oid. intros H ->. case_bool_decide; [|done].
  rewrite parse_oid_hex in H. by injection H.
Qed.


Lemma oid_hex_inj n m : oid_hex n = oid_hex m → n = m.
Proof.
  intros H. pose proof (parse_oid_hex n) as Hn. rewrite H, parse_oid_hex in Hn.
  by injection Hn.
Qed.

Lemma elem_of_oid_hex id (l : list oid) : oid_hex id ∈ oid_hex <$> l ↔ id ∈ l.
Proof.
  rewrite list_elem_of_fmap. split.
  - intros (m & Hm & Hin). by rewrite (oid_hex_inj _ _ Hm).
  - intros Hin. by exists id.
Qed.

Lemma cast_oid_elem_of s n (l : list oid) :
  cast_oid s = Some n → s ∈ oid_hex <$> l → n ∈ l.
Proof.
  intros Hs (m & Hm & Hin)%list_elem_of_fmap.
  by rewrite <- (cast_oid_hex_inv _ _ _ Hs Hm).
Qed.

Lemma cast_oid_ne s n m : cast_oid s = Some n → n ≠ m → s ≠ oid_hex m.
Proof. intros Hs Hne Heq. by rewrite (cast_oid_hex_inv _ _ _ Hs Heq) in Hne. Qed.

(** What the four tweet actions and the two graph actions do once their
    guards are passed. *)
Lemma like_fresh st viewer id t :
  find_tweet id st = Some t → u_id viewer ∉ t_likes t →
  like viewer id st
  = (update_user (u_id viewer) (push likes id)
       (save_tweet (set_t_likes (u_id viewer :: t_likes t) t) st),
     ok (Message "Tweet liked")).
Proof.
  intros Ht Hfresh. pose proof (find_tweet_id _ _ _ Ht) as Hid.
  unfold like, like_body. run. rewrite Ht.
  rewrite bool_decide_eq_false_2 by done. cbn. by rewrite Hid.
Qed.

Lemma unlike_liked st viewer id t :
  find_tweet id st = Some t → u_id viewer ∈ t_likes t →
  unlike viewer id st
  = (update_user (u_id viewer) (pull likes id)
       (save_tweet
          (set_t_likes (filter (λ like, like ≠ u_id viewer) (t_likes t)) t) st),
     ok (Message "Tweet unliked")).
Proof.
  intros Ht Hin. pose proof (find_tweet_id _ _ _ Ht) as Hid.
  unfold unlike, unlike_body. run. rewrite Ht.
  rewrite bool_decide_eq_true_2 by done. cbn. by rewrite Hid.
Qed.

Lemma follow_fresh st viewer param id v :
  cast_oid param = Some id → param ≠ oid_hex (u_id viewer) →
  find_user id st = Some v → param ∉ oid_hex <$> u_following viewer →
  follow viewer param st
  = (update_user id (push followers (u_id viewer))
       (update_user (u_id viewer) (push following id) st),
     ok (Message "User followed successfully")).
Proof.
  intros Hid Hne Hv Hfresh. unfold follow, follow_body, cast_param.
  rewrite bool_decide_eq_false_2, Hid by done. run. rewrite Hv.
  by rewrite bool_decide_eq_false_2 by done.
Qed.

(** ** Likes and retweets *)

(** C3: on an existing tweet, like is refused as a Conflict exactly when the
    viewer's id is already in the tweet's [likes], unlike exactly when it is
    not; the same holds for retweet and unretweet on [retweets].  A refused
    request leaves the store as it was, and issues no write. *)
Theorem conflict_guards (st : Store) (viewer : User) (id : oid) (t : Tweet) :
  find_tweet id st = Some t →
  (Conflict (like viewer id st).2 ↔ u_id viewer ∈ t_likes t)
  ∧ (Conflict (unlike viewer id st).2 ↔ u_id viewer ∉ t_likes t)
  ∧ (Conflict (retweet viewer id st).2 ↔ u_id viewer ∈ t_retweets t)
  ∧ (Conflict (unretweet viewer id st).2 ↔ u_id viewer ∉ t_retweets t)
  ∧ (Conflict (like viewer id st).2 →
       like viewer id st = (st, fail 400 "Tweet already liked"))
  ∧ (Conflict (unlike viewer id st).2 →
       unlike viewer id st = (st, fail 400 "Tweet has not been liked"))
  ∧ (Conflict (retweet viewer id st).2 →
       retweet viewer id st = (st, fail 400 "Tweet already retweeted"))
  ∧ (Conflict (unretweet viewer id st).2 →
       unretweet viewer id st = (st, fail 400 "Tweet has not been retweeted")).
Proof.
  intros Ht.
  unfold Conflict, like, unlike, retweet, unretweet,
    like_body, unlike_body, retweet_body, unretweet_body.
  run. rewrite Ht.
  repeat split; repeat case_bool_decide; simpl; try done;
    try (intros [? ?]; done); try (intros ?; done).
Qed.

Lemma conflict_guards_witness :
  Conflict (like LikesScenario.U 2 LikesScenario.store).2
  ↔ u_id LikesScenario.U ∈ t_likes (set_t_likes [1] LikesScenario.T2).
Proof.
  apply (conflict_guards LikesScenario.store LikesScenario.U 2
           (set_t_likes [1] LikesScenario.T2)).
  vm_compute. reflexivity.
Defined.

(** C4: when the viewer is not yet among the likers of a stored tweet, like
    followed by unlike both succeed and the stored tweet, hence its
    [likes], is again what it was before the like. *)
Theorem like_unlike_roundtrip (st : Store) (viewer : User) (id : oid) (t : Tweet) :
  find_tweet id st = Some t →
  u_id viewer ∉ t_likes t →
  status (like viewer id st).2 = 200
  ∧ status (unlike viewer id (like viewer id st).1).2 = 200
  ∧ ∃ t', find_tweet id (unlike viewer id (like viewer id st).1).1 = Some t'
          ∧ t_likes t' = t_likes t.
Proof.
  intros Ht Hfresh. pose proof (find_tweet_id _ _ _ Ht) as Hid.
  rewrite (like_fresh _ _ _ _ Ht Hfresh). cbn [fst snd].
  set (t1 := set_t_likes (u_id viewer :: t_likes t) t).
  assert (find_tweet id (update_user (u_id viewer) (push likes id)
                           (save_tweet t1 st)) = Some t1) as Ht1.
  { rewrite find_tweet_update_user, find_tweet_save_tweet, Ht. cbn.
    by rewrite Hid, bool_decide_eq_true_2. }
  rewrite (unlike_liked _ _ _ _ Ht1) by apply list_elem_of_here.
  cbn [fst snd]. repeat split.
  eexists. split.
  - rewrite find_tweet_update_user, find_tweet_save_tweet, Ht1. cbn.
    rewrite Hid, bool_decide_eq_true_2 by done. reflexivity.
  - cbn. case_decide; [done|]. by apply filter_ne_fresh.
Qed.

Lemma like_unlike_roundtrip_witness :
  ∃ t', find_tweet 1
          (unlike LikesScenario.U 1
             (like LikesScenario.U 1 LikesScenario.store0).1).1 = Some t'
        ∧ t_likes t' = t_likes LikesScenario.T1.
Proof.
  apply (like_unlike_roundtrip LikesScenario.store0 LikesScenario.U 1
           LikesScenario.T1).
  - vm_compute. reflexivity.
  - vm_compute. apply not_elem_of_nil.
Defined.

(** ** Follow and unfollow *)

Lemma follow_status_200 st viewer param :
  status (follow viewer param st).2 = 200 →
  ∃ id, cast_oid param = Some id ∧ param ≠ oid_hex (u_id viewer)
        ∧ is_Some (find_user id st)
        ∧ param ∉ oid_hex <$> u_following viewer.
Proof.
  unfold follow, follow_body, cast_param.
  case_bool_decide as Hself; run; [done|].
  destruct (cast_oid param) as [id|]; [|done]. run.
  destruct (find_user id st) as [v|] eqn:Hv; [|done].
  case_bool_decide as Hin; [done|]. intros _. exists id.
  rewrite Hv. split; [done|]. split; [done|]. split; [by eexists|done].
Qed.

(** C5: a successful follow issues exactly two writes, one update of the
    viewer and one of the target; afterwards the target's id is in the
    viewer's [following] and the viewer's id is in the target's
    [followers].  The viewer is a stored user, and the request names the
    target by a text, in any spelling, that denotes the target's id. *)
Theorem follow_mirrors (st : Store) (viewer : User) (param : string) (id : oid) :
  cast_oid param = Some id →
  is_Some (find_user (u_id viewer) st) →
  status (follow viewer param st).2 = 200 →
  journal (follow viewer param st).1
  = (journal st ++ [WUserUpdate (u_id viewer) (push following id);
                    WUserUpdate id (push followers (u_id viewer))])%list
  ∧ (∃ u', find_user (u_id viewer) (follow viewer param st).1 = Some u'
           ∧ id ∈ u_following u')
  ∧ (∃ v', find_user id (follow viewer param st).1 = Some v'
           ∧ u_id viewer ∈ u_followers v').
Proof.
  intros Hid [u Hu] Hok.
  apply follow_status_200 in Hok as (id' & Hid' & Hne & [v Hv] & Hfresh).
  assert (id' = id) as -> by congruence.
  rewrite (follow_fresh _ _ _ _ _ Hid Hne Hv Hfresh). cbn [fst snd].
  split; [|split].
  - cbn. by rewrite <- app_assoc.
  - rewrite !find_user_update_user, Hu. cbn.
    rewrite (bool_decide_eq_true_2 (u_id viewer = u_id viewer)) by done.
    eexists. split; [done|].
    case_bool_decide; cbn; apply elem_of_app; right; apply list_elem_of_here.
  - rewrite !find_user_update_user, Hv. cbn.
    rewrite (bool_decide_eq_true_2 (id = id)) by done.
    eexists. split; [done|].
    case_bool_decide; cbn; apply elem_of_app; right; apply list_elem_of_here.
Qed.

Lemma follow_mirrors_witness :
  ∃ v', find_user 4
          (follow HomeScenario.V "000000000000000000000004" HomeScenario.store).1
        = Some v'
        ∧ u_id HomeScenario.V ∈ u_followers v'.
Proof.
  apply (follow_mirrors HomeScenario.store HomeScenario.V
           "000000000000000000000004" 4).
  - vm_compute. reflexivity.
  - vm_compute. eexists. reflexivity.
  - vm_compute. reflexivity.
Defined.

(** In the spelling that [req.user.id] has, the viewer's own id is refused
    by the first statement of both handlers, in every store. *)
Lemma self_test_own_text st viewer :
  follow viewer (oid_hex (u_id viewer)) st
  = (st, fail 400 "You cannot follow yourself")
  ∧ unfollow viewer (oid_hex (u_id viewer)) st
    = (st, fail 400 "You cannot unfollow yourself").
Proof.
  unfold follow, unfollow, follow_body, unfollow_body.
  rewrite !bool_decide_eq_true_2 by done. by run.
Qed.

(** C6 does not hold of the code.  The self test compares the text of the
    URL with [req.user.id] as strings, so it catches the viewer's own id in
    the one spelling that [req.user.id] has, and in that spelling both
    requests are refused in every store.  User 10 prints with the last
    digit [a]; the text with the digit [A] denotes the same id and is not
    that string.  A follow with it passes the self test and the
    already-following test, is answered 200 and leaves user 10 in its own
    [following] and [followers]; an unfollow with it passes the self test
    too and is refused by the later following test instead.  Afterwards no
    unfollow removes the self-follow: the one spelling is stopped by the
    self test, the other by the following test. *)
Theorem self_follow_by_spelling :
  let u := SpellingScenario.U in
  let st := SpellingScenario.store in
  let st1 := (follow u SpellingScenario.upper st).1 in
  oid_hex (u_id u) = "00000000000000000000000a"
  ∧ SpellingScenario.upper = "00000000000000000000000A"
  ∧ cast_oid SpellingScenario.upper = Some (u_id u)
  ∧ (follow u SpellingScenario.upper st).2 = ok (Message "User followed successfully")
  ∧ find_user 10 st1 = Some (mkUser 10 "Us" "u" "" [10] [10] [] [])
  ∧ unfollow u SpellingScenario.upper st
    = (st, fail 400 "You are not following this user")
  ∧ (∀ u1, find_user 10 st1 = Some u1 →
       unfollow u1 SpellingScenario.upper st1
       = (st1, fail 400 "You are not following this user")
       ∧ unfollow u1 (oid_hex 10) st1
         = (st1, fail 400 "You cannot unfollow yourself"))
  ∧ (∀ st viewer,
       follow viewer (oid_hex (u_id viewer)) st
       = (st, fail 400 "You cannot follow yourself")
       ∧ unfollow viewer (oid_hex (u_id viewer)) st
         = (st, fail 400 "You cannot unfollow yourself")).
Proof.
  cbv zeta. do 6 (split; [vm_compute; reflexivity|]). split.
  - intros u1 Hu1. vm_compute in Hu1. injection Hu1 as <-.
    split; vm_compute; reflexivity.
  - intros st viewer. apply self_test_own_text.
Qed.

(** ** One-sided guards *)

(** C10: the reply of like is determined by the tweet collection and the
    viewer's id alone, and a like that passes the guard appends the tweet's
    id to the stored viewer's [likes] even when it is already there; the
    reply of follow to a request text is determined by the viewer's id and
    own [following] and the existence of the target, and a follow that
    passes the guard appends the viewer's id to the target's [followers]
    even when it is already there. *)
Theorem guards_one_sided :
  (∀ st st' viewer viewer' id,
     tweets st = tweets st' → u_id viewer = u_id viewer' →
     (like viewer id st).2 = (like viewer' id st').2)
  ∧ (∀ st viewer id t u,
       find_tweet id st = Some t → u_id viewer ∉ t_likes t →
       find_user (u_id viewer) st = Some u →
       status (like viewer id st).2 = 200
       ∧ ∃ u', find_user (u_id viewer) (like viewer id st).1 = Some u'
               ∧ u_likes u' = (u_likes u ++ [id])%list
               ∧ (id ∈ u_likes u → ¬ NoDup (u_likes u')))
  ∧ (∀ st st' viewer viewer' param,
       u_id viewer = u_id viewer' → u_following viewer = u_following viewer' →
       (∀ id, cast_oid param = Some id →
          (is_Some (find_user id st) ↔ is_Some (find_user id st'))) →
       (follow viewer param st).2 = (follow viewer' param st').2)
  ∧ (∀ st viewer param id v,
       cast_oid param = Some id →
       id ≠ u_id viewer → find_user id st = Some v → id ∉ u_following viewer →
       status (follow viewer param st).2 = 200
       ∧ ∃ v', find_user id (follow viewer param st).1 = Some v'
               ∧ u_followers v' = (u_followers v ++ [u_id viewer])%list
               ∧ (u_id viewer ∈ u_followers v → ¬ NoDup (u_followers v'))).
Proof.
  split; [|split; [|split]].
  - intros st st' viewer viewer' id Hts Hid.
    unfold like, like_body, find_tweet. run. unfold find_tweet.
    rewrite Hts, Hid.
    destruct (find _ (tweets st')) as [t|]; [|done].
    by case_bool_decide.
  - intros st viewer id t u Ht Hfresh Hu.
    rewrite (like_fresh _ _ _ _ Ht Hfresh). cbn [fst snd]. split; [done|].
    rewrite find_user_update_user, find_user_save_tweet, Hu. cbn.
    rewrite (bool_decide_eq_true_2 (u_id viewer = u_id viewer)) by done.
    eexists. split; [done|]. split; [done|].
    cbn. intros Hin Hnd. apply NoDup_app in Hnd as (_ & Hdis & _).
    apply (Hdis id Hin), list_elem_of_here.
  - intros st st' viewer viewer' param Hid Hfol Hex.
    unfold follow, follow_body, cast_param. rewrite Hid, Hfol.
    case_bool_decide; run; [done|].
    destruct (cast_oid param) as [id|]; [|done]. run.
    specialize (Hex id eq_refl).
    destruct (find_user id st) as [v|] eqn:Hv,
             (find_user id st') as [v'|] eqn:Hv'.
    + by case_bool_decide.
    + destruct Hex as [Hex _]. by destruct Hex.
    + destruct Hex as [_ Hex]. by destruct Hex.
    + done.
  - intros st viewer param id v Hid Hne Hv Hfresh.
    rewrite (follow_fresh _ _ _ _ _ Hid (cast_oid_ne _ _ _ Hid Hne) Hv)
      by (intros Hin; by apply Hfresh, (cast_oid_elem_of param)).
    cbn [fst snd]. split; [done|].
    rewrite !find_user_update_user, Hv. cbn.
    rewrite (bool_decide_eq_true_2 (id = id)) by done.
    rewrite (bool_decide_eq_false_2 (id = u_id viewer)) by done.
    eexists. split; [done|]. split; [done|].
    cbn. intros Hin Hnd. apply NoDup_app in Hnd as (_ & Hdis & _).
    apply (Hdis (u_id viewer) Hin), list_elem_of_here.
Qed.

(** ** The feed: which query a request runs *)

Lemma truthy_type_is q s : s ≠ "" → type_is q s = true → truthy (q_type q) = true.
Proof.
  unfold type_is. intros Hs H. apply bool_decide_eq_true in H. rewrite H.
  cbn. by apply bool_decide_eq_true_2.
Qed.

Lemma get_tweets_unfold rx viewer q st :
  get_tweets rx viewer q st
  = let page := default 1%Z (q_page q) in
    let limit := default 10%Z (q_limit q) in
    if truthy (q_username q) then
      match find_username (default "" (q_username q)) st with
      | None => (st, fail 404 "User not found")
      | Some user =>
          if type_is q "likes"
          then respond_with rx viewer (likes_criteria user) true page limit st
          else respond_with rx viewer (match_criteria q (Some (u_id user)))
                 true page limit st
      end
    else if is_home q
    then respond_with rx viewer (home_criteria viewer) false page limit st
    else respond_with rx viewer (match_criteria q None) true page limit st.
Proof.
  unfold get_tweets, get_tweets_body, respond_with, is_home, match_criteria,
    likes_criteria, home_criteria.
  cbn zeta.
  destruct (truthy (q_username q)) eqn:Hu.
  - run. destruct (find_username _ st) as [user|] eqn:Hfind; [|done].
    destruct (truthy (q_type q)) eqn:Hty.
    + destruct (type_is q "replies") eqn:H1; [|destruct (type_is q "media") eqn:H2;
        [|destruct (type_is q "likes") eqn:H3]].
      * assert (type_is q "likes" = false) as ->.
        { unfold type_is in *. apply bool_decide_eq_true in H1.
          rewrite H1. by apply bool_decide_eq_false_2. }
        assert (type_is q "media" = false) as ->.
        { unfold type_is in *. apply bool_decide_eq_true in H1.
          rewrite H1. by apply bool_decide_eq_false_2. }
        cbn. by destruct (truthy (q_query q)), (q_replyToId q), (type_is q "tweets").
      * assert (type_is q "likes" = false) as ->.
        { unfold type_is in *. apply bool_decide_eq_true in H2.
          rewrite H2. by apply bool_decide_eq_false_2. }
        cbn. by destruct (truthy (q_query q)), (q_replyToId q), (type_is q "tweets").
      * cbn. rewrite Hfind.
        by destruct (Tweet_find _ _ _ _ _ _) as [? [| |]];
          [destruct (addUserInteractionInfo _ _ _ _) as [? [| |]]| |].
      * cbn. by destruct (truthy (q_query q)), (q_replyToId q), (type_is q "tweets").
    + assert (type_is q "likes" = false) as ->.
      { destruct (type_is q "likes") eqn:H; [|done].
        apply truthy_type_is in H; [congruence|done]. }
      assert (type_is q "media" = false) as ->.
      { destruct (type_is q "media") eqn:H; [|done].
        apply truthy_type_is in H; [congruence|done]. }
      cbn. by destruct (truthy (q_query q)), (q_replyToId q), (type_is q "tweets").
  - run. cbn [negb andb].
    destruct (truthy (q_type q)) eqn:Hty.
    + destruct (type_is q "replies") eqn:H1; [|destruct (type_is q "media") eqn:H2;
        [|destruct (type_is q "likes") eqn:H3]].
      * assert (type_is q "tweets" = false) as ->.
        { unfold type_is in *. apply bool_decide_eq_true in H1.
          rewrite H1. by apply bool_decide_eq_false_2. }
        assert (type_is q "media" = false) as ->.
        { unfold type_is in *. apply bool_decide_eq_true in H1.
          rewrite H1. by apply bool_decide_eq_false_2. }
        cbn. rewrite !andb_false_r.
        by destruct (truthy (q_query q)), (q_replyToId q).
      * assert (type_is q "tweets" = false) as ->.
        { unfold type_is in *. apply bool_decide_eq_true in H2.
          rewrite H2. by apply bool_decide_eq_false_2. }
        cbn. rewrite !andb_false_r.
        by destruct (truthy (q_query q)), (q_replyToId q).
      * assert (type_is q "tweets" = false) as ->.
        { unfold type_is in *. apply bool_decide_eq_true in H3.
          rewrite H3. by apply bool_decide_eq_false_2. }
        cbn. rewrite !andb_false_r.
        by destruct (truthy (q_query q)), (q_replyToId q).
      * cbn. destruct (truthy (q_query q)), (q_replyToId q), (type_is q "tweets");
          cbn; done.
    + assert (type_is q "media" = false) as ->.
      { destruct (type_is q "media") eqn:H; [|done].
        apply truthy_type_is in H; [congruence|done]. }
      cbn. destruct (truthy (q_query q)), (q_replyToId q), (type_is q "tweets");
          cbn; done.
Qed.

(** ** The feed: querying, paging and annotating *)

Lemma skip_limit_page {A} (page limit : Z) (l : list A) :
  (0 < page)%Z → (0 < limit)%Z →
  skip_limit ((page - 1) * limit) limit l = Some (page_of page limit l).
Proof.
  intros Hp Hl. unfold skip_limit, page_of.
  rewrite bool_decide_eq_false_2 by nia.
  rewrite bool_decide_eq_false_2 by lia.
  by rewrite Zabs2Nat.abs_nat_nonneg by lia.
Qed.

Lemma page_of_subseteq {A} (page limit : Z) (l : list A) :
  page_of page limit l ⊆ l.
Proof.
  unfold page_of. etrans; [apply subseteq_take|apply subseteq_drop].
Qed.

Lemma page_of_all {A} (limit : Z) (l : list A) :
  (Z.of_nat (length l) ≤ limit)%Z → page_of 1 limit l = l.
Proof.
  intros H. unfold page_of. cbn. apply take_ge. lia.
Qed.


Lemma compile_plain rx c : c_content c = None → compile rx c = Some (holds_plain c).
Proof. unfold compile. by intros ->. Qed.

Lemma annotate1_ready rx user d st :
  reply_ready d →
  ∃ v, addUserInteractionInfo1 rx user d st = (st, Val v) ∧ tweetObj v = d.
Proof.
  intros Hd. unfold addUserInteractionInfo1, Tweet_countDocuments.
  rewrite compile_plain by done. run.
  unfold reply_ready in Hd.
  destruct (doc_replyTo d) as [|?| |p]; [by eauto|done|by eauto|].
  destruct (parent_user p); [by eauto|by destruct Hd].
Qed.

Lemma annotate_ready rx user ds st :
  Forall reply_ready ds →
  ∃ vs, addUserInteractionInfo rx ds user st = (st, Val vs)
        ∧ tweetObj <$> vs = ds.
Proof.
  unfold addUserInteractionInfo.
  induction 1 as [|d ds Hd _ (vs & IH & Hvs)]; [by exists []|].
  destruct (annotate1_ready rx user d st Hd) as (v & Hv & Hdv).
  exists (v :: vs). cbn [mapM]. run. rewrite Hv, IH. cbn.
  by rewrite Hdv, Hvs.
Qed.

Lemma populated_ready st sel t du :
  authors_exist st →
  reply_ready (mkTweetDoc t du (populate_replyTo sel st t)).
Proof.
  intros Hst. unfold reply_ready, populate_replyTo. cbn.
  destruct (t_replyTo t) as [pid|]; [|done].
  destruct (find_tweet pid st) as [p|] eqn:Hp; [|done]. cbn.
  unfold find_tweet in Hp. apply find_some in Hp as [Hp _].
  unfold authors_exist in Hst. rewrite Forall_forall in Hst.
  apply list_elem_of_In, Hst in Hp. unfold populate_user.
  by apply fmap_is_Some.
Qed.

Lemma raw_ready t du : t_replyTo t = None → reply_ready (mkTweetDoc t du (raw_replyTo t)).
Proof. intros H. unfold reply_ready, raw_replyTo. cbn. by rewrite H. Qed.

(** A rejected pattern makes the request fail with the 500 reply. *)
Lemma respond_with_rejected rx viewer c pop page limit st :
  compile rx c = None →
  respond_with rx viewer c pop page limit st = (st, fail 500 "Server error").
Proof. intros H. unfold respond_with, Tweet_find. run. by rewrite H. Qed.

(** Otherwise the reply carries the requested page of the matching tweets,
    newest first, provided every document of the page can be annotated. *)
Lemma respond_with_page rx viewer c (pop : bool) p page limit st :
  compile rx c = Some p →
  (0 < page)%Z → (0 < limit)%Z →
  (if pop then authors_exist st
   else ∀ t, t ∈ tweets st → p t = true → t_replyTo t = None) →
  ∃ vs,
    respond_with rx viewer c pop page limit st = (st, ok (Tweets vs))
    ∧ (λ v, doc (tweetObj v)) <$> vs
      = page_of page limit (merge_sort newer_first (filter (λ t, p t) (tweets st))).
Proof.
  intros Hc Hp Hl Hready. unfold respond_with, Tweet_find. run.
  rewrite Hc, skip_limit_page by done. cbn.
  set (pg := page_of page limit
               (merge_sort newer_first (filter (λ t, p t) (tweets st)))).
  set (mk := λ t : Tweet, mkTweetDoc t _ _).
  destruct (annotate_ready rx viewer (mk <$> pg) st) as (vs & Hvs & Hdocs).
  { apply Forall_fmap, Forall_forall. intros t Ht. unfold mk. cbn.
    destruct pop; [by apply populated_ready|].
    apply raw_ready. apply page_of_subseteq in Ht.
    rewrite merge_sort_Permutation in Ht.
    apply list_elem_of_filter in Ht as [Hpt Ht].
    apply Hready; [done|]. by apply Is_true_true. }
  exists vs. rewrite Hvs. split; [done|].
  change (λ v, doc (tweetObj v)) with (doc ∘ tweetObj).
  rewrite list_fmap_compose, Hdocs, <- list_fmap_compose.
  by rewrite list_fmap_id.
Qed.

(** ** The home timeline *)

Lemma holds_home viewer t :
  holds_plain (home_criteria viewer) t = true ↔ in_home viewer t.
Proof.
  unfold holds_plain, home_criteria, in_home. cbn.
  rewrite andb_true_r, andb_true_iff, bool_decide_eq_true, elem_of_app,
    list_elem_of_singleton.
  destruct (t_replyTo t); cbn; intuition (auto; congruence).
Qed.

Lemma is_home_true q :
  truthy (q_username q) = false → truthy (q_query q) = false →
  q_replyToId q = None →
  truthy (q_type q) = false ∨ q_type q = Some "tweets" →
  is_home q = true.
Proof.
  intros Hu Hq Hr Ht. unfold is_home, type_is. rewrite Hu, Hq, Hr. cbn.
  destruct Ht as [->| ->]; [done|].
  rewrite bool_decide_eq_true_2 by done. apply orb_true_r.
Qed.

(** C2: a request without username, search query and replyToId, whose type
    is absent or "tweets", is answered with the requested page of the home
    timeline: the stored tweets posted by the viewer or by a followed user
    that are not replies, ordered by createdAt, newest first.  A first page
    that is long enough carries all of them.  In the scenario of section 8
    the answer is T3 followed by T1. *)
Theorem home_timeline :
  (∀ rx st viewer q,
     truthy (q_username q) = false → truthy (q_query q) = false →
     q_replyToId q = None →
     truthy (q_type q) = false ∨ q_type q = Some "tweets" →
     (0 < default 1 (q_page q))%Z → (0 < default 10 (q_limit q))%Z →
     let scope := filter (in_home viewer) (tweets st) in
     let timeline := merge_sort newer_first scope in
     timeline ≡ₚ scope
     ∧ Sorted newer_first timeline
     ∧ ∃ r, get_tweets rx viewer q st = (st, r)
            ∧ status r = 200
            ∧ view_docs r
              = Some (page_of (default 1%Z (q_page q))
                        (default 10%Z (q_limit q)) timeline)
            ∧ ((default 1 (q_page q) = 1)%Z →
               (Z.of_nat (length scope) ≤ default 10 (q_limit q))%Z →
               view_docs r = Some timeline))
  ∧ (∀ rx,
       view_docs (get_tweets rx HomeScenario.V no_query HomeScenario.store).2
       = Some [HomeScenario.T3; HomeScenario.T1]).
Proof.
  split; [|intros rx; vm_compute; reflexivity].
  intros rx st viewer q Hu Hq Hr Ht Hp Hl scope timeline.
  split; [apply merge_sort_Permutation|].
  split; [apply Sorted_merge_sort, _|].
  rewrite get_tweets_unfold. cbn zeta. rewrite Hu, is_home_true by done.
  destruct (respond_with_page rx viewer (home_criteria viewer) false
              (holds_plain (home_criteria viewer))
              (default 1%Z (q_page q)) (default 10%Z (q_limit q)) st)
    as (vs & Hrun & Hdocs); [done..| |].
  { intros t _ Hin. by apply holds_home in Hin as [_ ?]. }
  assert (filter (λ t, holds_plain (home_criteria viewer) t) (tweets st) = scope)
    as Hscope.
  { apply list_filter_iff. intros t. rewrite Is_true_true. apply holds_home. }
  rewrite Hscope in Hdocs. fold timeline in Hdocs.
  exists (ok (Tweets vs)). unfold view_docs. cbn [body ok status].
  rewrite Hdocs. repeat split; [done|].
  intros -> Hlen. rewrite page_of_all; [done|].
  unfold timeline. by rewrite merge_sort_Permutation.
Qed.

Lemma home_timeline_witness :
  ∃ r, get_tweets PcreLite.regex_i HomeScenario.V no_query HomeScenario.store
       = (HomeScenario.store, r)
       ∧ status r = 200
       ∧ view_docs r
         = Some (page_of 1 10
                   (merge_sort newer_first
                      (filter (in_home HomeScenario.V)
                              (tweets HomeScenario.store))))
       ∧ ((1 = 1)%Z →
          (Z.of_nat (length (filter (in_home HomeScenario.V)
                                    (tweets HomeScenario.store))) ≤ 10)%Z →
          view_docs r
          = Some (merge_sort newer_first
                    (filter (in_home HomeScenario.V)
                            (tweets HomeScenario.store)))).
Proof.
  apply (proj1 home_timeline PcreLite.regex_i HomeScenario.store HomeScenario.V
           no_query).
  - reflexivity.
  - reflexivity.
  - reflexivity.
  - left. reflexivity.
  - reflexivity.
  - reflexivity.
Defined.

(** ** Tweets liked by a user *)

Lemma holds_likes user t :
  holds_plain (likes_criteria user) t = true ↔ t_id t ∈ u_likes user.
Proof.
  unfold holds_plain, likes_criteria. cbn.
  by rewrite !andb_true_r, bool_decide_eq_true.
Qed.

(** C1, as the code has it: with type "likes" and a username, an unknown
    username is answered with the 404 reply "User not found"; a known one
    with the requested page of the stored tweets whose id is in that user's
    [likes], ordered by the tweets' createdAt, newest first (not by the time
    of the like).  The search query and replyToId of the request play no
    part. *)
Theorem liked_tweets_feed rx (st : Store) (viewer : User) (q : Query) :
  q_type q = Some "likes" → truthy (q_username q) = true →
  (0 < default 1 (q_page q))%Z → (0 < default 10 (q_limit q))%Z →
  (find_username (default "" (q_username q)) st = None →
     get_tweets rx viewer q st = (st, fail 404 "User not found"))
  ∧ (∀ user, find_username (default "" (q_username q)) st = Some user →
       authors_exist st →
       let liked := filter (λ t, t_id t ∈ u_likes user) (tweets st) in
       let feed := merge_sort newer_first liked in
       feed ≡ₚ liked
       ∧ Sorted newer_first feed
       ∧ ∃ r, get_tweets rx viewer q st = (st, r)
              ∧ status r = 200
              ∧ view_docs r
                = Some (page_of (default 1%Z (q_page q))
                          (default 10%Z (q_limit q)) feed))
  ∧ (∀ query replyToId,
       get_tweets rx viewer
         (mkQuery (q_username q) query (q_type q) replyToId (q_page q) (q_limit q))
         st
       = get_tweets rx viewer q st).
Proof.
  intros Hty Hu Hp Hl.
  assert (type_is q "likes" = true) as Hlikes.
  { unfold type_is. rewrite Hty. by apply bool_decide_eq_true_2. }
  split; [|split].
  - intros Hnone. rewrite get_tweets_unfold. cbn zeta. by rewrite Hu, Hnone.
  - intros user Hfind Hst liked feed.
    split; [apply merge_sort_Permutation|].
    split; [apply Sorted_merge_sort, _|].
    rewrite get_tweets_unfold. cbn zeta. rewrite Hu, Hfind, Hlikes.
    destruct (respond_with_page rx viewer (likes_criteria user) true
                (holds_plain (likes_criteria user))
                (default 1%Z (q_page q)) (default 10%Z (q_limit q)) st)
      as (vs & Hrun & Hdocs); [done..|].
    assert (filter (λ t, holds_plain (likes_criteria user) t) (tweets st) = liked)
      as Hliked.
    { apply list_filter_iff. intros t. rewrite Is_true_true. apply holds_likes. }
    rewrite Hliked in Hdocs. fold feed in Hdocs.
    exists (ok (Tweets vs)). unfold view_docs. cbn [body ok status].
    by rewrite Hdocs.
  - intros query replyToId. rewrite !get_tweets_unfold. cbn zeta.
    unfold type_is in *. cbn [q_username q_type q_page q_limit].
    rewrite Hu. destruct (find_username _ st); [|done]. by rewrite Hlikes.
Qed.

Lemma liked_tweets_feed_witness :
  get_tweets PcreLite.regex_i LikesScenario.U
    (mkQuery (Some "u") (Some "zzz") (Some "likes") (Some 7) None None)
    LikesScenario.store
  = get_tweets PcreLite.regex_i LikesScenario.U LikesScenario.request
      LikesScenario.store.
Proof.
  apply (liked_tweets_feed PcreLite.regex_i LikesScenario.store LikesScenario.U
           LikesScenario.request);
    reflexivity.
Defined.

(** The claim C1 as written fails: the user liked T2, then T3, then T1, so
    newest-like-first is T1, T3, T2, while the feed lists T3, T2, T1 (the
    order of posting, newest first); nor is it the order of [likes]. *)
Lemma liked_feed_not_by_like_recency :
  ∃ user ts,
    find_username "u" LikesScenario.store = Some user
    ∧ view_docs (get_tweets PcreLite.regex_i LikesScenario.U
                   LikesScenario.request LikesScenario.store).2 = Some ts
    ∧ newest_like_first user = [1; 3; 2]
    ∧ t_id <$> ts = [3; 2; 1]
    ∧ t_id <$> ts ≠ newest_like_first user
    ∧ t_id <$> ts ≠ u_likes user.
Proof.
  eexists _, _. split; [vm_compute; reflexivity|].
  split; [vm_compute; reflexivity|].
  split; [reflexivity|]. split; [reflexivity|].
  split; cbn; discriminate.
Qed.

(** ** Pagination *)




(** ** Search *)

Section PcreLiteFacts.
Import PcreLite.

Lemma parse_plain (p : list ascii) :
  Forall (λ c, meta c = false) p → parse p = Some (Lit <$> p).
Proof.
  induction 1 as [|c p Hc _ IH]; [done|]. cbn [parse].
  rewrite bool_decide_eq_false_2 by (intros ->; done).
  rewrite bool_decide_eq_false_2 by (intros ->; done).
  by rewrite Hc, IH.
Qed.

Lemma match_here_lit (q s : list ascii) :
  match_here (Lit <$> q) s = true
  ↔ ∃ post, lower <$> s = ((lower <$> q) ++ post)%list.
Proof.
  revert s. induction q as [|c q IH]; intros s.
  - cbn. split; [by eauto|done].
  - destruct s as [|x s]; cbn.
    + split; [done|]. by intros [? ?].
    + rewrite andb_true_iff, bool_decide_eq_true, IH. split.
      * intros [Hcx [post Hpost]]. exists post. by rewrite Hcx, Hpost.
      * intros [post Hpost]. injection Hpost as Hx Hs. by eauto.
Qed.

Lemma search_lit (q s : list ascii) :
  search (Lit <$> q) s = true
  ↔ ∃ pre post, lower <$> s = (pre ++ (lower <$> q) ++ post)%list.
Proof.
  induction s as [|x s IH]; cbn [search].
  - rewrite orb_false_r, match_here_lit. split.
    + intros [post Hpost]. by exists [], post.
    + intros (pre & post & H). cbn in H. symmetry in H.
      apply app_eq_nil in H as [-> H]. by exists post.
  - rewrite orb_true_iff, match_here_lit, IH. split.
    + intros [[post Hpost]|(pre & post & H)].
      * by exists [], post.
      * exists (lower x :: pre), post. cbn. by rewrite H.
    + intros (pre & post & H). destruct pre as [|y pre].
      * left. by exists post.
      * right. cbn in H. injection H as _ H. by eauto.
Qed.

(** On a query without special characters the engine is the
    case-insensitive substring test. *)
Lemma regex_i_plain (query : string) :
  plain_query query →
  ∃ m, regex_i query = Some m
       ∧ ∀ content, m content = true ↔ contains_ci query content.
Proof.
  intros Hq. unfold regex_i. rewrite (parse_plain _ Hq). cbn.
  eexists. split; [done|]. intros content. apply search_lit.
Qed.

Lemma contains_ci_search (query content : string) :
  contains_ci query content
  ↔ search (Lit <$> chars query) (chars content) = true.
Proof. symmetry. apply search_lit. Qed.

End PcreLiteFacts.

Lemma c_content_match_criteria q author :
  c_content (match_criteria q author)
  = if truthy (q_query q) then Some (default "" (q_query q)) else None.
Proof.
  unfold match_criteria.
  by destruct author, (truthy (q_query q)), (type_is q "media"),
       (q_replyToId q), (negb (truthy (q_type q)) || type_is q "tweets").
Qed.

(** C7, as the code has it: outside the likes branch, a request with a
    search query hands the query to the store as a case-insensitive
    pattern.  If the store rejects the pattern the request fails with the
    500 reply; otherwise the reply carries the requested page of the tweets
    whose content the compiled pattern accepts and that pass the other
    filters of the request, newest first.  For the reference engine, a query
    without special characters is accepted and means: the content contains
    the query as a case-insensitive substring. *)
Theorem search_by_pattern :
  (∀ rx st viewer q query author,
     q_query q = Some query → query ≠ "" →
     ¬ (q_type q = Some "likes" ∧ truthy (q_username q) = true) →
     (truthy (q_username q) = false ∧ author = None)
     ∨ (truthy (q_username q) = true
        ∧ ∃ user, find_username (default "" (q_username q)) st = Some user
                  ∧ author = Some (u_id user)) →
     authors_exist st →
     (0 < default 1 (q_page q))%Z → (0 < default 10 (q_limit q))%Z →
     match rx query with
     | None => get_tweets rx viewer q st = (st, fail 500 "Server error")
     | Some m =>
         ∃ r, get_tweets rx viewer q st = (st, r)
              ∧ status r = 200
              ∧ view_docs r
                = Some (page_of (default 1%Z (q_page q)) (default 10%Z (q_limit q))
                          (merge_sort newer_first
                             (filter (λ t, m (t_content t) = true
                                           ∧ holds_plain (match_criteria q author) t
                                             = true)
                                     (tweets st))))
     end)
  ∧ (∀ query,
       plain_query query →
       ∃ m, PcreLite.regex_i query = Some m
            ∧ ∀ content, m content = true ↔ contains_ci query content).
Proof.
  split; [|apply regex_i_plain].
  intros rx st viewer q query author Hq Hne Hbranch Hauthor Hst Hp Hl.
  assert (truthy (q_query q) = true) as Htq.
  { rewrite Hq. cbn. by apply bool_decide_eq_true_2. }
  assert (get_tweets rx viewer q st
          = respond_with rx viewer (match_criteria q author) true
              (default 1%Z (q_page q)) (default 10%Z (q_limit q)) st) as ->.
  { rewrite get_tweets_unfold. cbn zeta.
    destruct Hauthor as [[Hu ->]|(Hu & user & -> & ->)]; rewrite Hu.
    - unfold is_home. by rewrite Hu, Htq.
    - unfold type_is. rewrite bool_decide_eq_false_2; [done|].
      intros Hty. by apply Hbranch. }
  assert (compile rx (match_criteria q author)
          = m ← rx query;
            Some (λ t, m (t_content t) && holds_plain (match_criteria q author) t))
    as Hc.
  { unfold compile. by rewrite c_content_match_criteria, Htq, Hq. }
  destruct (rx query) as [m|]; cbn in Hc.
  - destruct (respond_with_page rx viewer _ true _
                (default 1%Z (q_page q)) (default 10%Z (q_limit q)) st Hc)
      as (vs & Hrun & Hdocs); [done..|].
    exists (ok (Tweets vs)). unfold view_docs. cbn [body ok status].
    rewrite Hdocs. repeat split; [done|]. do 3 f_equal.
    apply list_filter_iff. intros t.
    by rewrite Is_true_true, andb_true_iff.
  - by apply respond_with_rejected.
Qed.

Lemma search_by_pattern_witness :
  match PcreLite.regex_i "a.c" with
  | None =>
      get_tweets PcreLite.regex_i SearchScenario.viewer SearchScenario.request
        SearchScenario.store
      = (SearchScenario.store, fail 500 "Server error")
  | Some m =>
      ∃ r, get_tweets PcreLite.regex_i SearchScenario.viewer
             SearchScenario.request SearchScenario.store
           = (SearchScenario.store, r)
           ∧ status r = 200
           ∧ view_docs r
             = Some (page_of 1 10
                       (merge_sort newer_first
                          (filter (λ t, m (t_content t) = true
                                        ∧ holds_plain
                                            (match_criteria SearchScenario.request None) t
                                          = true)
                                  (tweets SearchScenario.store))))
  end.
Proof.
  apply (proj1 search_by_pattern PcreLite.regex_i SearchScenario.store
           SearchScenario.viewer SearchScenario.request "a.c" None).
  - reflexivity.
  - discriminate.
  - intros [H _]. discriminate H.
  - left. split; reflexivity.
  - apply (bool_decide_unpack _). vm_compute. exact I.
  - reflexivity.
  - reflexivity.
Defined.

(** The claim C7 as written fails: the query [a.c] returns the tweet
    "abc", whose content does not contain the three characters [a.c]. *)
Lemma search_not_literal :
  view_docs (get_tweets PcreLite.regex_i SearchScenario.viewer
               SearchScenario.request SearchScenario.store).2
  = Some [SearchScenario.T]
  ∧ q_query SearchScenario.request = Some "a.c"
  ∧ ¬ contains_ci "a.c" (t_content SearchScenario.T).
Proof.
  split; [vm_compute; reflexivity|]. split; [reflexivity|].
  rewrite contains_ci_search. vm_compute. discriminate.
Qed.

Lemma guards_one_sided_witness :
  (status (like MirrorScenario.U 5 MirrorScenario.store).2 = 200
   ∧ ∃ u', find_user (u_id MirrorScenario.U)
             (like MirrorScenario.U 5 MirrorScenario.store).1 = Some u'
           ∧ u_likes u' = (u_likes MirrorScenario.U ++ [5])%list
           ∧ (5 ∈ u_likes MirrorScenario.U → ¬ NoDup (u_likes u')))
  ∧ (status (follow MirrorScenario.U "000000000000000000000002"
               MirrorScenario.store).2 = 200
     ∧ ∃ v', find_user 2 (follow MirrorScenario.U "000000000000000000000002"
                            MirrorScenario.store).1
             = Some v'
             ∧ u_followers v'
               = (u_followers MirrorScenario.W ++ [u_id MirrorScenario.U])%list
             ∧ (u_id MirrorScenario.U ∈ u_followers MirrorScenario.W →
                ¬ NoDup (u_followers v'))).
Proof.
  destruct guards_one_sided as (_ & Hlike & _ & Hfollow). split.
  - apply (Hlike MirrorScenario.store MirrorScenario.U 5 MirrorScenario.T
             MirrorScenario.U).
    + reflexivity.
    + apply not_elem_of_nil.
    + reflexivity.
  - apply (Hfollow MirrorScenario.store MirrorScenario.U
             "000000000000000000000002" 2 MirrorScenario.W).
    + vm_compute. reflexivity.
    + discriminate.
    + reflexivity.
    + apply not_elem_of_nil.
Defined.

(** ** The reply parent's author *)

(** What annotation puts in [replyToUser] when it returns. *)
Lemma annotate1_replyToUser rx user d st v :
  addUserInteractionInfo1 rx user d st = (st, Val v) →
  tweetObj v = d
  ∧ replyToUser v
    = match doc_replyTo d with
      | ReplyDoc p =>
          (λ a, mkReplyToUser (ref_id a) (ref_name a) (ref_username a))
            <$> parent_user p
      | _ => None
      end.
Proof.
  unfold addUserInteractionInfo1, Tweet_countDocuments.
  rewrite compile_plain by done. run.
  destruct (doc_replyTo d) as [|?| |p]; [|done| |].
  - intros [= <-]. done.
  - intros [= <-]. done.
  - destruct (parent_user p); [|done]. intros [= <-]. done.
Qed.

(** A populated parent without a populated author makes annotation throw. *)
Lemma annotate1_orphan rx user d st p :
  doc_replyTo d = ReplyDoc p → parent_user p = None →
  addUserInteractionInfo1 rx user d st = (st, Throw).
Proof.
  intros Hd Hp. unfold addUserInteractionInfo1, Tweet_countDocuments.
  rewrite compile_plain by done. run. by rewrite Hd, Hp.
Qed.

(** C9 does not hold of the code: R replies to the stored tweet P whose
    author is not stored.  Listing the replies to P populates R's parent
    with a null author; reading that author's [_id] throws, and the whole
    request is answered with the 500 reply instead of R with a null
    [replyToUser]. *)
Theorem reply_to_orphan_parent_fails :
  ∀ rx,
    populate_replyTo select_username OrphanScenario.store OrphanScenario.R
    = ReplyDoc (mkParentRef OrphanScenario.P None)
    ∧ get_tweets rx OrphanScenario.viewer OrphanScenario.request
        OrphanScenario.store
      = (OrphanScenario.store, fail 500 "Server error").
Proof. intros rx. split; vm_compute; reflexivity. Qed.

(** In the feed the parent's author is populated with [select: 'username']
    only, so [replyToUser] carries no name even when the author has one. *)
Lemma feed_replyToUser_without_name :
  ∀ rx,
    replyToUser
    <$> match body (get_tweets rx OrphanScenario.viewer OrphanScenario.request
                      OrphanScenario.store_with_author).2 with
        | Tweets ts => ts
        | Message _ => []
        end
    = [Some (mkReplyToUser 99 None (Some "p"))].
Proof. intros rx. vm_compute. reflexivity. Qed.

(** * Further properties of the routes *)

#[local] Set Warnings "-clear-no-such-hyp".

(** ** Guards of the six actions *)

Lemma unfollow_following st viewer param id v :
  cast_oid param = Some id → param ≠ oid_hex (u_id viewer) →
  find_user id st = Some v → param ∈ oid_hex <$> u_following viewer →
  unfollow viewer param st
  = (update_user id (pull followers (u_id viewer))
       (update_user (u_id viewer) (pull following id) st),
     ok (Message "User unfollowed successfully")).
Proof.
  intros Hid Hne Hv Hin. unfold unfollow, unfollow_body, cast_param.
  rewrite bool_decide_eq_false_2, Hid by done. run. rewrite Hv.
  by rewrite bool_decide_eq_true_2 by done.
Qed.

Lemma follow_refused st viewer param id v :
  cast_oid param = Some id → param ≠ oid_hex (u_id viewer) →
  find_user id st = Some v → param ∈ oid_hex <$> u_following viewer →
  follow viewer param st = (st, fail 400 "You are already following this user").
Proof.
  intros Hid Hne Hv Hin. unfold follow, follow_body, cast_param.
  rewrite bool_decide_eq_false_2, Hid by done. run. rewrite Hv.
  by rewrite bool_decide_eq_true_2 by done.
Qed.

Lemma unfollow_refused st viewer param id v :
  cast_oid param = Some id → param ≠ oid_hex (u_id viewer) →
  find_user id st = Some v → param ∉ oid_hex <$> u_following viewer →
  unfollow viewer param st = (st, fail 400 "You are not following this user").
Proof.
  intros Hid Hne Hv Hin. unfold unfollow, unfollow_body, cast_param.
  rewrite bool_decide_eq_false_2, Hid by done. run. rewrite Hv.
  by rewrite bool_decide_eq_false_2 by done.
Qed.

Lemma retweet_fresh st viewer id t :
  find_tweet id st = Some t → u_id viewer ∉ t_retweets t →
  retweet viewer id st
  = (update_user (u_id viewer) (push retweets id)
       (save_tweet (set_t_retweets (u_id viewer :: t_retweets t) t) st),
     ok (Message "Tweet retweeted")).
Proof.
  intros Ht Hfresh. pose proof (find_tweet_id _ _ _ Ht) as Hid.
  unfold retweet, retweet_body. run. rewrite Ht.
  rewrite bool_decide_eq_false_2 by done. cbn. by rewrite Hid.
Qed.

Lemma unretweet_retweeted st viewer id t :
  find_tweet id st = Some t → u_id viewer ∈ t_retweets t →
  unretweet viewer id st
  = (update_user (u_id viewer) (pull retweets id)
       (save_tweet
          (set_t_retweets
             (filter (λ retweet, retweet ≠ u_id viewer) (t_retweets t)) t) st),
     ok (Message "Tweet unretweeted")).
Proof.
  intros Ht Hin. pose proof (find_tweet_id _ _ _ Ht) as Hid.
  unfold unretweet, unretweet_body. run. rewrite Ht.
  rewrite bool_decide_eq_true_2 by done. cbn. by rewrite Hid.
Qed.

Lemma like_refused st viewer id t :
  find_tweet id st = Some t → u_id viewer ∈ t_likes t →
  like viewer id st = (st, fail 400 "Tweet already liked").
Proof.
  intros Ht Hin. unfold like, like_body. run. rewrite Ht.
  by rewrite bool_decide_eq_true_2 by done.
Qed.

Lemma unlike_refused st viewer id t :
  find_tweet id st = Some t → u_id viewer ∉ t_likes t →
  unlike viewer id st = (st, fail 400 "Tweet has not been liked").
Proof.
  intros Ht Hin. unfold unlike, unlike_body. run. rewrite Ht.
  by rewrite bool_decide_eq_false_2 by done.
Qed.

Lemma retweet_refused st viewer id t :
  find_tweet id st = Some t → u_id viewer ∈ t_retweets t →
  retweet viewer id st = (st, fail 400 "Tweet already retweeted").
Proof.
  intros Ht Hin. unfold retweet, retweet_body. run. rewrite Ht.
  by rewrite bool_decide_eq_true_2 by done.
Qed.

Lemma unretweet_refused st viewer id t :
  find_tweet id st = Some t → u_id viewer ∉ t_retweets t →
  unretweet viewer id st = (st, fail 400 "Tweet has not been retweeted").
Proof.
  intros Ht Hin. unfold unretweet, unretweet_body. run. rewrite Ht.
  by rewrite bool_decide_eq_false_2 by done.
Qed.

(** X1: the guards of follow and unfollow read the request text.  For a
    text that denotes a stored user and is not the viewer's own id as
    [req.user.id] spells it, follow is refused with "You are already
    following this user" exactly when the text is the lower-case text of an
    id in the viewer's [following], and unfollow with "You are not following
    this user" exactly when it is not; a refused request writes nothing.
    So for the lower-case text of the target the guards test whether the
    target is followed, while in any other spelling a follow is never
    refused as a repetition and an unfollow always is. *)
Theorem follow_conflict_guards (st : Store) (viewer : User) (param : string)
  (id : oid) (v : User) :
  cast_oid param = Some id → param ≠ oid_hex (u_id viewer) →
  find_user id st = Some v →
  (follow viewer param st = (st, fail 400 "You are already following this user")
   ↔ param ∈ oid_hex <$> u_following viewer)
  ∧ (unfollow viewer param st = (st, fail 400 "You are not following this user")
     ↔ param ∉ oid_hex <$> u_following viewer)
  ∧ (param = oid_hex id →
       (param ∈ oid_hex <$> u_following viewer ↔ id ∈ u_following viewer))
  ∧ (param ≠ oid_hex id →
       status (follow viewer param st).2 = 200
       ∧ unfollow viewer param st
         = (st, fail 400 "You are not following this user")).
Proof.
  intros Hid Hne Hv. split; [|split; [|split]].
  - destruct (decide (param ∈ oid_hex <$> u_following viewer)) as [Hin|Hout].
    + split; [done|intros _]. by apply (follow_refused _ _ _ id v).
    + rewrite (follow_fresh _ _ _ _ _ Hid Hne Hv Hout). split; [|done].
      intros [= _ ?].
  - destruct (decide (param ∈ oid_hex <$> u_following viewer)) as [Hin|Hout].
    + rewrite (unfollow_following _ _ _ _ _ Hid Hne Hv Hin). split; [|done].
      intros [= _ ?].
    + split; [done|intros _]. by apply (unfollow_refused _ _ _ id v).
  - intros ->. apply elem_of_oid_hex.
  - intros Hsp.
    assert (param ∉ oid_hex <$> u_following viewer) as Hout.
    { intros (m & Hm & _)%list_elem_of_fmap.
      by rewrite (cast_oid_hex_inv _ _ _ Hid Hm) in Hm. }
    rewrite (follow_fresh _ _ _ _ _ Hid Hne Hv Hout). split; [done|].
    by apply (unfollow_refused _ _ _ id v).
Qed.

Lemma follow_conflict_guards_witness :
  (follow HomeScenario.V "000000000000000000000002" HomeScenario.store
   = (HomeScenario.store, fail 400 "You are already following this user")
   ↔ "000000000000000000000002" ∈ oid_hex <$> u_following HomeScenario.V)
  ∧ ("000000000000000000000002" = oid_hex 2 →
       ("000000000000000000000002" ∈ oid_hex <$> u_following HomeScenario.V
        ↔ 2 ∈ u_following HomeScenario.V))
  ∧ status (follow SpellingScenario.W "00000000000000000000000A"
              SpellingScenario.store2).2 = 200
  ∧ unfollow SpellingScenario.W "00000000000000000000000A"
      SpellingScenario.store2
    = (SpellingScenario.store2, fail 400 "You are not following this user").
Proof.
  destruct (follow_conflict_guards HomeScenario.store HomeScenario.V
              "000000000000000000000002" 2 HomeScenario.A)
    as (H1 & _ & H3 & _);
    [vm_compute; reflexivity|vm_compute; discriminate|reflexivity|].
  destruct (follow_conflict_guards SpellingScenario.store2 SpellingScenario.W
              "00000000000000000000000A" 10 SpellingScenario.U2)
    as (_ & _ & _ & H4);
    [vm_compute; reflexivity|vm_compute; discriminate|reflexivity|].
  split; [exact H1|]. split; [exact H3|].
  apply H4. vm_compute. discriminate.
Defined.

(** X2: an action on a tweet id that is not stored is answered with the
    404 reply "Tweet not found", and follow or unfollow of a text that
    denotes an id that is not stored (and is not the viewer's own id as
    [req.user.id] spells it) with "User not found"; in each case the store
    is left as it was. *)
Theorem missing_target_not_found (st : Store) (viewer : User) (id : oid) :
  (find_tweet id st = None →
     like viewer id st = (st, fail 404 "Tweet not found")
     ∧ unlike viewer id st = (st, fail 404 "Tweet not found")
     ∧ retweet viewer id st = (st, fail 404 "Tweet not found")
     ∧ unretweet viewer id st = (st, fail 404 "Tweet not found")
     ∧ delete_tweet viewer id st = (st, fail 404 "Tweet not found"))
  ∧ (∀ param, cast_oid param = Some id →
       find_user id st = None → param ≠ oid_hex (u_id viewer) →
       follow viewer param st = (st, fail 404 "User not found")
       ∧ unfollow viewer param st = (st, fail 404 "User not found")).
Proof.
  split.
  - intros Hnone.
    unfold like, unlike, retweet, unretweet, delete_tweet, like_body,
      unlike_body, retweet_body, unretweet_body, delete_tweet_body.
    run. by rewrite Hnone.
  - intros param Hid Hnone Hne.
    unfold follow, unfollow, follow_body, unfollow_body, cast_param.
    rewrite !bool_decide_eq_false_2, Hid by done. run. by rewrite Hnone.
Qed.

Lemma missing_target_not_found_witness :
  follow HomeScenario.V "000000000000000000000077" HomeScenario.store
  = (HomeScenario.store, fail 404 "User not found")
  ∧ unfollow HomeScenario.V "000000000000000000000077" HomeScenario.store
    = (HomeScenario.store, fail 404 "User not found").
Proof.
  apply (proj2 (missing_target_not_found HomeScenario.store HomeScenario.V 119)
           "000000000000000000000077").
  - vm_compute. reflexivity.
  - reflexivity.
  - vm_compute. discriminate.
Defined.

(** X3: a request repeated right after it was accepted is refused: on a
    stored tweet a second like in a row gets "Tweet already liked" and a
    second unlike "Tweet has not been liked", whatever the first one did,
    and the second request leaves the store as the first one left it.  The
    same holds for retweet and unretweet. *)
Theorem repeated_action_refused (st : Store) (viewer : User) (id : oid) (t : Tweet) :
  find_tweet id st = Some t →
  like viewer id (like viewer id st).1
  = ((like viewer id st).1, fail 400 "Tweet already liked")
  ∧ unlike viewer id (unlike viewer id st).1
    = ((unlike viewer id st).1, fail 400 "Tweet has not been liked")
  ∧ retweet viewer id (retweet viewer id st).1
    = ((retweet viewer id st).1, fail 400 "Tweet already retweeted")
  ∧ unretweet viewer id (unretweet viewer id st).1
    = ((unretweet viewer id st).1, fail 400 "Tweet has not been retweeted").
Proof.
  intros Ht. pose proof (find_tweet_id _ _ _ Ht) as Hid.
  split; [|split; [|split]].
  - destruct (decide (u_id viewer ∈ t_likes t)) as [Hin|Hout].
    + rewrite (like_refused _ _ _ _ Ht Hin). by apply (like_refused _ _ _ t).
    + rewrite (like_fresh _ _ _ _ Ht Hout). cbn [fst].
      eapply like_refused.
      * rewrite find_tweet_update_user, find_tweet_save_tweet, Ht. cbn.
        by rewrite Hid, bool_decide_eq_true_2.
      * apply list_elem_of_here.
  - destruct (decide (u_id viewer ∈ t_likes t)) as [Hin|Hout].
    + rewrite (unlike_liked _ _ _ _ Ht Hin). cbn [fst].
      eapply unlike_refused.
      * rewrite find_tweet_update_user, find_tweet_save_tweet, Ht. cbn.
        by rewrite Hid, bool_decide_eq_true_2.
      * cbn. rewrite list_elem_of_filter. intros [H _]. by apply H.
    + rewrite (unlike_refused _ _ _ _ Ht Hout). by apply (unlike_refused _ _ _ t).
  - destruct (decide (u_id viewer ∈ t_retweets t)) as [Hin|Hout].
    + rewrite (retweet_refused _ _ _ _ Ht Hin). by apply (retweet_refused _ _ _ t).
    + rewrite (retweet_fresh _ _ _ _ Ht Hout). cbn [fst].
      eapply retweet_refused.
      * rewrite find_tweet_update_user, find_tweet_save_tweet, Ht. cbn.
        by rewrite Hid, bool_decide_eq_true_2.
      * apply list_elem_of_here.
  - destruct (decide (u_id viewer ∈ t_retweets t)) as [Hin|Hout].
    + rewrite (unretweet_retweeted _ _ _ _ Ht Hin). cbn [fst].
      eapply unretweet_refused.
      * rewrite find_tweet_update_user, find_tweet_save_tweet, Ht. cbn.
        by rewrite Hid, bool_decide_eq_true_2.
      * cbn. rewrite list_elem_of_filter. intros [H _]. by apply H.
    + rewrite (unretweet_refused _ _ _ _ Ht Hout).
      by apply (unretweet_refused _ _ _ t).
Qed.

Lemma repeated_action_refused_witness :
  like LikesScenario.U 1 (like LikesScenario.U 1 LikesScenario.store0).1
  = ((like LikesScenario.U 1 LikesScenario.store0).1,
     fail 400 "Tweet already liked").
Proof.
  apply (repeated_action_refused LikesScenario.store0 LikesScenario.U 1
           LikesScenario.T1).
  reflexivity.
Defined.

(** ** Round trips *)

(** X4: when the viewer is not yet among the retweeters of a stored tweet,
    retweet followed by unretweet both succeed, the tweet's [retweets] is
    again the list it was and its [likes] is untouched; if the stored
    viewer's [retweets] did not hold the tweet, that list too is again what
    it was. *)
Theorem retweet_unretweet_roundtrip (st : Store) (viewer : User) (id : oid)
  (t : Tweet) :
  find_tweet id st = Some t →
  u_id viewer ∉ t_retweets t →
  let st2 := (unretweet viewer id (retweet viewer id st).1).1 in
  status (retweet viewer id st).2 = 200
  ∧ status (unretweet viewer id (retweet viewer id st).1).2 = 200
  ∧ (∃ t', find_tweet id st2 = Some t'
           ∧ t_retweets t' = t_retweets t ∧ t_likes t' = t_likes t)
  ∧ (∀ u, find_user (u_id viewer) st = Some u → id ∉ u_retweets u →
       ∃ u', find_user (u_id viewer) st2 = Some u'
             ∧ u_retweets u' = u_retweets u).
Proof.
  intros Ht Hfresh. pose proof (find_tweet_id _ _ _ Ht) as Hid. cbv zeta.
  rewrite (retweet_fresh _ _ _ _ Ht Hfresh). cbn [fst snd].
  set (t1 := set_t_retweets (u_id viewer :: t_retweets t) t).
  assert (find_tweet id (update_user (u_id viewer) (push retweets id)
                           (save_tweet t1 st)) = Some t1) as Ht1.
  { rewrite find_tweet_update_user, find_tweet_save_tweet, Ht. cbn.
    by rewrite Hid, bool_decide_eq_true_2. }
  rewrite (unretweet_retweeted _ _ _ _ Ht1) by apply list_elem_of_here.
  cbn [fst snd]. split; [done|]. split; [done|]. split.
  - eexists. split.
    + rewrite find_tweet_update_user, find_tweet_save_tweet, Ht1. cbn.
      rewrite Hid, bool_decide_eq_true_2 by done. reflexivity.
    + cbn. split; [|done]. case_decide; [done|]. by apply filter_ne_fresh.
  - intros u Hu Hout.
    repeat (rewrite find_user_update_user || rewrite find_user_save_tweet).
    rewrite Hu. cbn.
    rewrite (bool_decide_eq_true_2 (u_id viewer = u_id viewer)) by done.
    eexists. split; [done|]. cbn.
    rewrite filter_app, filter_ne_fresh by done.
    rewrite filter_cons_False by (intros H; by apply H).
    by rewrite filter_nil, app_nil_r.
Qed.

Lemma retweet_unretweet_roundtrip_witness :
  ∃ t', find_tweet 1
          (unretweet LikesScenario.U 1
             (retweet LikesScenario.U 1 LikesScenario.store0).1).1 = Some t'
        ∧ t_retweets t' = t_retweets LikesScenario.T1
        ∧ t_likes t' = t_likes LikesScenario.T1.
Proof.
  apply (retweet_unretweet_roundtrip LikesScenario.store0 LikesScenario.U 1
           LikesScenario.T1).
  - reflexivity.
  - apply not_elem_of_nil.
Defined.

Lemma set_path_get_path p u : set_path p (get_path p u) u = u.
Proof. by destruct p, u. Qed.




(** ** What the actions do to the store *)

Lemma like_store st viewer id :
  (like viewer id st).1
  = match find_tweet id st with
    | Some t =>
        if bool_decide (u_id viewer ∈ t_likes t) then st
        else update_user (u_id viewer) (push likes id)
               (save_tweet (set_t_likes (u_id viewer :: t_likes t) t) st)
    | None => st
    end.
Proof.
  destruct (find_tweet id st) as [t|] eqn:Ht.
  - case_bool_decide as Hin.
    + by rewrite (like_refused _ _ _ _ Ht Hin).
    + by rewrite (like_fresh _ _ _ _ Ht Hin).
  - unfold like, like_body. run. by rewrite Ht.
Qed.

Lemma unlike_store st viewer id :
  (unlike viewer id st).1
  = match find_tweet id st with
    | Some t =>
        if bool_decide (u_id viewer ∈ t_likes t)
        then update_user (u_id viewer) (pull likes id)
               (save_tweet
                  (set_t_likes (filter (λ x, x ≠ u_id viewer) (t_likes t)) t) st)
        else st
    | None => st
    end.
Proof.
  destruct (find_tweet id st) as [t|] eqn:Ht.
  - case_bool_decide as Hin.
    + by rewrite (unlike_liked _ _ _ _ Ht Hin).
    + by rewrite (unlike_refused _ _ _ _ Ht Hin).
  - unfold unlike, unlike_body. run. by rewrite Ht.
Qed.

Lemma retweet_store st viewer id :
  (retweet viewer id st).1
  = match find_tweet id st with
    | Some t =>
        if bool_decide (u_id viewer ∈ t_retweets t) then st
        else update_user (u_id viewer) (push retweets id)
               (save_tweet (set_t_retweets (u_id viewer :: t_retweets t) t) st)
    | None => st
    end.
Proof.
  destruct (find_tweet id st) as [t|] eqn:Ht.
  - case_bool_decide as Hin.
    + by rewrite (retweet_refused _ _ _ _ Ht Hin).
    + by rewrite (retweet_fresh _ _ _ _ Ht Hin).
  - unfold retweet, retweet_body. run. by rewrite Ht.
Qed.

Lemma unretweet_store st viewer id :
  (unretweet viewer id st).1
  = match find_tweet id st with
    | Some t =>
        if bool_decide (u_id viewer ∈ t_retweets t)
        then update_user (u_id viewer) (pull retweets id)
               (save_tweet
                  (set_t_retweets
                     (filter (λ x, x ≠ u_id viewer) (t_retweets t)) t) st)
        else st
    | None => st
    end.
Proof.
  destruct (find_tweet id st) as [t|] eqn:Ht.
  - case_bool_decide as Hin.
    + by rewrite (unretweet_retweeted _ _ _ _ Ht Hin).
    + by rewrite (unretweet_refused _ _ _ _ Ht Hin).
  - unfold unretweet, unretweet_body. run. by rewrite Ht.
Qed.

Lemma follow_store st viewer param :
  (follow viewer param st).1
  = if bool_decide (param = oid_hex (u_id viewer)) then st
    else match cast_oid param with
         | Some id =>
             match find_user id st with
             | Some _ =>
                 if bool_decide (param ∈ oid_hex <$> u_following viewer) then st
                 else update_user id (push followers (u_id viewer))
                        (update_user (u_id viewer) (push following id) st)
             | None => st
             end
         | None => st
         end.
Proof.
  unfold follow, follow_body, cast_param. case_bool_decide; run; [done|].
  destruct (cast_oid param) as [id|]; [|done]. run.
  destruct (find_user id st); [|done]. by case_bool_decide.
Qed.

Lemma unfollow_store st viewer param :
  (unfollow viewer param st).1
  = if bool_decide (param = oid_hex (u_id viewer)) then st
    else match cast_oid param with
         | Some id =>
             match find_user id st with
             | Some _ =>
                 if bool_decide (param ∈ oid_hex <$> u_following viewer)
                 then update_user id (pull followers (u_id viewer))
                        (update_user (u_id viewer) (pull following id) st)
                 else st
             | None => st
             end
         | None => st
         end.
Proof.
  unfold unfollow, unfollow_body, cast_param. case_bool_decide; run; [done|].
  destruct (cast_oid param) as [id|]; [|done]. run.
  destruct (find_user id st); [|done]. by case_bool_decide.
Qed.

Lemma delete_tweet_store st viewer id :
  (delete_tweet viewer id st).1
  = match find_tweet id st with
    | Some t => if bool_decide (t_user t ≠ u_id viewer) then st
                else remove_tweet id st
    | None => st
    end.
Proof.
  unfold delete_tweet, delete_tweet_body, Tweet_deleteOne. run.
  destruct (find_tweet id st) as [t|] eqn:Ht; [|done].
  case_bool_decide; [done|]. cbn. by rewrite (find_tweet_id _ _ _ Ht).
Qed.

Lemma find_user_updated uid id up st u :
  find_user uid (update_user id up st) = Some u →
  ∃ u0, find_user uid st = Some u0
        ∧ u = if bool_decide (uid = id) then apply_update up u0 else u0.
Proof.
  rewrite find_user_update_user. destruct (find_user uid st) as [u0|]; [|done].
  intros [= <-]. by eauto.
Qed.

Lemma find_tweet_saved tid t' st x :
  find_tweet tid (save_tweet t' st) = Some x →
  ∃ x0, find_tweet tid st = Some x0
        ∧ x = if bool_decide (tid = t_id t') then t' else x0.
Proof.
  rewrite find_tweet_save_tweet. destruct (find_tweet tid st) as [x0|]; [|done].
  intros [= <-]. by eauto.
Qed.

(** ** The mirrored lists *)

(** One save of a tweet and one update of the viewer keep a mirrored pair
    of lists in agreement when the two changes match. *)
Lemma mirrored_step side p st viewer id t t' up :
  find_tweet id st = Some t → t_id t' = id →
  (∀ uid, uid ≠ viewer → (uid ∈ side t' ↔ uid ∈ side t)) →
  (∀ u0 tid, tid ≠ id →
     (tid ∈ get_path p (apply_update up u0) ↔ tid ∈ get_path p u0)) →
  (∀ u0, find_user viewer st = Some u0 →
     (viewer ∈ side t' ↔ id ∈ get_path p (apply_update up u0))) →
  mirrored side p st →
  mirrored side p (update_user viewer up (save_tweet t' st)).
Proof.
  intros Ht Hid Hside Hpath Hboth Hm uid tid u x Hu Hx.
  apply find_user_updated in Hu as (u0 & Hu0 & ->).
  rewrite find_user_save_tweet in Hu0.
  rewrite find_tweet_update_user in Hx.
  apply find_tweet_saved in Hx as (x0 & Hx0 & ->).
  rewrite Hid. specialize (Hm uid tid u0 x0 Hu0 Hx0).
  destruct (decide (tid = id)) as [->|Htid],
           (decide (uid = viewer)) as [->|Huid];
    repeat case_bool_decide; try done.
  - by apply Hboth.
  - rewrite Hside by done. by replace x0 with t in Hm by congruence.
  - by rewrite Hpath.
Qed.

Lemma elem_of_filter_ne (x y : oid) (l : list oid) :
  x ∈ filter (λ z, z ≠ y) l ↔ x ≠ y ∧ x ∈ l.
Proof. by rewrite list_elem_of_filter. Qed.

Lemma elem_of_snoc_ne (x y : oid) (l : list oid) :
  x ≠ y → (x ∈ (l ++ [y])%list ↔ x ∈ l).
Proof.
  intros Hne. rewrite elem_of_app, list_elem_of_singleton. naive_solver.
Qed.

(** X6: like, unlike, retweet and unretweet keep the mirrored lists in
    agreement.  If, for all stored users and tweets, the user is in the
    tweet's [likes] exactly when the tweet is in the user's [likes], and
    likewise for [retweets], then the same holds after any of the four
    requests, accepted or refused. *)
Theorem tweet_actions_keep_mirror (st : Store) (viewer : User) (id : oid) :
  mirrored t_likes likes st → mirrored t_retweets retweets st →
  ∀ act, act ∈ [like; unlike; retweet; unretweet] →
    mirrored t_likes likes (act viewer id st).1
    ∧ mirrored t_retweets retweets (act viewer id st).1.
Proof.
  intros Hl Hr act Hact.
  assert (∀ t u0, find_tweet id st = Some t →
            find_user (u_id viewer) st = Some u0 →
            (u_id viewer ∈ t_likes t ↔ id ∈ u_likes u0)) as Hlv.
  { intros t u0 Ht Hu0. by apply (Hl (u_id viewer) id u0 t). }
  assert (∀ t u0, find_tweet id st = Some t →
            find_user (u_id viewer) st = Some u0 →
            (u_id viewer ∈ t_retweets t ↔ id ∈ u_retweets u0)) as Hrv.
  { intros t u0 Ht Hu0. by apply (Hr (u_id viewer) id u0 t). }
  repeat (apply elem_of_cons in Hact as [->|Hact]); [| | | |by apply elem_of_nil in Hact].
  - rewrite like_store. destruct (find_tweet id st) as [t|] eqn:Ht; [|done].
    case_bool_decide as Hin; [done|].
    pose proof (find_tweet_id _ _ _ Ht) as Hid.
    split; eapply mirrored_step; try done.
    + intros uid Hne. cbn. rewrite elem_of_cons. naive_solver.
    + intros u0 tid Hne. rewrite get_path_apply_push. by apply elem_of_snoc_ne.
    + intros u0 Hu0. rewrite get_path_apply_push. cbn.
      rewrite elem_of_cons, elem_of_app, list_elem_of_singleton. naive_solver.
    + intros u0 Hu0. cbn. by apply Hrv.
  - rewrite unlike_store. destruct (find_tweet id st) as [t|] eqn:Ht; [|done].
    case_bool_decide as Hin; [|done].
    pose proof (find_tweet_id _ _ _ Ht) as Hid.
    split; eapply mirrored_step; try done.
    + intros uid Hne. cbn. rewrite elem_of_filter_ne. naive_solver.
    + intros u0 tid Hne. rewrite get_path_apply_pull, elem_of_filter_ne.
      naive_solver.
    + intros u0 Hu0. rewrite get_path_apply_pull. cbn.
      rewrite !elem_of_filter_ne. naive_solver.
    + intros u0 Hu0. cbn. by apply Hrv.
  - rewrite retweet_store. destruct (find_tweet id st) as [t|] eqn:Ht; [|done].
    case_bool_decide as Hin; [done|].
    pose proof (find_tweet_id _ _ _ Ht) as Hid.
    split; eapply mirrored_step; try done.
    + intros u0 Hu0. cbn. by apply Hlv.
    + intros uid Hne. cbn. rewrite elem_of_cons. naive_solver.
    + intros u0 tid Hne. rewrite get_path_apply_push. by apply elem_of_snoc_ne.
    + intros u0 Hu0. rewrite get_path_apply_push. cbn.
      rewrite elem_of_cons, elem_of_app, list_elem_of_singleton. naive_solver.
  - rewrite unretweet_store. destruct (find_tweet id st) as [t|] eqn:Ht; [|done].
    case_bool_decide as Hin; [|done].
    pose proof (find_tweet_id _ _ _ Ht) as Hid.
    split; eapply mirrored_step; try done.
    + intros u0 Hu0. cbn. by apply Hlv.
    + intros uid Hne. cbn. rewrite elem_of_filter_ne. naive_solver.
    + intros u0 tid Hne. rewrite get_path_apply_pull, elem_of_filter_ne.
      naive_solver.
    + intros u0 Hu0. rewrite get_path_apply_pull. cbn.
      rewrite !elem_of_filter_ne. naive_solver.
Qed.

Lemma mirrored_empty side p st :
  Forall (λ t, side t = []) (tweets st) →
  Forall (λ u, get_path p u = []) (users st) →
  mirrored side p st.
Proof.
  rewrite !Forall_forall. intros Ht Hu uid tid u t Hfu Hft.
  unfold find_user in Hfu. unfold find_tweet in Hft.
  apply find_some in Hfu as [Hfu _]. apply find_some in Hft as [Hft _].
  apply list_elem_of_In in Hfu, Hft.
  rewrite (Ht _ Hft), (Hu _ Hfu). by rewrite !elem_of_nil.
Qed.

Lemma tweet_actions_keep_mirror_witness :
  mirrored t_likes likes (like LikesScenario.U 1 LikesScenario.store0).1
  ∧ mirrored t_retweets retweets (like LikesScenario.U 1 LikesScenario.store0).1.
Proof.
  apply (tweet_actions_keep_mirror LikesScenario.store0 LikesScenario.U 1).
  - apply mirrored_empty; cbn; repeat constructor.
  - apply mirrored_empty; cbn; repeat constructor.
  - apply list_elem_of_here.
Defined.

(** X7: follow and unfollow keep the follow graph mirrored: if for all
    stored users a and b, b is in a's [following] exactly when a is in b's
    [followers], the same holds after the request, whatever its text,
    accepted or refused. *)
Theorem follow_keeps_mirror (st : Store) (viewer : User) (param : string) :
  follows_mirrored st →
  follows_mirrored (follow viewer param st).1
  ∧ follows_mirrored (unfollow viewer param st).1.
Proof.
  intros Hm. split.
  - rewrite follow_store. case_bool_decide as Hself; [done|].
    destruct (cast_oid param) as [id|]; [|done].
    destruct (find_user id st); [|done]. case_bool_decide as Hin; [done|].
    intros a b ua ub Ha Hb.
    apply find_user_updated in Ha as (ua1 & Ha & ->).
    apply find_user_updated in Ha as (ua0 & Ha & ->).
    apply find_user_updated in Hb as (ub1 & Hb & ->).
    apply find_user_updated in Hb as (ub0 & Hb & ->).
    specialize (Hm a b ua0 ub0 Ha Hb).
    repeat case_bool_decide; subst; try done; cbn;
      rewrite ?elem_of_app, ?list_elem_of_singleton; naive_solver.
  - rewrite unfollow_store. case_bool_decide as Hself; [done|].
    destruct (cast_oid param) as [id|]; [|done].
    destruct (find_user id st); [|done]. case_bool_decide as Hin; [|done].
    intros a b ua ub Ha Hb.
    apply find_user_updated in Ha as (ua1 & Ha & ->).
    apply find_user_updated in Ha as (ua0 & Ha & ->).
    apply find_user_updated in Hb as (ub1 & Hb & ->).
    apply find_user_updated in Hb as (ub0 & Hb & ->).
    specialize (Hm a b ua0 ub0 Ha Hb).
    repeat case_bool_decide; subst; try done; cbn;
      rewrite ?elem_of_filter_ne; naive_solver.
Qed.

Lemma follows_mirrored_home : follows_mirrored HomeScenario.store.
Proof.
  intros a b ua ub Ha Hb.
  pose proof (find_user_id _ _ _ Ha) as Hia.
  pose proof (find_user_id _ _ _ Hb) as Hib.
  unfold find_user in Ha, Hb.
  apply find_some in Ha as [Ha _]. apply find_some in Hb as [Hb _].
  cbn in Ha, Hb.
  destruct Ha as [<-|[<-|[<-|[<-|[]]]]], Hb as [<-|[<-|[<-|[<-|[]]]]];
    subst; cbn; split; intros H;
    repeat (apply elem_of_cons in H as [H|H]; try done);
    try (by apply elem_of_nil in H);
    apply (bool_decide_unpack _); reflexivity.
Qed.

Lemma follow_keeps_mirror_witness :
  follows_mirrored
    (follow HomeScenario.V "000000000000000000000004" HomeScenario.store).1
  ∧ follows_mirrored
      (unfollow HomeScenario.V "000000000000000000000004" HomeScenario.store).1.
Proof.
  apply (follow_keeps_mirror HomeScenario.store HomeScenario.V
           "000000000000000000000004").
  apply follows_mirrored_home.
Defined.

(** X8: a request that spells ids as [req.user.id] does never makes a user
    follow oneself.  If no stored user is in its own [following] or
    [followers], that is still so after an unfollow, and after a follow
    whose text is not another spelling of the viewer's own id (a text that
    denotes the viewer's id is the lower-case one). *)
Theorem follow_never_self (st : Store) (viewer : User) (param : string) :
  no_self_follow st →
  ((cast_oid param = Some (u_id viewer) → param = oid_hex (u_id viewer)) →
     no_self_follow (follow viewer param st).1)
  ∧ no_self_follow (unfollow viewer param st).1.
Proof.
  intros Hn. split.
  - intros Hsp. rewrite follow_store. case_bool_decide as Hself; [done|].
    destruct (cast_oid param) as [id|] eqn:Hid; [|done].
    assert (id ≠ u_id viewer) as Hne.
    { intros ->. by apply Hself, Hsp. }
    destruct (find_user id st); [|done]. case_bool_decide as Hin; [done|].
    intros a ua Ha.
    apply find_user_updated in Ha as (ua1 & Ha & ->).
    apply find_user_updated in Ha as (ua0 & Ha & ->).
    destruct (Hn a ua0 Ha) as [H1 H2].
    repeat case_bool_decide; subst; try done; cbn;
      rewrite ?elem_of_app, ?list_elem_of_singleton; naive_solver.
  - rewrite unfollow_store. case_bool_decide as Hself; [done|].
    destruct (cast_oid param) as [id|]; [|done].
    destruct (find_user id st); [|done]. case_bool_decide as Hin; [|done].
    intros a ua Ha.
    apply find_user_updated in Ha as (ua1 & Ha & ->).
    apply find_user_updated in Ha as (ua0 & Ha & ->).
    destruct (Hn a ua0 Ha) as [H1 H2].
    repeat case_bool_decide; subst; try done; cbn;
      rewrite ?elem_of_filter_ne; naive_solver.
Qed.

Lemma no_self_follow_home : no_self_follow HomeScenario.store.
Proof.
  intros a ua Ha. pose proof (find_user_id _ _ _ Ha) as Hia.
  unfold find_user in Ha. apply find_some in Ha as [Ha _]. cbn in Ha.
  destruct Ha as [<-|[<-|[<-|[<-|[]]]]]; subst; cbn;
    split; apply (bool_decide_unpack _); reflexivity.
Qed.

Lemma follow_never_self_witness :
  no_self_follow
    (follow HomeScenario.V "000000000000000000000004" HomeScenario.store).1.
Proof.
  apply (follow_never_self HomeScenario.store HomeScenario.V
           "000000000000000000000004").
  - apply no_self_follow_home.
  - vm_compute. discriminate.
Defined.

Lemma nodup_step side p st viewer id t t' up :
  find_tweet id st = Some t → t_id t' = id →
  NoDup (side t') →
  (∀ u0, find_user viewer st = Some u0 →
     NoDup (get_path p (apply_update up u0))) →
  lists_nodup side p st →
  lists_nodup side p (update_user viewer up (save_tweet t' st)).
Proof.
  intros Ht Hid Hside Hpath [Hts Hus]. split.
  - intros tid x Hx. rewrite find_tweet_update_user in Hx.
    apply find_tweet_saved in Hx as (x0 & Hx0 & ->).
    case_bool_decide; [done|]. by eapply Hts.
  - intros uid u Hu. apply find_user_updated in Hu as (u0 & Hu0 & ->).
    rewrite find_user_save_tweet in Hu0.
    case_bool_decide; [subst; by apply Hpath|by eapply Hus].
Qed.

(** X9: the four tweet actions keep the lists free of repetitions.  If the
    mirrored lists agree and no stored tweet or user lists an id twice in
    [likes] or [retweets], that is still so after a like, unlike, retweet
    or unretweet. *)
Theorem tweet_actions_keep_nodup (st : Store) (viewer : User) (id : oid) :
  mirrored t_likes likes st → mirrored t_retweets retweets st →
  lists_nodup t_likes likes st → lists_nodup t_retweets retweets st →
  ∀ act, act ∈ [like; unlike; retweet; unretweet] →
    lists_nodup t_likes likes (act viewer id st).1
    ∧ lists_nodup t_retweets retweets (act viewer id st).1.
Proof.
  intros Hml Hmr Hl Hr act Hact.
  repeat (apply elem_of_cons in Hact as [->|Hact]); [| | | |by apply elem_of_nil in Hact].
  - rewrite like_store. destruct (find_tweet id st) as [t|] eqn:Ht; [|done].
    case_bool_decide as Hin; [done|].
    pose proof (find_tweet_id _ _ _ Ht) as Hid.
    split; eapply nodup_step; try done; cbn.
    + apply NoDup_cons. split; [done|]. by eapply (proj1 Hl).
    + intros u0 Hu0. apply NoDup_app. split; [by eapply (proj2 Hl)|].
      split; [|apply NoDup_singleton].
      intros x Hx ->%list_elem_of_singleton.
      by apply Hin, (Hml (u_id viewer) id u0 t).
    + by eapply (proj1 Hr).
    + intros u0 Hu0. by eapply (proj2 Hr).
  - rewrite unlike_store. destruct (find_tweet id st) as [t|] eqn:Ht; [|done].
    case_bool_decide as Hin; [|done].
    pose proof (find_tweet_id _ _ _ Ht) as Hid.
    split; eapply nodup_step; try done; cbn.
    + apply NoDup_filter. by eapply (proj1 Hl).
    + intros u0 Hu0. apply NoDup_filter. by eapply (proj2 Hl).
    + by eapply (proj1 Hr).
    + intros u0 Hu0. by eapply (proj2 Hr).
  - rewrite retweet_store. destruct (find_tweet id st) as [t|] eqn:Ht; [|done].
    case_bool_decide as Hin; [done|].
    pose proof (find_tweet_id _ _ _ Ht) as Hid.
    split; eapply nodup_step; try done; cbn.
    + by eapply (proj1 Hl).
    + intros u0 Hu0. by eapply (proj2 Hl).
    + apply NoDup_cons. split; [done|]. by eapply (proj1 Hr).
    + intros u0 Hu0. apply NoDup_app. split; [by eapply (proj2 Hr)|].
      split; [|apply NoDup_singleton].
      intros x Hx ->%list_elem_of_singleton.
      by apply Hin, (Hmr (u_id viewer) id u0 t).
  - rewrite unretweet_store. destruct (find_tweet id st) as [t|] eqn:Ht; [|done].
    case_bool_decide as Hin; [|done].
    pose proof (find_tweet_id _ _ _ Ht) as Hid.
    split; eapply nodup_step; try done; cbn.
    + by eapply (proj1 Hl).
    + intros u0 Hu0. by eapply (proj2 Hl).
    + apply NoDup_filter. by eapply (proj1 Hr).
    + intros u0 Hu0. apply NoDup_filter. by eapply (proj2 Hr).
Qed.

Lemma lists_nodup_empty side p st :
  Forall (λ t, side t = []) (tweets st) →
  Forall (λ u, get_path p u = []) (users st) →
  lists_nodup side p st.
Proof.
  rewrite !Forall_forall. intros Ht Hu. split.
  - intros tid t Hft. unfold find_tweet in Hft.
    apply find_some in Hft as [Hft _]. apply list_elem_of_In in Hft.
    rewrite (Ht _ Hft). apply NoDup_nil_2.
  - intros uid u Hfu. unfold find_user in Hfu.
    apply find_some in Hfu as [Hfu _]. apply list_elem_of_In in Hfu.
    rewrite (Hu _ Hfu). apply NoDup_nil_2.
Qed.

Lemma tweet_actions_keep_nodup_witness :
  lists_nodup t_likes likes (like LikesScenario.U 1 LikesScenario.store0).1
  ∧ lists_nodup t_retweets retweets
      (like LikesScenario.U 1 LikesScenario.store0).1.
Proof.
  apply (tweet_actions_keep_nodup LikesScenario.store0 LikesScenario.U 1).
  - apply mirrored_empty; cbn; repeat constructor.
  - apply mirrored_empty; cbn; repeat constructor.
  - apply lists_nodup_empty; cbn; repeat constructor.
  - apply lists_nodup_empty; cbn; repeat constructor.
  - apply list_elem_of_here.
Defined.

(** ** Bystanders *)

Lemma find_tweet_remove_tweet tid id st :
  find_tweet tid (remove_tweet id st)
  = if bool_decide (tid = id) then None else find_tweet tid st.
Proof.
  unfold find_tweet, remove_tweet. cbn [tweets].
  induction (tweets st) as [|t ts IH]; [by case_bool_decide|].
  destruct (decide (t_id t = id)) as [Heq|Hne].
  - rewrite filter_cons_False by (intros H; by apply H).
    rewrite IH. cbn [find]. case_bool_decide; [done|].
    rewrite (bool_decide_eq_false_2 (t_id t = tid)) by congruence. done.
  - rewrite filter_cons_True by done. cbn [find]. rewrite IH.
    repeat case_bool_decide; congruence.
Qed.

(** X10: what the actions leave alone.  A like, unlike, retweet or
    unretweet of tweet [id] changes no other tweet and no user but the
    viewer, adds or removes no tweet (a retweet creates no document), and
    leaves the content, author, image, parent and date of tweet [id] as
    they were.  A follow or unfollow leaves the tweet collection as it was
    and changes no user other than the viewer and the user that the request
    text denotes. *)
Theorem actions_frame (st : Store) (viewer : User) (id : oid) :
  (∀ act, act ∈ [like; unlike; retweet; unretweet] →
     let st' := (act viewer id st).1 in
     (∀ tid, tid ≠ id → find_tweet tid st' = find_tweet tid st)
     ∧ (∀ uid, uid ≠ u_id viewer → find_user uid st' = find_user uid st)
     ∧ length (tweets st') = length (tweets st)
     ∧ (∀ t', find_tweet id st' = Some t' →
          ∃ t, find_tweet id st = Some t
               ∧ t_content t' = t_content t ∧ t_user t' = t_user t
               ∧ t_image t' = t_image t ∧ t_replyTo t' = t_replyTo t
               ∧ t_createdAt t' = t_createdAt t))
  ∧ (∀ param act, act ∈ [follow; unfollow] →
       let st' := (act viewer param st).1 in
       tweets st' = tweets st
       ∧ (∀ uid, uid ≠ u_id viewer → cast_oid param ≠ Some uid →
            find_user uid st' = find_user uid st)).
Proof.
  pose (P := λ st' : Store,
    (∀ tid, tid ≠ id → find_tweet tid st' = find_tweet tid st)
    ∧ (∀ uid, uid ≠ u_id viewer → find_user uid st' = find_user uid st)
    ∧ length (tweets st') = length (tweets st)
    ∧ (∀ t', find_tweet id st' = Some t' →
         ∃ t, find_tweet id st = Some t
              ∧ t_content t' = t_content t ∧ t_user t' = t_user t
              ∧ t_image t' = t_image t ∧ t_replyTo t' = t_replyTo t
              ∧ t_createdAt t' = t_createdAt t)).
  assert (P st) as Hrefl.
  { unfold P. repeat split; [done..|]. intros t' Ht'. by exists t'. }
  assert (∀ (t t' : Tweet) up,
            find_tweet id st = Some t → t_id t' = id →
            t_content t' = t_content t → t_user t' = t_user t →
            t_image t' = t_image t → t_replyTo t' = t_replyTo t →
            t_createdAt t' = t_createdAt t →
            P (update_user (u_id viewer) up (save_tweet t' st))) as Hstep.
  { intros t t' up Ht Hid H1 H2 H3 H4 H5. unfold P. split; [|split; [|split]].
    - intros tid Hne. rewrite find_tweet_update_user, find_tweet_save_tweet.
      destruct (find_tweet tid st); [|done]. cbn.
      by rewrite bool_decide_eq_false_2 by congruence.
    - intros uid Hne. rewrite find_user_update_user, find_user_save_tweet.
      destruct (find_user uid st); [|done]. cbn.
      by rewrite bool_decide_eq_false_2 by done.
    - cbn. by rewrite length_fmap.
    - intros t'' Ht''. rewrite find_tweet_update_user in Ht''.
      apply find_tweet_saved in Ht'' as (x0 & Hx0 & ->).
      rewrite Hid, bool_decide_eq_true_2 by done. by exists t. }
  split.
  - intros act Hact. change (P (act viewer id st).1).
    repeat (apply elem_of_cons in Hact as [->|Hact]);
      [| | | |by apply elem_of_nil in Hact].
    + rewrite like_store. destruct (find_tweet id st) as [t|] eqn:Ht; [|done].
      case_bool_decide; [done|].
      by apply (Hstep t); [|apply (find_tweet_id _ _ _ Ht)|..].
    + rewrite unlike_store. destruct (find_tweet id st) as [t|] eqn:Ht; [|done].
      case_bool_decide; [|done].
      by apply (Hstep t); [|apply (find_tweet_id _ _ _ Ht)|..].
    + rewrite retweet_store. destruct (find_tweet id st) as [t|] eqn:Ht; [|done].
      case_bool_decide; [done|].
      by apply (Hstep t); [|apply (find_tweet_id _ _ _ Ht)|..].
    + rewrite unretweet_store. destruct (find_tweet id st) as [t|] eqn:Ht; [|done].
      case_bool_decide; [|done].
      by apply (Hstep t); [|apply (find_tweet_id _ _ _ Ht)|..].
  - intros param act Hact.
    repeat (apply elem_of_cons in Hact as [->|Hact]);
      [| |by apply elem_of_nil in Hact]; cbn zeta.
    + rewrite follow_store. case_bool_decide; [done|].
      destruct (cast_oid param) as [id'|]; [|done].
      destruct (find_user id' st); [|done]. case_bool_decide; [done|].
      split; [done|]. intros uid H1 H2. rewrite !find_user_update_user.
      destruct (find_user uid st); [|done]. cbn.
      by rewrite !bool_decide_eq_false_2 by congruence.
    + rewrite unfollow_store. case_bool_decide; [done|].
      destruct (cast_oid param) as [id'|]; [|done].
      destruct (find_user id' st); [|done]. case_bool_decide; [|done].
      split; [done|]. intros uid H1 H2. rewrite !find_user_update_user.
      destruct (find_user uid st); [|done]. cbn.
      by rewrite !bool_decide_eq_false_2 by congruence.
Qed.

Lemma actions_frame_witness :
  let st' := (retweet LikesScenario.U 1 LikesScenario.store0).1 in
  (∀ tid, tid ≠ 1 → find_tweet tid st' = find_tweet tid LikesScenario.store0)
  ∧ (∀ uid, uid ≠ u_id LikesScenario.U →
       find_user uid st' = find_user uid LikesScenario.store0)
  ∧ length (tweets st') = length (tweets LikesScenario.store0)
  ∧ (∀ t', find_tweet 1 st' = Some t' →
       ∃ t, find_tweet 1 LikesScenario.store0 = Some t
            ∧ t_content t' = t_content t ∧ t_user t' = t_user t
            ∧ t_image t' = t_image t ∧ t_replyTo t' = t_replyTo t
            ∧ t_createdAt t' = t_createdAt t).
Proof.
  apply (proj1 (actions_frame LikesScenario.store0 LikesScenario.U 1) retweet).
  do 2 apply list_elem_of_further. apply list_elem_of_here.
Defined.

(** ** Deleting a tweet *)

(** X11: only the author deletes.  On a stored tweet, a viewer who is not
    its author gets the 401 reply and the store is left as it was; for the
    author the tweet leaves the collection and nothing else changes: every
    other tweet, replies to the deleted one included, stays as it is, and
    so does every user document (ids of the deleted tweet in [likes] and
    [retweets] are not cleaned up). *)
Theorem delete_tweet_effect (st : Store) (viewer : User) (id : oid) (t : Tweet) :
  find_tweet id st = Some t →
  (t_user t ≠ u_id viewer →
     delete_tweet viewer id st = (st, fail 401 "User not authorized"))
  ∧ (t_user t = u_id viewer →
       (delete_tweet viewer id st).2 = ok (Message "Tweet removed")
       ∧ find_tweet id (delete_tweet viewer id st).1 = None
       ∧ (∀ tid, tid ≠ id →
            find_tweet tid (delete_tweet viewer id st).1 = find_tweet tid st)
       ∧ (∀ r, r ∈ tweets st → t_id r ≠ id →
            r ∈ tweets (delete_tweet viewer id st).1)
       ∧ users (delete_tweet viewer id st).1 = users st).
Proof.
  intros Ht. split.
  - intros Hne. unfold delete_tweet, delete_tweet_body. run. rewrite Ht.
    by rewrite bool_decide_eq_true_2 by done.
  - intros Hown. split.
    { unfold delete_tweet, delete_tweet_body, Tweet_deleteOne. run. rewrite Ht.
      by rewrite bool_decide_eq_false_2 by (intros H; by apply H). }
    rewrite delete_tweet_store, Ht.
    rewrite bool_decide_eq_false_2 by (intros H; by apply H).
    split; [|split; [|split]].
    + rewrite find_tweet_remove_tweet. by rewrite bool_decide_eq_true_2.
    + intros tid Hne. rewrite find_tweet_remove_tweet.
      by rewrite bool_decide_eq_false_2.
    + intros r Hr Hne. cbn. by apply list_elem_of_filter.
    + done.
Qed.

Lemma delete_tweet_effect_witness :
  (delete_tweet HomeScenario.C 10 HomeScenario.store).2
  = ok (Message "Tweet removed")
  ∧ find_tweet 10 (delete_tweet HomeScenario.C 10 HomeScenario.store).1 = None
  ∧ (∀ tid, tid ≠ 10 →
       find_tweet tid (delete_tweet HomeScenario.C 10 HomeScenario.store).1
       = find_tweet tid HomeScenario.store)
  ∧ (∀ r, r ∈ tweets HomeScenario.store → t_id r ≠ 10 →
       r ∈ tweets (delete_tweet HomeScenario.C 10 HomeScenario.store).1)
  ∧ users (delete_tweet HomeScenario.C 10 HomeScenario.store).1
    = users HomeScenario.store.
Proof.
  apply (proj2 (delete_tweet_effect HomeScenario.store HomeScenario.C 10
                  HomeScenario.X eq_refl)).
  reflexivity.
Defined.

(** ** Annotation *)

Lemma annotate1_store rx user d st :
  (addUserInteractionInfo1 rx user d st).1 = st.
Proof.
  unfold addUserInteractionInfo1, Tweet_countDocuments.
  rewrite compile_plain by done. run.
  destruct (doc_replyTo d) as [|?| |p]; try done.
  by destruct (parent_user p).
Qed.

Lemma annotate1_no_reply rx user d st r :
  (addUserInteractionInfo1 rx user d st).2 ≠ Reply r.
Proof.
  unfold addUserInteractionInfo1, Tweet_countDocuments.
  rewrite compile_plain by done. run.
  destruct (doc_replyTo d) as [|?| |p]; try done.
  by destruct (parent_user p).
Qed.

Lemma count_replies st id :
  length (filter (λ t, holds_plain (set_c_replyTo (CEq id) no_criteria) t)
                 (tweets st))
  = replies_to id st.
Proof.
  unfold replies_to. f_equal. apply list_filter_iff. intros t.
  rewrite Is_true_true. unfold holds_plain. cbn.
  destruct (t_replyTo t) as [r|]; cbn; [|done].
  rewrite bool_decide_eq_true. split; congruence.
Qed.

(** The fields of one annotated tweet. *)
Lemma annotate1_fields rx user d st v :
  addUserInteractionInfo1 rx user d st = (st, Val v) →
  tweetObj v = d
  ∧ isLiked v = bool_decide (u_id user ∈ t_likes (doc d))
  ∧ isRetweeted v = bool_decide (u_id user ∈ t_retweets (doc d))
  ∧ likesCount v = length (t_likes (doc d))
  ∧ retweetsCount v = length (t_retweets (doc d))
  ∧ commentsCount v = replies_to (t_id (doc d)) st
  ∧ replyToUser v
    = match doc_replyTo d with
      | ReplyDoc p =>
          (λ a, mkReplyToUser (ref_id a) (ref_name a) (ref_username a))
            <$> parent_user p
      | _ => None
      end.
Proof.
  unfold addUserInteractionInfo1, Tweet_countDocuments.
  rewrite compile_plain by done. run. rewrite count_replies.
  destruct (doc_replyTo d) as [|?| |p]; [|done| |].
  - intros [= <-]. done.
  - intros [= <-]. done.
  - destruct (parent_user p); [|done]. intros [= <-]. done.
Qed.

Lemma annotate_outcome rx user ds st :
  (∃ vs, addUserInteractionInfo rx ds user st = (st, Val vs)
         ∧ Forall2 (λ d v, addUserInteractionInfo1 rx user d st = (st, Val v))
                   ds vs)
  ∨ addUserInteractionInfo rx ds user st = (st, Throw).
Proof.
  unfold addUserInteractionInfo. induction ds as [|d ds IH].
  - left. exists []. split; [done|constructor].
  - cbn [mapM]. run.
    pose proof (annotate1_store rx user d st) as Hst.
    pose proof (annotate1_no_reply rx user d st) as Hnr.
    destruct (addUserInteractionInfo1 rx user d st) as [st1 [v|r|]] eqn:Hv;
      cbn in Hst; subst st1.
    + destruct IH as [(vs & -> & Hvs)| ->]; [|by right].
      left. exists (v :: vs). split; [done|]. by constructor.
    + by destruct (Hnr r).
    + by right.
Qed.

(** X12: annotation keeps length and order and computes each field from
    the store as it is.  When [addUserInteractionInfo] returns, the store
    is unchanged, the annotated tweets are the given documents in the given
    order, and for each of them [isLiked] and [isRetweeted] tell whether
    the viewer is in its [likes] and [retweets], the two counts are the
    lengths of these lists and [commentsCount] is the number of stored
    tweets whose [replyTo] is its id.  The only other outcome is a thrown
    exception, with the store unchanged. *)
Theorem annotation_pointwise rx (user : User) (ds : list TweetDoc) (st : Store) :
  (∃ vs, addUserInteractionInfo rx ds user st = (st, Val vs)
         ∧ tweetObj <$> vs = ds
         ∧ Forall (λ v,
             isLiked v = bool_decide (u_id user ∈ t_likes (doc (tweetObj v)))
             ∧ isRetweeted v
               = bool_decide (u_id user ∈ t_retweets (doc (tweetObj v)))
             ∧ likesCount v = length (t_likes (doc (tweetObj v)))
             ∧ retweetsCount v = length (t_retweets (doc (tweetObj v)))
             ∧ commentsCount v = replies_to (t_id (doc (tweetObj v))) st) vs)
  ∨ addUserInteractionInfo rx ds user st = (st, Throw).
Proof.
  destruct (annotate_outcome rx user ds st) as [(vs & Hrun & Hvs)|Hthrow];
    [left|by right].
  exists vs. split; [done|]. clear Hrun.
  induction Hvs as [|d v ds vs Hv _ [IH1 IH2]]; [split; [done|constructor]|].
  apply annotate1_fields in Hv as (<- & H1 & H2 & H3 & H4 & H5 & _).
  split; [cbn; by rewrite IH1|]. by constructor.
Qed.

(** ** The feed: read-only, sorted and bounded *)

(** What [respond_with] can reply: the 500 reply, or the annotated page of
    the tweets that pass the compiled filter. *)
Lemma respond_with_cases rx viewer c (pop : bool) page limit st :
  (0 < page)%Z → (0 < limit)%Z →
  respond_with rx viewer c pop page limit st = (st, fail 500 "Server error")
  ∨ ∃ p vs,
      compile rx c = Some p
      ∧ respond_with rx viewer c pop page limit st = (st, ok (Tweets vs))
      ∧ Forall2 (λ d v, addUserInteractionInfo1 rx viewer d st = (st, Val v))
          ((λ t, mkTweetDoc t (populate_user select_author st (t_user t))
                   (if pop then populate_replyTo select_username st t
                    else raw_replyTo t))
             <$> page_of page limit
                   (merge_sort newer_first (filter (λ t, p t) (tweets st))))
          vs.
Proof.
  intros Hp Hl. destruct (compile rx c) as [p|] eqn:Hc.
  - unfold respond_with, Tweet_find. run.
    rewrite Hc, skip_limit_page by done. cbn.
    match goal with
    | |- context [addUserInteractionInfo rx ?ds viewer st] =>
        destruct (annotate_outcome rx viewer ds st) as [(vs & -> & Hvs)| ->]
    end.
    + right. by exists p, vs.
    + by left.
  - left. by apply respond_with_rejected.
Qed.

Lemma respond_with_store rx viewer c (pop : bool) page limit st :
  (respond_with rx viewer c pop page limit st).1 = st.
Proof.
  unfold respond_with, Tweet_find. run.
  destruct (compile rx c) as [p|]; [|done].
  destruct (skip_limit _ _ _) as [pg|]; [|done]. cbn.
  match goal with
  | |- context [addUserInteractionInfo rx ?ds viewer st] =>
      destruct (annotate_outcome rx viewer ds st) as [(vs & -> & Hvs)| ->]
  end; done.
Qed.

Lemma Forall2_annotate_docs rx viewer st ds vs :
  Forall2 (λ d v, addUserInteractionInfo1 rx viewer d st = (st, Val v)) ds vs →
  tweetObj <$> vs = ds.
Proof.
  induction 1 as [|d v ds vs Hv _ IH]; [done|].
  apply annotate1_fields in Hv as (<- & _). cbn. by rewrite IH.
Qed.

Lemma StronglySorted_page_of {A} (R : relation A) (page limit : Z) (l : list A) :
  StronglySorted R l → StronglySorted R (page_of page limit l).
Proof.
  intros Hl. unfold page_of.
  set (n := Z.to_nat ((page - 1) * limit)). set (k := Z.to_nat limit).
  rewrite <- (take_drop n l) in Hl. apply StronglySorted_app_1_r in Hl.
  rewrite <- (take_drop k (drop n l)) in Hl.
  by apply StronglySorted_app_1_l in Hl.
Qed.

(** X13: reading routes only read.  Whatever the request and whatever the
    reply, [GET /api/tweets], [GET /api/tweets/:id], the profile route and
    the suggestions leave the store, journal included, as it was. *)
Theorem reads_leave_store rx (viewer : User) (st : Store) :
  (∀ q, (get_tweets rx viewer q st).1 = st)
  ∧ (∀ id, (get_tweet rx viewer id st).1 = st)
  ∧ (∀ username, (get_profile viewer username st).1 = st)
  ∧ (get_suggestions viewer st).1 = st.
Proof.
  split; [|split; [|split]].
  - intros q. rewrite get_tweets_unfold. cbn zeta.
    destruct (truthy (q_username q)).
    + destruct (find_username _ st); [|done].
      destruct (type_is q "likes"); apply respond_with_store.
    + destruct (is_home q); apply respond_with_store.
  - intros id. unfold get_tweet, try_catch_with, get_tweet_body,
      Tweet_countDocuments. run.
    destruct (find_tweet id st) as [t|]; [|done].
    rewrite compile_plain by done. cbn.
    destruct (populate_replyTo _ _ _) as [|?| |p]; try done.
    by destruct (parent_user p).
  - intros username. unfold get_profile, try_catch_with, get_profile_body. run.
    by destruct (find_username username st).
  - done.
Qed.

(** X14: whatever the filters, a feed reply is newest first, bounded and
    made of stored tweets.  For positive [page] and [limit], the reply of
    [GET /api/tweets] is the 404 reply "User not found", the 500 reply, or
    a 200 reply whose tweets are stored tweets in descending order of
    createdAt, at most [limit] of them. *)
Theorem feed_sorted_bounded rx (st : Store) (viewer : User) (q : Query) :
  (0 < default 1 (q_page q))%Z → (0 < default 10 (q_limit q))%Z →
  let r := (get_tweets rx viewer q st).2 in
  r = fail 404 "User not found"
  ∨ r = fail 500 "Server error"
  ∨ ∃ ts, status r = 200 ∧ view_docs r = Some ts
          ∧ StronglySorted newer_first ts
          ∧ (Z.of_nat (length ts) ≤ default 10 (q_limit q))%Z
          ∧ ts ⊆ tweets st.
Proof.
  intros Hp Hl r.
  assert (∀ c (pop : bool),
            get_tweets rx viewer q st
            = respond_with rx viewer c pop (default 1%Z (q_page q))
                (default 10%Z (q_limit q)) st →
            r = fail 500 "Server error"
            ∨ ∃ ts, status r = 200 ∧ view_docs r = Some ts
                    ∧ StronglySorted newer_first ts
                    ∧ (Z.of_nat (length ts) ≤ default 10 (q_limit q))%Z
                    ∧ ts ⊆ tweets st) as Hcase.
  { intros c pop Hrun. unfold r. rewrite Hrun.
    destruct (respond_with_cases rx viewer c pop _ _ st Hp Hl)
      as [->|(p & vs & Hc & -> & Hvs)]; [by left|right].
    apply Forall2_annotate_docs in Hvs.
    set (pg := page_of _ _ _) in Hvs.
    exists pg. cbn [snd status ok]. split; [done|]. split.
    { unfold view_docs. cbn [body ok]. f_equal.
      change (λ v, doc (tweetObj v)) with (doc ∘ tweetObj).
      rewrite list_fmap_compose, Hvs, <- list_fmap_compose.
      by rewrite list_fmap_id. }
    split; [apply StronglySorted_page_of, StronglySorted_merge_sort; apply _|].
    split.
    - unfold pg, page_of. rewrite length_take. lia.
    - unfold pg. etrans; [apply page_of_subseteq|].
      intros t Ht. rewrite merge_sort_Permutation in Ht.
      by apply list_elem_of_filter in Ht as [_ ?]. }
  pose proof (get_tweets_unfold rx viewer q st) as Hun. cbn zeta in Hun.
  destruct (truthy (q_username q)).
  - destruct (find_username _ st).
    + destruct (type_is q "likes"); right; by eapply Hcase.
    + left. unfold r. by rewrite Hun.
  - destruct (is_home q); right; by eapply Hcase.
Qed.

Lemma feed_sorted_bounded_witness :
  let r := (get_tweets PcreLite.regex_i PageScenario.viewer
              (PageScenario.request 2 10) PageScenario.store).2 in
  r = fail 404 "User not found"
  ∨ r = fail 500 "Server error"
  ∨ ∃ ts, status r = 200 ∧ view_docs r = Some ts
          ∧ StronglySorted newer_first ts
          ∧ (Z.of_nat (length ts) ≤ 10)%Z
          ∧ ts ⊆ tweets PageScenario.store.
Proof.
  apply (feed_sorted_bounded PcreLite.regex_i PageScenario.store
           PageScenario.viewer (PageScenario.request 2 10));
    reflexivity.
Defined.

(** ** The feed: media, replies and author timelines *)

Lemma Forall2_right {A B} (P : A → B → Prop) (Q : B → Prop) l k :
  Forall2 P l k → (∀ x y, x ∈ l → P x y → Q y) → Forall Q k.
Proof.
  induction 1 as [|x y l k Hxy _ IH]; intros HQ; constructor.
  - apply (HQ x y); [apply list_elem_of_here|done].
  - apply IH. intros x' y' Hx'. apply HQ. by apply list_elem_of_further.
Qed.

(** When every matching tweet can be annotated, the reply is the 200 reply
    with the requested page, and each [replyToUser] is read off the
    populated parent. *)
Lemma respond_with_ready rx viewer c (pop : bool) p page limit st :
  compile rx c = Some p →
  (0 < page)%Z → (0 < limit)%Z →
  (∀ t, t ∈ tweets st → p t = true →
     reply_ready (mkTweetDoc t (populate_user select_author st (t_user t))
                    (if pop then populate_replyTo select_username st t
                     else raw_replyTo t))) →
  ∃ vs,
    respond_with rx viewer c pop page limit st = (st, ok (Tweets vs))
    ∧ view_docs (ok (Tweets vs))
      = Some (page_of page limit
                (merge_sort newer_first (filter (λ t, p t) (tweets st))))
    ∧ Forall (λ v,
        (doc (tweetObj v)) ∈ tweets st ∧ p (doc (tweetObj v)) = true
        ∧ replyToUser v
          = match (if pop
                   then populate_replyTo select_username st (doc (tweetObj v))
                   else raw_replyTo (doc (tweetObj v))) with
            | ReplyDoc pr =>
                (λ a, mkReplyToUser (ref_id a) (ref_name a) (ref_username a))
                  <$> parent_user pr
            | _ => None
            end) vs.
Proof.
  intros Hc Hp Hl Hready.
  set (pg := page_of page limit
               (merge_sort newer_first (filter (λ t, p t) (tweets st)))).
  assert (∀ t, t ∈ pg → t ∈ tweets st ∧ p t = true) as Hpg.
  { intros t Ht. apply page_of_subseteq in Ht.
    rewrite merge_sort_Permutation in Ht.
    apply list_elem_of_filter in Ht as [Hpt Ht]. split; [done|].
    by apply Is_true_true. }
  destruct (respond_with_cases rx viewer c pop page limit st Hp Hl)
    as [Hfail|(p' & vs & Hc' & Hrun & Hvs)].
  - exfalso. revert Hfail. unfold respond_with, Tweet_find. run.
    rewrite Hc, skip_limit_page by done. cbn. fold pg.
    match goal with
    | |- context [addUserInteractionInfo rx ?ds viewer st] =>
        destruct (annotate_ready rx viewer ds st) as (vs & -> & _)
    end; [|done].
    apply Forall_fmap, Forall_forall. intros t Ht. cbn.
    destruct (Hpg t Ht). by apply Hready.
  - rewrite Hc in Hc'. injection Hc' as <-. fold pg in Hvs.
    exists vs. split; [done|].
    pose proof (Forall2_annotate_docs _ _ _ _ _ Hvs) as Hdocs. split.
    + unfold view_docs. cbn [body ok]. f_equal.
      change (λ v, doc (tweetObj v)) with (doc ∘ tweetObj).
      rewrite list_fmap_compose, Hdocs, <- list_fmap_compose.
      by rewrite list_fmap_id.
    + apply Forall2_fmap_l in Hvs. eapply Forall2_right; [exact Hvs|].
      intros t v Ht Hv. cbn in Hv.
      apply annotate1_fields in Hv as (Hd & _ & _ & _ & _ & _ & Hr).
      rewrite Hd. cbn. destruct (Hpg t Ht). cbn in Hr. done.
Qed.

(** Outside the home timeline, without a username and a search query, the
    route runs [matchCriteria], which has no pattern. *)
Lemma get_tweets_plain rx st viewer q :
  truthy (q_username q) = false → truthy (q_query q) = false →
  is_home q = false →
  get_tweets rx viewer q st
  = respond_with rx viewer (match_criteria q None) true
      (default 1%Z (q_page q)) (default 10%Z (q_limit q)) st
  ∧ compile rx (match_criteria q None)
    = Some (holds_plain (match_criteria q None)).
Proof.
  intros Hu Hq Hhome. split.
  - rewrite get_tweets_unfold. cbn zeta. by rewrite Hu, Hhome.
  - apply compile_plain. by rewrite c_content_match_criteria, Hq.
Qed.

Lemma get_tweets_author rx st viewer q user :
  truthy (q_username q) = true →
  find_username (default "" (q_username q)) st = Some user →
  truthy (q_query q) = false → type_is q "likes" = false →
  get_tweets rx viewer q st
  = respond_with rx viewer (match_criteria q (Some (u_id user))) true
      (default 1%Z (q_page q)) (default 10%Z (q_limit q)) st
  ∧ compile rx (match_criteria q (Some (u_id user)))
    = Some (holds_plain (match_criteria q (Some (u_id user)))).
Proof.
  intros Hu Hfind Hq Hlikes. split.
  - rewrite get_tweets_unfold. cbn zeta. by rewrite Hu, Hfind, Hlikes.
  - apply compile_plain. by rewrite c_content_match_criteria, Hq.
Qed.

(** X15: the media feed.  A request with type "media" and no username,
    search query or replyToId is answered with the requested page of all
    stored tweets whose image is not the empty string, newest first,
    whoever posted them and whether or not they are replies: the viewer's
    [following] plays no part and no reply filter applies. *)
Theorem media_feed rx (st : Store) (viewer : User) (q : Query) :
  q_type q = Some "media" →
  truthy (q_username q) = false → truthy (q_query q) = false →
  q_replyToId q = None →
  authors_exist st →
  (0 < default 1 (q_page q))%Z → (0 < default 10 (q_limit q))%Z →
  ∃ r, get_tweets rx viewer q st = (st, r)
       ∧ status r = 200
       ∧ view_docs r
         = Some (page_of (default 1%Z (q_page q)) (default 10%Z (q_limit q))
                   (merge_sort newer_first
                      (filter (λ t, t_image t ≠ "") (tweets st)))).
Proof.
  intros Hty Hu Hq Hr Hst Hp Hl.
  assert (type_is q "media" = true) as Hmedia.
  { unfold type_is. rewrite Hty. by apply bool_decide_eq_true_2. }
  assert (type_is q "tweets" = false) as Htweets.
  { unfold type_is. rewrite Hty. by apply bool_decide_eq_false_2. }
  assert (truthy (q_type q) = true) as Htt by (by rewrite Hty).
  destruct (get_tweets_plain rx st viewer q Hu Hq) as [-> Hc].
  { unfold is_home. rewrite Hu, Hq, Hr, Htt, Htweets. done. }
  destruct (respond_with_ready rx viewer _ true _ _ _ st Hc Hp Hl)
    as (vs & -> & Hdocs & _).
  { intros t _ _. by apply populated_ready. }
  exists (ok (Tweets vs)). split; [done|]. split; [done|].
  rewrite Hdocs. do 3 f_equal. apply list_filter_iff. intros t.
  rewrite Is_true_true. unfold match_criteria, holds_plain.
  rewrite Hq, Hmedia, Hr, Htt, Htweets. cbn.
  by rewrite andb_true_r, bool_decide_eq_true.
Qed.

Lemma media_feed_witness :
  ∃ r, get_tweets PcreLite.regex_i MediaScenario.V MediaScenario.request
         MediaScenario.store
       = (MediaScenario.store, r)
       ∧ status r = 200
       ∧ view_docs r = Some [MediaScenario.P3; MediaScenario.P1].
Proof.
  destruct (media_feed PcreLite.regex_i MediaScenario.store MediaScenario.V
              MediaScenario.request) as (r & Hrun & Hok & Hdocs);
    try reflexivity.
  { apply (bool_decide_unpack _). vm_compute. exact I. }
  exists r. split; [exact Hrun|]. split; [exact Hok|].
  rewrite Hdocs. vm_compute. reflexivity.
Defined.

(** X16: the replies to a tweet.  A request with a replyToId and no
    username, search query or type is answered with the requested page of
    the stored tweets whose [replyTo] is that id, newest first, provided the
    authors of stored tweets are stored or the parent is not stored.  When
    the parent is not stored (it was deleted, or never existed) the replies
    are still listed, each with a null [replyToUser]. *)
Theorem replies_feed rx (st : Store) (viewer : User) (q : Query) (pid : oid) :
  q_replyToId q = Some pid →
  truthy (q_username q) = false → truthy (q_query q) = false →
  truthy (q_type q) = false →
  authors_exist st ∨ find_tweet pid st = None →
  (0 < default 1 (q_page q))%Z → (0 < default 10 (q_limit q))%Z →
  ∃ vs, get_tweets rx viewer q st = (st, ok (Tweets vs))
        ∧ view_docs (ok (Tweets vs))
          = Some (page_of (default 1%Z (q_page q)) (default 10%Z (q_limit q))
                    (merge_sort newer_first
                       (filter (λ t, t_replyTo t = Some pid) (tweets st))))
        ∧ (find_tweet pid st = None → Forall (λ v, replyToUser v = None) vs).
Proof.
  intros Hr Hu Hq Hty Hst Hp Hl.
  assert (type_is q "media" = false) as Hmedia.
  { destruct (type_is q "media") eqn:H; [|done].
    apply truthy_type_is in H; [congruence|done]. }
  assert (∀ t, holds_plain (match_criteria q None) t = true
               ↔ t_replyTo t = Some pid) as Hholds.
  { intros t. unfold match_criteria, holds_plain. rewrite Hq, Hmedia, Hr. cbn.
    destruct (t_replyTo t) as [x|]; cbn; [|done].
    rewrite bool_decide_eq_true. split; congruence. }
  destruct (get_tweets_plain rx st viewer q Hu Hq) as [-> Hc].
  { unfold is_home. rewrite Hu, Hq, Hr. by cbn. }
  destruct (respond_with_ready rx viewer _ true _ _ _ st Hc Hp Hl)
    as (vs & -> & Hdocs & Hvs).
  { intros t _ Ht. destruct Hst as [Hst|Hnone]; [by apply populated_ready|].
    apply Hholds in Ht. unfold reply_ready, populate_replyTo. cbn.
    by rewrite Ht, Hnone. }
  exists vs. split; [done|]. split.
  - rewrite Hdocs. do 3 f_equal. apply list_filter_iff. intros t.
    rewrite Is_true_true. apply Hholds.
  - intros Hnone. eapply Forall_impl; [exact Hvs|].
    intros v (_ & Hv & ->). apply Hholds in Hv.
    unfold populate_replyTo. by rewrite Hv, Hnone.
Qed.

Lemma replies_feed_witness :
  ∃ vs, get_tweets PcreLite.regex_i HomeScenario.V
          (mkQuery None None None (Some 10) None None)
          (delete_tweet HomeScenario.C 10 HomeScenario.store).1
        = ((delete_tweet HomeScenario.C 10 HomeScenario.store).1, ok (Tweets vs))
        ∧ view_docs (ok (Tweets vs))
          = Some (page_of 1 10
                    (merge_sort newer_first
                       (filter (λ t, t_replyTo t = Some 10)
                          (tweets (delete_tweet HomeScenario.C 10
                                     HomeScenario.store).1))))
        ∧ (find_tweet 10 (delete_tweet HomeScenario.C 10 HomeScenario.store).1
           = None →
           Forall (λ v, replyToUser v = None) vs).
Proof.
  apply (replies_feed PcreLite.regex_i
           (delete_tweet HomeScenario.C 10 HomeScenario.store).1 HomeScenario.V
           (mkQuery None None None (Some 10) None None) 10);
    try reflexivity.
  right. reflexivity.
Defined.

(** X17: the timeline of an author.  With a username that resolves to a
    stored user and no search query or replyToId, the reply is the
    requested page, newest first, of that user's tweets that are not
    replies when the type is absent or "tweets", and of all of that user's
    tweets, replies included, when the type is "replies". *)
Theorem author_timeline rx (st : Store) (viewer : User) (q : Query) (user : User) :
  truthy (q_username q) = true →
  find_username (default "" (q_username q)) st = Some user →
  truthy (q_query q) = false → q_replyToId q = None →
  authors_exist st →
  (0 < default 1 (q_page q))%Z → (0 < default 10 (q_limit q))%Z →
  (truthy (q_type q) = false ∨ q_type q = Some "tweets" →
     ∃ r, get_tweets rx viewer q st = (st, r)
          ∧ status r = 200
          ∧ view_docs r
            = Some (page_of (default 1%Z (q_page q)) (default 10%Z (q_limit q))
                      (merge_sort newer_first
                         (filter (λ t, t_user t = u_id user ∧ t_replyTo t = None)
                                 (tweets st)))))
  ∧ (q_type q = Some "replies" →
       ∃ r, get_tweets rx viewer q st = (st, r)
            ∧ status r = 200
            ∧ view_docs r
              = Some (page_of (default 1%Z (q_page q)) (default 10%Z (q_limit q))
                        (merge_sort newer_first
                           (filter (λ t, t_user t = u_id user) (tweets st))))).
Proof.
  intros Hu Hfind Hq Hr Hst Hp Hl.
  assert (∀ P `{∀ t, Decision (P t)},
            type_is q "likes" = false →
            (∀ t, holds_plain (match_criteria q (Some (u_id user))) t = true
                  ↔ P t) →
            ∃ r, get_tweets rx viewer q st = (st, r)
                 ∧ status r = 200
                 ∧ view_docs r
                   = Some (page_of (default 1%Z (q_page q))
                             (default 10%Z (q_limit q))
                             (merge_sort newer_first (filter P (tweets st)))))
    as Hgen.
  { intros P HP Hlikes Hholds.
    destruct (get_tweets_author rx st viewer q user Hu Hfind Hq Hlikes)
      as [-> Hc].
    destruct (respond_with_ready rx viewer _ true _ _ _ st Hc Hp Hl)
      as (vs & -> & Hdocs & _).
    { intros t _ _. by apply populated_ready. }
    exists (ok (Tweets vs)). split; [done|]. split; [done|].
    rewrite Hdocs. do 3 f_equal. apply list_filter_iff. intros t.
    rewrite Is_true_true. apply Hholds. }
  split.
  - intros Hty. apply Hgen.
    { unfold type_is. destruct Hty as [Hty| ->].
      - destruct (q_type q) as [s|]; [|by apply bool_decide_eq_false_2].
        apply bool_decide_eq_false_2. intros [= ->]. done.
      - by apply bool_decide_eq_false_2. }
    intros t. unfold match_criteria, holds_plain. rewrite Hq, Hr.
    assert (type_is q "media" = false) as ->.
    { unfold type_is. destruct Hty as [Hty| ->].
      - destruct (q_type q) as [s|]; [|by apply bool_decide_eq_false_2].
        apply bool_decide_eq_false_2. intros [= ->]. done.
      - by apply bool_decide_eq_false_2. }
    assert (negb (truthy (q_type q)) || type_is q "tweets" = true) as ->.
    { unfold type_is. destruct Hty as [->| ->]; [done|].
      rewrite bool_decide_eq_true_2 by done. apply orb_true_r. }
    cbn. rewrite andb_true_r, andb_true_iff, bool_decide_eq_true.
    destruct (t_replyTo t); cbn; intuition congruence.
  - intros Hty. apply Hgen.
    { unfold type_is. rewrite Hty. by apply bool_decide_eq_false_2. }
    assert (truthy (q_type q) = true) as Htt.
    { rewrite Hty. cbn. by apply bool_decide_eq_true_2. }
    intros t. unfold match_criteria, holds_plain. rewrite Hq, Hr, Htt.
    unfold type_is. rewrite Hty.
    rewrite !(bool_decide_eq_false_2 (Some "replies" = Some _)) by done.
    cbn. rewrite !andb_true_r, bool_decide_eq_true. done.
Qed.

Lemma author_timeline_witness :
  ∃ r, get_tweets PcreLite.regex_i HomeScenario.V
         (mkQuery (Some "b") None (Some "replies") None None None)
         HomeScenario.store
       = (HomeScenario.store, r)
       ∧ status r = 200
       ∧ view_docs r
         = Some (page_of 1 10
                   (merge_sort newer_first
                      (filter (λ t, t_user t = u_id HomeScenario.B)
                              (tweets HomeScenario.store)))).
Proof.
  assert (authors_exist HomeScenario.store) as Hst.
  { apply (bool_decide_unpack _). vm_compute. exact I. }
  apply (proj2 (author_timeline PcreLite.regex_i HomeScenario.store HomeScenario.V
                  (mkQuery (Some "b") None (Some "replies") None None None)
                  HomeScenario.B eq_refl eq_refl eq_refl eq_refl
                  Hst eq_refl eq_refl)).
  reflexivity.
Defined.

(** ** A tweet by its id *)

(** X18: [GET /api/tweets/:id].  An id that is not stored gets the 404
    reply.  For a stored tweet, in a store where the authors of tweets are
    stored, the reply carries the tweet with [isLiked], [isRetweeted], the
    two list lengths and the number of stored replies as [commentsCount];
    [replyToUser] is null for a tweet without parent or with a parent that
    is not stored, and otherwise the id, name and username of the parent's
    author.  When the parent is stored and its author is not, the request
    fails with the 500 reply. *)
Theorem tweet_by_id rx (st : Store) (viewer : User) (id : oid) :
  (find_tweet id st = None →
     get_tweet rx viewer id st = (st, inl (fail 404 "Tweet not found")))
  ∧ (∀ t, find_tweet id st = Some t → authors_exist st →
       ∃ v, get_tweet rx viewer id st = (st, inr v)
            ∧ doc (tweetObj v) = t
            ∧ isLiked v = bool_decide (u_id viewer ∈ t_likes t)
            ∧ isRetweeted v = bool_decide (u_id viewer ∈ t_retweets t)
            ∧ likesCount v = length (t_likes t)
            ∧ retweetsCount v = length (t_retweets t)
            ∧ commentsCount v = replies_to id st
            ∧ (t_replyTo t = None → replyToUser v = None)
            ∧ (∀ pid, t_replyTo t = Some pid → find_tweet pid st = None →
                 replyToUser v = None)
            ∧ (∀ pid p a, t_replyTo t = Some pid → find_tweet pid st = Some p →
                 find_user (t_user p) st = Some a →
                 replyToUser v
                 = Some (mkReplyToUser (u_id a) (Some (u_name a))
                           (Some (u_username a)))))
  ∧ (∀ t pid p, find_tweet id st = Some t → t_replyTo t = Some pid →
       find_tweet pid st = Some p → find_user (t_user p) st = None →
       get_tweet rx viewer id st = (st, inl (fail 500 "Server error"))).
Proof.
  split; [|split].
  - intros Hnone. unfold get_tweet, try_catch_with, get_tweet_body. run.
    by rewrite Hnone.
  - intros t Ht Hst. pose proof (find_tweet_id _ _ _ Ht) as Hid.
    unfold get_tweet, try_catch_with, get_tweet_body, Tweet_countDocuments. run.
    rewrite Ht, compile_plain by done. cbn beta iota zeta.
    rewrite count_replies, Hid. cbn.
    pose proof (populated_ready st select_author t None Hst) as Hready.
    unfold reply_ready in Hready. cbn in Hready. unfold populate_replyTo in *.
    destruct (t_replyTo t) as [pid|] eqn:Hr.
    + destruct (find_tweet pid st) as [p|] eqn:Hp.
      * cbn in *. destruct Hready as [a' Ha']. rewrite Ha'.
        eexists. split; [done|]. cbn. repeat split; try done.
        { intros pid' [= <-] Hnone. congruence. }
        intros pid' p' a [= <-] Hp' Ha. unfold populate_user in Ha'.
        replace p' with p in Ha by congruence.
        rewrite Ha in Ha'. by injection Ha' as <-.
      * eexists. split; [done|]. cbn. repeat split; try done.
        intros pid' p' a [= <-] Hp' Ha. congruence.
    + eexists. split; [done|]. cbn. repeat split; try done.
  - intros t pid p Ht Hr Hp Ha.
    unfold get_tweet, try_catch_with, get_tweet_body, Tweet_countDocuments. run.
    rewrite Ht, compile_plain by done. cbn. unfold populate_replyTo.
    rewrite Hr, Hp. cbn. unfold populate_user. by rewrite Ha.
Qed.

Lemma tweet_by_id_witness :
  ∃ v, get_tweet PcreLite.regex_i HomeScenario.V 12 HomeScenario.store
       = (HomeScenario.store, inr v)
       ∧ doc (tweetObj v) = HomeScenario.T2
       ∧ isLiked v = bool_decide (u_id HomeScenario.V ∈ t_likes HomeScenario.T2)
       ∧ isRetweeted v
         = bool_decide (u_id HomeScenario.V ∈ t_retweets HomeScenario.T2)
       ∧ likesCount v = length (t_likes HomeScenario.T2)
       ∧ retweetsCount v = length (t_retweets HomeScenario.T2)
       ∧ commentsCount v = replies_to 12 HomeScenario.store
       ∧ (t_replyTo HomeScenario.T2 = None → replyToUser v = None)
       ∧ (∀ pid, t_replyTo HomeScenario.T2 = Some pid →
            find_tweet pid HomeScenario.store = None → replyToUser v = None)
       ∧ (∀ pid p a, t_replyTo HomeScenario.T2 = Some pid →
            find_tweet pid HomeScenario.store = Some p →
            find_user (t_user p) HomeScenario.store = Some a →
            replyToUser v
            = Some (mkReplyToUser (u_id a) (Some (u_name a))
                      (Some (u_username a)))).
Proof.
  apply (proj1 (proj2 (tweet_by_id PcreLite.regex_i HomeScenario.store
                         HomeScenario.V 12)) HomeScenario.T2).
  - reflexivity.
  - apply (bool_decide_unpack _). vm_compute. exact I.
Defined.

(** ** Invariants over all writing routes *)

Lemma authors_exist_update_user id up st :
  authors_exist st → authors_exist (update_user id up st).
Proof.
  unfold authors_exist. cbn [tweets update_user]. intros Hst.
  eapply Forall_impl; [exact Hst|].
  intros t Ht. cbn beta in *. rewrite find_user_update_user.
  by apply fmap_is_Some.
Qed.

Lemma authors_exist_save_tweet t t' st :
  find_tweet (t_id t') st = Some t → t_user t' = t_user t →
  authors_exist st → authors_exist (save_tweet t' st).
Proof.
  intros Ht Hu Hst. unfold authors_exist in *. rewrite Forall_forall in *.
  intros d Hd. rewrite find_user_save_tweet.
  unfold save_tweet in Hd. cbn [tweets] in Hd.
  apply list_elem_of_fmap in Hd as (d0 & -> & Hd0).
  case_bool_decide; [|by apply Hst].
  rewrite Hu. apply Hst. unfold find_tweet in Ht. apply find_some in Ht as [Ht _].
  by apply list_elem_of_In.
Qed.

Lemma authors_exist_remove_tweet id st :
  authors_exist st → authors_exist (remove_tweet id st).
Proof.
  unfold authors_exist. rewrite !Forall_forall. intros Hst d Hd.
  unfold remove_tweet in Hd. cbn [tweets] in Hd.
  apply list_elem_of_filter in Hd as [_ Hd]. by apply Hst.
Qed.

Lemma authors_exist_insert_tweet t st :
  is_Some (find_user (t_user t) st) →
  authors_exist st → authors_exist (insert_tweet t st).
Proof.
  intros Hu Hst. unfold authors_exist in *. rewrite Forall_forall in *.
  intros d Hd. unfold insert_tweet in Hd. cbn [tweets] in Hd.
  apply elem_of_app in Hd as [Hd|Hd%list_elem_of_singleton].
  - by apply Hst.
  - by subst d.
Qed.

Lemma contents_ok_save_tweet t t' st :
  find_tweet (t_id t') st = Some t → t_content t' = t_content t →
  contents_ok st → contents_ok (save_tweet t' st).
Proof.
  intros Ht Hc Hst. unfold contents_ok in *. rewrite Forall_forall in *.
  intros d Hd. unfold save_tweet in Hd. cbn [tweets] in Hd.
  apply list_elem_of_fmap in Hd as (d0 & -> & Hd0).
  case_bool_decide; [|by apply Hst].
  rewrite Hc. apply Hst. unfold find_tweet in Ht. apply find_some in Ht as [Ht _].
  by apply list_elem_of_In.
Qed.

(** ** Posting a tweet *)

Lemma length_string_of_list_ascii (l : list ascii) :
  String.length (String.string_of_list_ascii l) = length l.
Proof. induction l as [|c l IH]; [done|]. cbn. by rewrite IH. Qed.

Lemma length_list_ascii_of_string (s : string) :
  length (String.list_ascii_of_string s) = String.length s.
Proof. induction s as [|c s IH]; [done|]. cbn. by rewrite IH. Qed.

Lemma skip_spaces_length (l : list ascii) : length (skip_spaces l) ≤ length l.
Proof.
  induction l as [|c l IH]; [done|]. cbn. destruct (is_space c); cbn; lia.
Qed.

Lemma trim_length (s : string) : String.length (trim s) ≤ String.length s.
Proof.
  unfold trim. rewrite length_string_of_list_ascii, length_reverse.
  etrans; [apply skip_spaces_length|]. rewrite length_reverse.
  etrans; [apply skip_spaces_length|]. by rewrite length_list_ascii_of_string.
Qed.

Lemma find_tweet_insert_tweet id t st :
  find_tweet id (insert_tweet t st)
  = match find_tweet id st with
    | Some x => Some x
    | None => if bool_decide (t_id t = id) then Some t else None
    end.
Proof.
  unfold find_tweet, insert_tweet. cbn [tweets].
  induction (tweets st) as [|x l IH]; [done|]. cbn [app find].
  destruct (bool_decide (t_id x = id)); [done|apply IH].
Qed.

(** The validator passes when the request carries a content somewhere and
    every content it carries is acceptable. *)
Lemma content_instances_elem b s :
  s ∈ content_instances b
  ↔ (n_content b = Some s ∨ s ∈ n_content_elsewhere b)
    ∨ (n_content b = None ∧ n_content_elsewhere b = [] ∧ s = "").
Proof.
  unfold content_instances. cbn zeta.
  destruct (n_content b) as [c|], (n_content_elsewhere b) as [|e l]; cbn;
    rewrite ?bool_decide_eq_true_2, ?bool_decide_eq_false_2 by done;
    rewrite ?elem_of_cons, ?elem_of_nil, ?list_elem_of_singleton;
    naive_solver.
Qed.

Lemma errors_nil (l : list string) :
  (λ _ : string, "Content is required")
    <$> filter (λ s, valid_content s = false) l = []
  ↔ Forall (λ s, valid_content s = true) l.
Proof.
  induction l as [|x l IH]; [by split; [constructor|]|].
  destruct (valid_content x) eqn:Hx.
  - rewrite filter_cons_False by (rewrite Hx; done).
    rewrite IH, Forall_cons. naive_solver.
  - rewrite filter_cons_True by done. rewrite Forall_cons.
    split; [done|]. intros [H _]. congruence.
Qed.

Lemma content_errors_nil b :
  content_errors b = []
  ↔ Forall (λ s, valid_content s = true) (content_instances b).
Proof. apply errors_nil. Qed.

Lemma valid_content_spec s :
  valid_content s = true ↔ s ≠ "" ∧ String.length s ≤ 280.
Proof.
  unfold valid_content.
  rewrite andb_true_iff, negb_true_iff, bool_decide_eq_false, bool_decide_eq_true.
  done.
Qed.

Lemma content_errors_body b s :
  content_errors b = [] → n_content b = Some s → valid_content s = true.
Proof.
  rewrite content_errors_nil, Forall_forall. intros H Hs. apply H.
  apply content_instances_elem. by left; left.
Qed.

Lemma trim_body_length b :
  content_errors b = [] → String.length (trim (default "" (n_content b))) ≤ 280.
Proof.
  intros H. destruct (n_content b) as [s|] eqn:Hs; [|cbn; lia].
  etrans; [apply trim_length|]. cbn.
  by apply (valid_content_spec s), (content_errors_body b).
Qed.

(** The tweet that [POST /api/tweets] builds from a body. *)
Lemma create_tweet_eq viewer b new_id now st :
  let t :=
    mkTweet new_id (trim (default "" (n_content b))) (u_id viewer)
            (if truthy (n_image b) then default "" (n_image b) else "")
            [] [] None (n_replyToId b) false now in
  create_tweet viewer b new_id now st
  = if negb (bool_decide (content_errors b = []))
    then (st, inr (ValidationErrors (content_errors b)))
    else if match n_replyToId b with
            | Some pid => bool_decide (find_tweet pid st = None)
            | None => false
            end
    then (st, inl (fail 404 "Tweet to reply to not found"))
    else if bool_decide (t_content t = "")
    then (st, inl (fail 500 "Server error"))
    else if bool_decide (is_Some (find_tweet new_id st))
    then (st, inl (fail 500 "Server error"))
    else (insert_tweet t st,
          inr (Created
                 (mkTweetDoc t
                    (populate_user select_author (insert_tweet t st) (u_id viewer))
                    (populate_replyTo select_username (insert_tweet t st) t)))).
Proof.
  cbn zeta. unfold create_tweet, try_catch_with, create_tweet_body. cbn zeta.
  case_bool_decide as Hvalid; [|done]. cbn [negb].
  pose proof (trim_body_length b Hvalid) as Hlen.
  unfold Tweet_save_new. run.
  destruct (n_replyToId b) as [pid|].
  - destruct (find_tweet pid st) as [p|] eqn:Hp.
    + rewrite (bool_decide_eq_false_2 (Some p = None)) by done.
      unfold set_t_replyTo.
      cbn [t_id t_content t_user t_image t_likes t_retweets t_retweetData
           t_replyTo t_pinned t_createdAt].
      case_bool_decide; [done|].
      rewrite (bool_decide_eq_true_2 (_ ≤ 280)) by done. cbn [negb].
      by case_bool_decide.
    + by rewrite bool_decide_eq_true_2 by done.
  - cbn [t_id t_content t_user t_image t_likes t_retweets t_retweetData
         t_replyTo t_pinned t_createdAt].
    case_bool_decide; [done|].
    rewrite (bool_decide_eq_true_2 (_ ≤ 280)) by done. cbn [negb].
    by case_bool_decide.
Qed.

(** X19: what [POST /api/tweets] refuses.  The validator passes exactly
    when the request carries a content somewhere, in its body or outside
    it, and every content it carries is non-empty and at most 280
    characters long; otherwise the reply is the 400 reply, with one error
    "Content is required" for each value that fails.  When the validator
    passes: a replyToId that is not stored gets the 404 reply "Tweet to
    reply to not found"; otherwise a body without content (the validator
    was satisfied by a content outside the body) and a body content made
    of white space only, which the schema trims to the empty string, are
    rejected when the document is saved, which gives the 500 reply.  In all
    these cases nothing is stored. *)
Theorem create_tweet_refusals (st : Store) (viewer : User) (b : NewTweet)
  (new_id : oid) (now : nat) :
  (content_errors b = []
   ↔ (is_Some (n_content b) ∨ n_content_elsewhere b ≠ [])
     ∧ (∀ s, n_content b = Some s ∨ s ∈ n_content_elsewhere b →
          s ≠ "" ∧ String.length s ≤ 280))
  ∧ (content_errors b ≠ [] →
       create_tweet viewer b new_id now st
       = (st, inr (ValidationErrors (content_errors b)))
       ∧ Forall (λ e, e = "Content is required") (content_errors b))
  ∧ (∀ pid, content_errors b = [] →
       n_replyToId b = Some pid → find_tweet pid st = None →
       create_tweet viewer b new_id now st
       = (st, inl (fail 404 "Tweet to reply to not found")))
  ∧ (content_errors b = [] →
     (∀ pid, n_replyToId b = Some pid → is_Some (find_tweet pid st)) →
     n_content b = None ∨ (∃ s, n_content b = Some s ∧ trim s = "") →
     create_tweet viewer b new_id now st
     = (st, inl (fail 500 "Server error"))).
Proof.
  pose proof (create_tweet_eq viewer b new_id now st) as Heq. cbn zeta in Heq.
  split; [|split; [|split]].
  - rewrite content_errors_nil, Forall_forall. split.
    + intros H. split.
      * destruct (n_content b) as [c|] eqn:Hc; [left; by eexists|].
        destruct (n_content_elsewhere b) as [|e l] eqn:He; [|by right].
        assert (valid_content "" = true) as Hempty; [|done].
        apply H, content_instances_elem. by right.
      * intros s Hs. apply valid_content_spec, H, content_instances_elem.
        by left.
    + intros [Hsome Hall] s [Hs|(Hc & He & _)]%content_instances_elem.
      * by apply valid_content_spec, Hall.
      * destruct Hsome as [[c Hsome]|Hsome]; congruence.
  - intros Hv. rewrite Heq, bool_decide_eq_false_2 by done. split; [done|].
    unfold content_errors. apply Forall_fmap, Forall_forall. done.
  - intros pid Hv Hr Hp. rewrite Heq, Hr, bool_decide_eq_true_2 by done. cbn.
    by rewrite bool_decide_eq_true_2 by done.
  - intros Hv Hr Hblank.
    assert (trim (default "" (n_content b)) = "") as Hb.
    { destruct Hblank as [->|(s & -> & Hs)]; [reflexivity|exact Hs]. }
    rewrite Heq, bool_decide_eq_true_2 by done. cbn [negb t_content].
    destruct (n_replyToId b) as [pid|].
    + destruct (Hr pid eq_refl) as [p Hp].
      rewrite bool_decide_eq_false_2 by congruence.
      by rewrite bool_decide_eq_true_2 by done.
    + by rewrite bool_decide_eq_true_2 by done.
Qed.

Lemma create_tweet_refusals_witness :
  create_tweet HomeScenario.V
    (mkNewTweet (Some (String (ascii_of_nat 160) " ")) None None []) 50 9
    HomeScenario.store
  = (HomeScenario.store, inl (fail 500 "Server error"))
  ∧ create_tweet HomeScenario.V (mkNewTweet None None None ["in the query"]) 50 9
      HomeScenario.store
    = (HomeScenario.store, inl (fail 500 "Server error"))
  ∧ create_tweet HomeScenario.V (mkNewTweet (Some "hi") None None [""]) 50 9
      HomeScenario.store
    = (HomeScenario.store, inr (ValidationErrors ["Content is required"])).
Proof.
  split; [|split].
  - apply (proj2 (proj2 (proj2
             (create_tweet_refusals HomeScenario.store HomeScenario.V
                (mkNewTweet (Some (String (ascii_of_nat 160) " ")) None None [])
                50 9)))).
    + reflexivity.
    + intros pid H. discriminate H.
    + right. eexists. split; reflexivity.
  - apply (proj2 (proj2 (proj2
             (create_tweet_refusals HomeScenario.store HomeScenario.V
                (mkNewTweet None None None ["in the query"]) 50 9)))).
    + reflexivity.
    + intros pid H. discriminate H.
    + by left.
  - apply (proj1 (proj2
             (create_tweet_refusals HomeScenario.store HomeScenario.V
                (mkNewTweet (Some "hi") None None [""]) 50 9))).
    discriminate.
Defined.

(** X20: what [POST /api/tweets] stores.  If the body's content and every
    content the request carries outside the body are non-empty and at most
    280 characters long, the body's content is not blank, the replyToId,
    when given, is stored and the new id is not yet used, the reply is the
    201 reply and the new document is found under its id with the body's
    content trimmed, the viewer as author, the given parent, the given
    date, no likes and no retweets, unpinned; every tweet stored before is
    found as before, the user collection is unchanged and exactly one write
    is issued. *)
Theorem create_tweet_stores (st : Store) (viewer : User) (b : NewTweet)
  (s : string) (new_id : oid) (now : nat) :
  n_content b = Some s →
  valid_content s = true →
  Forall (λ e, valid_content e = true) (n_content_elsewhere b) →
  trim s ≠ "" →
  (∀ pid, n_replyToId b = Some pid → is_Some (find_tweet pid st)) →
  find_tweet new_id st = None →
  let st' := (create_tweet viewer b new_id now st).1 in
  create_status (create_tweet viewer b new_id now st).2 = 201
  ∧ (∃ t, find_tweet new_id st' = Some t
          ∧ t_content t = trim s
          ∧ t_user t = u_id viewer
          ∧ t_replyTo t = n_replyToId b
          ∧ t_createdAt t = now
          ∧ t_likes t = [] ∧ t_retweets t = [] ∧ t_pinned t = false
          ∧ t_retweetData t = None)
  ∧ (∀ id, id ≠ new_id → find_tweet id st' = find_tweet id st)
  ∧ users st' = users st
  ∧ journal st' = (journal st ++ [WTweetSave new_id])%list.
Proof.
  intros Hs Hv Hall Hblank Hr Hfresh.
  assert (content_errors b = []) as Hok.
  { apply content_errors_nil, Forall_forall.
    intros x [[Hx|Hx]|(Hx & _)]%content_instances_elem; [congruence| |congruence].
    rewrite Forall_forall in Hall. by apply Hall. }
  pose proof (create_tweet_eq viewer b new_id now st) as Heq. cbn zeta in Heq.
  rewrite Heq, (bool_decide_eq_true_2 _ Hok). clear Heq.
  rewrite Hs. cbn [negb t_content default from_option id].
  assert (match n_replyToId b with
          | Some pid => bool_decide (find_tweet pid st = None)
          | None => false
          end = false) as ->.
  { destruct (n_replyToId b) as [pid|]; [|done].
    destruct (Hr pid eq_refl) as [p Hp]. by apply bool_decide_eq_false_2; congruence. }
  rewrite bool_decide_eq_false_2 by done.
  rewrite bool_decide_eq_false_2 by (rewrite Hfresh; by intros [? ?]).
  cbn zeta. cbn [fst snd create_status]. split; [done|].
  split; [|split; [|split]]; [| |done..].
  - eexists.
    split; [rewrite find_tweet_insert_tweet, Hfresh; cbn;
            by rewrite bool_decide_eq_true_2|].
    done.
  - intros id Hne. rewrite find_tweet_insert_tweet.
    destruct (find_tweet id st); [done|].
    cbn. by rewrite bool_decide_eq_false_2 by done.
Qed.

Lemma create_tweet_stores_witness :
  let st' := (create_tweet HomeScenario.V (mkNewTweet (Some " hi ") None (Some 10) [])
                50 9 HomeScenario.store).1 in
  create_status (create_tweet HomeScenario.V
                   (mkNewTweet (Some " hi ") None (Some 10) []) 50 9
                   HomeScenario.store).2 = 201
  ∧ (∃ t, find_tweet 50 st' = Some t
          ∧ t_content t = trim " hi "
          ∧ t_user t = u_id HomeScenario.V
          ∧ t_replyTo t = Some 10
          ∧ t_createdAt t = 9
          ∧ t_likes t = [] ∧ t_retweets t = [] ∧ t_pinned t = false
          ∧ t_retweetData t = None)
  ∧ (∀ id, id ≠ 50 → find_tweet id st' = find_tweet id HomeScenario.store)
  ∧ users st' = users HomeScenario.store
  ∧ journal st' = (journal HomeScenario.store ++ [WTweetSave 50])%list.
Proof.
  apply (create_tweet_stores HomeScenario.store HomeScenario.V
           (mkNewTweet (Some " hi ") None (Some 10) []) " hi " 50 9).
  - reflexivity.
  - reflexivity.
  - constructor.
  - discriminate.
  - intros pid [= <-]. by eexists.
  - reflexivity.
Defined.

Lemma create_tweet_created viewer b new_id now st :
  create_status (create_tweet viewer b new_id now st).2 = 201 →
  ∃ t, (create_tweet viewer b new_id now st).1 = insert_tweet t st
       ∧ t_id t = new_id ∧ t_user t = u_id viewer
       ∧ t_replyTo t = n_replyToId b ∧ t_createdAt t = now
       ∧ t_content t ≠ "" ∧ String.length (t_content t) ≤ 280.
Proof.
  pose proof (create_tweet_eq viewer b new_id now st) as Heq. cbn zeta in Heq.
  rewrite Heq. clear Heq.
  case_bool_decide as Hv; [|done]. cbn [negb].
  destruct (match n_replyToId b with Some _ => _ | None => _ end); [done|].
  case_bool_decide as Hblank; [done|]. case_bool_decide; [done|].
  intros _. eexists. split; [done|]. repeat split; try done.
  cbn. by apply trim_body_length.
Qed.

Lemma create_tweet_not_created viewer b new_id now st :
  create_status (create_tweet viewer b new_id now st).2 ≠ 201 →
  (create_tweet viewer b new_id now st).1 = st.
Proof.
  pose proof (create_tweet_eq viewer b new_id now st) as Heq. cbn zeta in Heq.
  rewrite Heq. clear Heq.
  case_bool_decide; [|done]. cbn [negb].
  destruct (match n_replyToId b with Some _ => _ | None => _ end); [done|].
  case_bool_decide; [done|]. by case_bool_decide.
Qed.

(** X21: a posted reply is counted at once.  After a 201 reply, the number
    of stored replies to the parent named in the body is one more than
    before and the number of replies to every other tweet is unchanged; a
    tweet posted without replyToId changes no such count.  This is the
    number that annotation reports as [commentsCount]. *)
Theorem posted_reply_counted (st : Store) (viewer : User) (b : NewTweet)
  (new_id : oid) (now : nat) :
  create_status (create_tweet viewer b new_id now st).2 = 201 →
  ∀ pid,
    replies_to pid (create_tweet viewer b new_id now st).1
    = replies_to pid st
      + (if bool_decide (n_replyToId b = Some pid) then 1 else 0).
Proof.
  intros Hok pid.
  destruct (create_tweet_created _ _ _ _ _ Hok) as (t & -> & _ & _ & Hr & _).
  unfold replies_to, insert_tweet. cbn [tweets].
  rewrite filter_app, length_app. f_equal. rewrite <- Hr.
  case_bool_decide.
  - by rewrite filter_cons_True.
  - by rewrite filter_cons_False.
Qed.

Lemma posted_reply_counted_witness :
  replies_to 10
    (create_tweet HomeScenario.V (mkNewTweet (Some " hi ") None (Some 10) []) 50 9
       HomeScenario.store).1
  = replies_to 10 HomeScenario.store
    + (if bool_decide (Some 10 = Some 10) then 1 else 0).
Proof.
  apply (posted_reply_counted HomeScenario.store HomeScenario.V
           (mkNewTweet (Some " hi ") None (Some 10) []) 50 9).
  reflexivity.
Defined.

Lemma contents_ok_same_tweets st st' :
  tweets st' = tweets st → contents_ok st → contents_ok st'.
Proof. unfold contents_ok. by intros ->. Qed.

(** X22: two invariants of the tweet collection hold across every writing
    route.  If every stored tweet has a stored author, that is still so
    after a like, unlike, retweet, unretweet, follow, unfollow or delete,
    and after a post by a viewer who is stored.  If every stored content
    has 1 to 280 characters, that is still so after each of these routes,
    the post included. *)
Theorem writes_keep_invariants (st : Store) (viewer : User) :
  (∀ id act,
     act ∈ [like; unlike; retweet; unretweet; delete_tweet] →
     (authors_exist st → authors_exist (act viewer id st).1)
     ∧ (contents_ok st → contents_ok (act viewer id st).1))
  ∧ (∀ param act,
       act ∈ [follow; unfollow] →
       (authors_exist st → authors_exist (act viewer param st).1)
       ∧ (contents_ok st → contents_ok (act viewer param st).1))
  ∧ (∀ b new_id now,
       (authors_exist st → is_Some (find_user (u_id viewer) st) →
          authors_exist (create_tweet viewer b new_id now st).1)
       ∧ (contents_ok st →
            contents_ok (create_tweet viewer b new_id now st).1)).
Proof.
  split; [|split].
  - intros id act Hact.
    assert (∀ t t' up,
              find_tweet id st = Some t → t_id t' = id →
              t_user t' = t_user t → t_content t' = t_content t →
              (authors_exist st →
                 authors_exist (update_user (u_id viewer) up (save_tweet t' st)))
              ∧ (contents_ok st →
                   contents_ok (update_user (u_id viewer) up (save_tweet t' st))))
      as Hstep.
    { intros t t' up Ht Hid Hu Hc. rewrite <- Hid in Ht. split; intros Hst.
      - by apply authors_exist_update_user, (authors_exist_save_tweet t).
      - apply (contents_ok_same_tweets (save_tweet t' st)); [done|].
        by apply (contents_ok_save_tweet t). }
    repeat (apply elem_of_cons in Hact as [->|Hact]);
      [| | | | |by apply elem_of_nil in Hact].
    + rewrite like_store. destruct (find_tweet id st) as [t|] eqn:Ht; [|done].
      case_bool_decide; [done|].
      by apply (Hstep t); [|apply (find_tweet_id _ _ _ Ht)|..].
    + rewrite unlike_store. destruct (find_tweet id st) as [t|] eqn:Ht; [|done].
      case_bool_decide; [|done].
      by apply (Hstep t); [|apply (find_tweet_id _ _ _ Ht)|..].
    + rewrite retweet_store. destruct (find_tweet id st) as [t|] eqn:Ht; [|done].
      case_bool_decide; [done|].
      by apply (Hstep t); [|apply (find_tweet_id _ _ _ Ht)|..].
    + rewrite unretweet_store. destruct (find_tweet id st) as [t|] eqn:Ht; [|done].
      case_bool_decide; [|done].
      by apply (Hstep t); [|apply (find_tweet_id _ _ _ Ht)|..].
    + rewrite delete_tweet_store. destruct (find_tweet id st) as [t|]; [|done].
      case_bool_decide; [done|]. split; intros Hst.
      * by apply authors_exist_remove_tweet.
      * unfold contents_ok in *. rewrite Forall_forall in *. intros d Hd.
        unfold remove_tweet in Hd. cbn [tweets] in Hd.
        apply list_elem_of_filter in Hd as [_ Hd]. by apply Hst.
  - intros param act Hact.
    repeat (apply elem_of_cons in Hact as [->|Hact]);
      [| |by apply elem_of_nil in Hact].
    + rewrite follow_store. case_bool_decide; [done|].
      destruct (cast_oid param) as [id|]; [|done].
      destruct (find_user id st); [|done]. case_bool_decide; [done|].
      split; intros Hst.
      * by do 2 apply authors_exist_update_user.
      * by apply (contents_ok_same_tweets st).
    + rewrite unfollow_store. case_bool_decide; [done|].
      destruct (cast_oid param) as [id|]; [|done].
      destruct (find_user id st); [|done]. case_bool_decide; [|done].
      split; intros Hst.
      * by do 2 apply authors_exist_update_user.
      * by apply (contents_ok_same_tweets st).
  - intros b new_id now.
    destruct (decide (create_status (create_tweet viewer b new_id now st).2 = 201))
      as [Hok|Hno].
    + destruct (create_tweet_created _ _ _ _ _ Hok)
        as (t & -> & _ & Hu & _ & _ & Hne & Hlen).
      split.
      * intros Hst Hv. apply authors_exist_insert_tweet; [|done]. by rewrite Hu.
      * intros Hst. unfold contents_ok in *. rewrite Forall_forall in *.
        intros d Hd. unfold insert_tweet in Hd. cbn [tweets] in Hd.
        apply elem_of_app in Hd as [Hd|Hd%list_elem_of_singleton];
          [by apply Hst|].
        subst d. split; [|done]. destruct (t_content t); [done|cbn; lia].
    + rewrite (create_tweet_not_created _ _ _ _ _ Hno). done.
Qed.

Lemma writes_keep_invariants_witness :
  authors_exist
    (create_tweet HomeScenario.V (mkNewTweet (Some " hi ") None (Some 10) []) 50 9
       HomeScenario.store).1.
Proof.
  apply (proj2 (proj2 (writes_keep_invariants HomeScenario.store HomeScenario.V))
           (mkNewTweet (Some " hi ") None (Some 10) []) 50 9).
  - apply (bool_decide_unpack _). vm_compute. exact I.
  - by eexists.
Defined.

(** X23: a tweet just posted heads its author's home timeline.  After a
    201 reply to a post without replyToId whose date is later than that of
    every tweet stored before, the first page of the poster's home
    timeline starts with the new tweet. *)
Theorem posted_tweet_on_top rx (st : Store) (viewer : User) (b : NewTweet)
  (new_id : oid) (now : nat) (q : Query) :
  create_status (create_tweet viewer b new_id now st).2 = 201 →
  n_replyToId b = None →
  Forall (λ t, t_createdAt t < now) (tweets st) →
  truthy (q_username q) = false → truthy (q_query q) = false →
  q_replyToId q = None →
  truthy (q_type q) = false ∨ q_type q = Some "tweets" →
  (default 1 (q_page q) = 1)%Z → (0 < default 10 (q_limit q))%Z →
  let st' := (create_tweet viewer b new_id now st).1 in
  ∃ r t ts,
    get_tweets rx viewer q st' = (st', r)
    ∧ status r = 200
    ∧ view_docs r = Some (t :: ts)
    ∧ t_id t = new_id ∧ t_createdAt t = now.
Proof.
  intros Hok Hb Hold Hu Hq Hr Hty Hpage Hl st'. subst st'.
  destruct (create_tweet_created _ _ _ _ _ Hok)
    as (t & -> & Hid & Hau & Hrt & Hnow & _).
  rewrite Hb in Hrt.
  rewrite get_tweets_unfold. cbn zeta. rewrite Hu, is_home_true, Hpage by done.
  destruct (respond_with_ready rx viewer (home_criteria viewer) false
              (holds_plain (home_criteria viewer)) 1
              (default 10%Z (q_limit q)) (insert_tweet t st))
    as (vs & -> & Hdocs & _); [done..| |].
  { intros d _ Hd. apply raw_ready. by apply holds_home in Hd as [_ ?]. }
  set (L := merge_sort newer_first _) in Hdocs.
  assert (t ∈ L) as HtL.
  { unfold L. rewrite merge_sort_Permutation. apply list_elem_of_filter.
    split.
    - apply Is_true_true, holds_home. split; [by left|done].
    - cbn. apply elem_of_app. right. apply list_elem_of_here. }
  assert (StronglySorted newer_first L) as HL
    by (apply StronglySorted_merge_sort; apply _).
  assert (∀ x, x ∈ L → x = t ∨ t_createdAt x < now) as Hall.
  { intros x Hx. unfold L in Hx. rewrite merge_sort_Permutation in Hx.
    apply list_elem_of_filter in Hx as [_ Hx]. cbn in Hx.
    apply elem_of_app in Hx as [Hx|Hx%list_elem_of_singleton]; [right|by left].
    rewrite Forall_forall in Hold. by apply Hold. }
  destruct L as [|x L'] eqn:HLeq; [by apply elem_of_nil in HtL|].
  assert (x = t) as ->.
  { destruct (Hall x (list_elem_of_here _ _)) as [->|Hx]; [done|].
    apply elem_of_cons in HtL as [->|HtL]; [done|].
    apply StronglySorted_inv in HL as [_ HL]. rewrite Forall_forall in HL.
    specialize (HL t HtL). unfold newer_first in HL. lia. }
  destruct (Z.to_nat (default 10%Z (q_limit q))) as [|n] eqn:Hn; [lia|].
  exists (ok (Tweets vs)), t, (take n L').
  split; [done|]. split; [done|]. split; [|done].
  rewrite Hdocs. unfold page_of. cbn [Z.sub Z.mul Z.to_nat drop].
  by rewrite Hn.
Qed.

Lemma posted_tweet_on_top_witness :
  let st' := (create_tweet HomeScenario.V (mkNewTweet (Some "new") None None [])
                50 9 HomeScenario.store).1 in
  ∃ r t ts,
    get_tweets PcreLite.regex_i HomeScenario.V no_query st' = (st', r)
    ∧ status r = 200
    ∧ view_docs r = Some (t :: ts)
    ∧ t_id t = 50 ∧ t_createdAt t = 9.
Proof.
  apply (posted_tweet_on_top PcreLite.regex_i HomeScenario.store HomeScenario.V
           (mkNewTweet (Some "new") None None []) 50 9 no_query);
    try reflexivity.
  - apply (bool_decide_unpack _). vm_compute. exact I.
  - left. reflexivity.
Defined.

(** ** Profiles and suggestions *)

Lemma find_fmap_pred {A} (P : A → bool) (f : A → A) (l : list A) :
  (∀ x, P (f x) = P x) → find P (f <$> l) = f <$> find P l.
Proof.
  intros HP. induction l as [|x l IH]; [done|].
  cbn [fmap list_fmap find]. rewrite HP. by destruct (P x).
Qed.

Lemma u_username_apply_update up u :
  u_username (apply_update up u) = u_username u.
Proof. by destruct up as [[] ?|[] ?]. Qed.

Lemma find_username_update_user name id up st :
  find_username name (update_user id up st)
  = (λ u, if bool_decide (u_id u = id) then apply_update up u else u)
      <$> find_username name st.
Proof.
  unfold find_username, update_user. cbn [users].
  apply find_fmap_pred. intros u.
  destruct (bool_decide (u_id u = id)); [|done].
  by rewrite u_username_apply_update.
Qed.

(** X24: the profile shows a follow at once.  Let the viewer be stored,
    and let the target, another stored user who is found under its
    username, not be in the viewer's [following]; the follow names it by
    any text that denotes its id.  Before the follow the
    target's profile says [isFollowing = false]; after it, for the viewer
    as stored then, the profile says [isFollowing = true], one follower
    more, and the same numbers of followed users and of tweets.  An unknown
    username gets the 404 reply. *)
Theorem profile_after_follow (st : Store) (viewer v : User) :
  (∀ name, find_username name st = None →
     get_profile viewer name st = (st, inl (fail 404 "User not found")))
  ∧ (∀ param, cast_oid param = Some (u_id v) →
     find_user (u_id viewer) st = Some viewer →
     u_id v ≠ u_id viewer → find_user (u_id v) st = Some v →
     find_username (u_username v) st = Some v →
     u_id v ∉ u_following viewer →
     let st1 := (follow viewer param st).1 in
     ∃ viewer1 p0 p1,
       find_user (u_id viewer) st1 = Some viewer1
       ∧ get_profile viewer (u_username v) st = (st, inr p0)
       ∧ get_profile viewer1 (u_username v) st1 = (st1, inr p1)
       ∧ pv_isFollowing p0 = false ∧ pv_isFollowing p1 = true
       ∧ pv_followersCount p1 = S (pv_followersCount p0)
       ∧ pv_followingCount p1 = pv_followingCount p0
       ∧ pv_tweetsCount p1 = pv_tweetsCount p0).
Proof.
  split.
  - intros name Hnone. unfold get_profile, try_catch_with, get_profile_body.
    run. by rewrite Hnone.
  - intros param Hid Hu Hne Hv Hname Hfresh st1. subst st1.
    rewrite (follow_fresh _ _ _ _ _ Hid (cast_oid_ne _ _ _ Hid Hne) Hv)
      by (intros Hin; by apply Hfresh, (cast_oid_elem_of param)).
    cbn [fst].
    set (st1 := update_user _ _ _).
    assert (find_user (u_id viewer) st1
            = Some (apply_update (push following (u_id v)) viewer)) as Hu1.
    { unfold st1. rewrite !find_user_update_user, Hu. cbn.
      rewrite (bool_decide_eq_true_2 (u_id viewer = u_id viewer)) by done.
      by rewrite (bool_decide_eq_false_2 (u_id viewer = u_id v)) by done. }
    assert (find_username (u_username v) st1
            = Some (apply_update (push followers (u_id viewer)) v)) as Hname1.
    { unfold st1. rewrite !find_username_update_user, Hname. cbn.
      rewrite (bool_decide_eq_false_2 (u_id v = u_id viewer)) by done.
      by rewrite (bool_decide_eq_true_2 (u_id v = u_id v)) by done. }
    eexists _, _, _. split; [exact Hu1|].
    unfold get_profile, try_catch_with, get_profile_body. run.
    rewrite Hname, Hname1. cbn [fst snd].
    split; [done|]. split; [done|]. cbn -[filter].
    rewrite (bool_decide_eq_false_2 (u_id v ∈ u_following viewer)) by done.
    rewrite bool_decide_eq_true_2
      by (apply elem_of_app; right; apply list_elem_of_here).
    rewrite length_app. cbn. repeat split; try done. lia.
Qed.

Lemma profile_after_follow_witness :
  let st1 := (follow HomeScenario.V "000000000000000000000004"
                HomeScenario.store).1 in
  ∃ viewer1 p0 p1,
    find_user (u_id HomeScenario.V) st1 = Some viewer1
    ∧ get_profile HomeScenario.V (u_username HomeScenario.C) HomeScenario.store
      = (HomeScenario.store, inr p0)
    ∧ get_profile viewer1 (u_username HomeScenario.C) st1 = (st1, inr p1)
    ∧ pv_isFollowing p0 = false ∧ pv_isFollowing p1 = true
    ∧ pv_followersCount p1 = S (pv_followersCount p0)
    ∧ pv_followingCount p1 = pv_followingCount p0
    ∧ pv_tweetsCount p1 = pv_tweetsCount p0.
Proof.
  apply (proj2 (profile_after_follow HomeScenario.store HomeScenario.V
                  HomeScenario.C) "000000000000000000000004").
  - vm_compute. reflexivity.
  - reflexivity.
  - discriminate.
  - reflexivity.
  - reflexivity.
  - apply (bool_decide_unpack _). reflexivity.
Defined.

(** X25: the suggestions.  The reply always succeeds and lists at most
    five users; each of them is a stored user other than the viewer who is
    not in the viewer's [following], and each entry says
    [isFollowing = false]. *)
Theorem suggestions_safe (st : Store) (viewer : User) :
  ∃ l, get_suggestions viewer st = (st, inr l)
       ∧ length l ≤ 5
       ∧ Forall (λ e,
           l_isFollowing e = false
           ∧ ref_id (l_user e) ≠ u_id viewer
           ∧ (ref_id (l_user e) ∉ u_following viewer)
           ∧ ∃ u, u ∈ users st ∧ l_user e = select_user select_author u) l.
Proof.
  eexists. split; [done|]. split.
  - rewrite length_fmap, length_take. lia.
  - apply Forall_fmap, Forall_forall. intros u Hu. cbn.
    apply subseteq_take in Hu. apply list_elem_of_filter in Hu as [[H1 H2] Hu].
    by eauto 10.
Qed.

(** ** A like as seen through [GET /api/tweets/:id] *)

Lemma get_tweet_found rx st viewer id t :
  find_tweet id st = Some t → authors_exist st →
  ∃ v, get_tweet rx viewer id st = (st, inr v)
       ∧ doc (tweetObj v) = t
       ∧ isLiked v = bool_decide (u_id viewer ∈ t_likes t)
       ∧ isRetweeted v = bool_decide (u_id viewer ∈ t_retweets t)
       ∧ likesCount v = length (t_likes t)
       ∧ retweetsCount v = length (t_retweets t)
       ∧ commentsCount v = replies_to id st.
Proof.
  intros Ht Hst. pose proof (find_tweet_id _ _ _ Ht) as Hid.
  unfold get_tweet, try_catch_with, get_tweet_body, Tweet_countDocuments. run.
  rewrite Ht, compile_plain by done. cbn beta iota zeta.
  rewrite count_replies, Hid. cbn.
  pose proof (populated_ready st select_author t None Hst) as Hready.
  unfold reply_ready in Hready. cbn in Hready.
  destruct (populate_replyTo select_author st t) as [|?| |p]; [|done| |].
  - by eexists.
  - by eexists.
  - destruct Hready as [a ->]. by eexists.
Qed.

(** X27: a like shows at once in [GET /api/tweets/:id].  In a store where
    the authors of tweets are stored, if the viewer is not among the likers
    of a stored tweet, the route reports [isLiked = false] before the like
    and, right after it, [isLiked = true] and one like more, with the
    number of retweets unchanged. *)
Theorem like_seen_by_id rx (st : Store) (viewer : User) (id : oid) (t : Tweet) :
  find_tweet id st = Some t → u_id viewer ∉ t_likes t → authors_exist st →
  let st1 := (like viewer id st).1 in
  ∃ v0 v1,
    get_tweet rx viewer id st = (st, inr v0)
    ∧ get_tweet rx viewer id st1 = (st1, inr v1)
    ∧ isLiked v0 = false ∧ isLiked v1 = true
    ∧ likesCount v1 = S (likesCount v0)
    ∧ isRetweeted v1 = isRetweeted v0
    ∧ retweetsCount v1 = retweetsCount v0.
Proof.
  intros Ht Hfresh Hst st1. subst st1.
  pose proof (find_tweet_id _ _ _ Ht) as Hid.
  rewrite (like_fresh _ _ _ _ Ht Hfresh). cbn [fst].
  set (t1 := set_t_likes (u_id viewer :: t_likes t) t).
  set (st1 := update_user _ _ _).
  assert (find_tweet id st1 = Some t1) as Ht1.
  { unfold st1. rewrite find_tweet_update_user, find_tweet_save_tweet, Ht. cbn.
    by rewrite Hid, bool_decide_eq_true_2. }
  assert (authors_exist st1) as Hst1.
  { apply authors_exist_update_user, (authors_exist_save_tweet t); [|done..].
    cbn. by rewrite Hid. }
  destruct (get_tweet_found rx st viewer id t Ht Hst)
    as (v0 & Hv0 & _ & Hl0 & Hr0 & Hlc0 & Hrc0 & _).
  destruct (get_tweet_found rx st1 viewer id t1 Ht1 Hst1)
    as (v1 & Hv1 & _ & Hl1 & Hr1 & Hlc1 & Hrc1 & _).
  exists v0, v1. split; [done|]. split; [done|].
  rewrite Hl0, Hl1, Hlc0, Hlc1, Hr0, Hr1, Hrc0, Hrc1. cbn.
  rewrite bool_decide_eq_false_2 by done.
  rewrite bool_decide_eq_true_2 by apply list_elem_of_here. done.
Qed.

Lemma like_seen_by_id_witness :
  let st1 := (like LikesScenario.U 1 LikesScenario.store0).1 in
  ∃ v0 v1,
    get_tweet PcreLite.regex_i LikesScenario.U 1 LikesScenario.store0
    = (LikesScenario.store0, inr v0)
    ∧ get_tweet PcreLite.regex_i LikesScenario.U 1 st1 = (st1, inr v1)
    ∧ isLiked v0 = false ∧ isLiked v1 = true
    ∧ likesCount v1 = S (likesCount v0)
    ∧ isRetweeted v1 = isRetweeted v0
    ∧ retweetsCount v1 = retweetsCount v0.
Proof.
  apply (like_seen_by_id PcreLite.regex_i LikesScenario.store0 LikesScenario.U 1
           LikesScenario.T1).
  - reflexivity.
  - apply not_elem_of_nil.
  - apply (bool_decide_unpack _). vm_compute. exact I.
Defined.

(** ** Listing users *)

(** X28: [GET /api/users].  In every branch each listed entry says
    [isFollowing] exactly when its id is in the viewer's [following], and
    the store is left as it was.  When the request lists the followers or
    followed users of a [userId] that is not stored, the reply is the 404
    reply.  Otherwise (search by name or username, or all users), for
    positive [page] and [limit], the viewer is never listed, every entry is
    a stored user, there are at most [limit] entries, and in a search every
    entry matches the pattern by name or by username. *)
Theorem users_listing rx pop (st : Store) (viewer : User) (q : UsersQuery) :
  (get_users rx pop viewer q st).1 = st
  ∧ (∀ l, (get_users rx pop viewer q st).2 = inr l →
       Forall (λ e, l_isFollowing e
                    = bool_decide (ref_id (l_user e) ∈ u_following viewer)) l)
  ∧ (∀ userId, lists_graph q = true → uq_userId q = Some userId →
       find_user userId st = None →
       (get_users rx pop viewer q st).2 = inl (fail 404 "User not found"))
  ∧ (lists_graph q = false →
     (0 < default 1 (uq_page q))%Z → (0 < default 10 (uq_limit q))%Z →
     ∀ l, (get_users rx pop viewer q st).2 = inr l →
       (Z.of_nat (length l) ≤ default 10 (uq_limit q))%Z
       ∧ Forall (λ e,
           ref_id (l_user e) ≠ u_id viewer
           ∧ ∃ u, u ∈ users st ∧ l_user e = select_user select_author u
                  ∧ (∀ m, truthy (uq_query q) = true →
                       rx (default "" (uq_query q)) = Some m →
                       m (u_name u) || m (u_username u) = true)) l).
Proof.
  assert (∀ f skip limit,
            (User_find f skip limit st).1 = st
            ∧ ∀ us, (User_find f skip limit st).2 = Val us →
                ∃ pg, skip_limit skip limit (filter (λ u, f u) (users st))
                      = Some pg ∧ us = pg) as Hfind.
  { intros f skip limit. unfold User_find. run.
    destruct (skip_limit _ _ _) as [pg|]; [|done].
    split; [done|]. intros us [= <-]. by eauto. }
  assert (∀ path userId skip limit,
            (populated_path pop path userId skip limit st).1 = st) as Hpop.
  { intros path userId skip limit. unfold populated_path. run.
    destruct (find_user userId st) as [u|]; [|done].
    by destruct (pop _ _ _ _). }
  unfold get_users, try_catch_with, get_users_body, lists_graph. cbn zeta.
  set (skip := ((default 1%Z (uq_page q) - 1) * default 10%Z (uq_limit q))%Z).
  set (limit := default 10%Z (uq_limit q)).
  split; [|split; [|split]].
  - run.
    destruct (bool_decide (uq_type q = Some "followers")
              && bool_decide (is_Some (uq_userId q))).
    { pose proof (Hpop u_followers (default 0 (uq_userId q)) skip limit) as H.
      destruct (populated_path pop _ _ _ _ st) as [st' [us|r|]]; by cbn in *. }
    destruct (bool_decide (uq_type q = Some "following")
              && bool_decide (is_Some (uq_userId q))).
    { pose proof (Hpop u_following (default 0 (uq_userId q)) skip limit) as H.
      destruct (populated_path pop _ _ _ _ st) as [st' [us|r|]]; by cbn in *. }
    destruct (truthy (uq_query q)).
    { destruct (rx _) as [m|]; [|done].
      match goal with |- context [User_find ?f skip limit st] =>
        destruct (Hfind f skip limit) as [H _];
        destruct (User_find f skip limit st) as [st' [us|r|]]; by cbn in *
      end. }
    match goal with |- context [User_find ?f skip limit st] =>
      destruct (Hfind f skip limit) as [H _];
      destruct (User_find f skip limit st) as [st' [us|r|]]; by cbn in *
    end.
  - intros l. run.
    match goal with
    | |- context [let (_, _) := ?m st in _] =>
        destruct (m st) as [st' [us|r|]]; [|done..]
    end.
    intros [= <-]. by apply Forall_fmap, Forall_forall.
  - intros userId Hgraph Hid Hnone. rewrite Hid in *.
    change (default 0 (Some userId)) with userId. run.
    apply andb_true_iff in Hgraph as [Hty _].
    rewrite (bool_decide_eq_true_2 (is_Some (Some userId))) by by eexists.
    rewrite !andb_true_r.
    destruct (bool_decide (uq_type q = Some "followers")).
    { unfold populated_path. run. by rewrite Hnone. }
    cbn in Hty. rewrite Hty. unfold populated_path. run. by rewrite Hnone.
  - intros Hgraph Hp Hl l. run.
    assert (bool_decide (uq_type q = Some "followers")
            && bool_decide (is_Some (uq_userId q)) = false) as ->.
    { rewrite andb_false_iff in *. rewrite orb_false_iff in Hgraph.
      destruct Hgraph as [[? ?]|?]; by eauto. }
    assert (bool_decide (uq_type q = Some "following")
            && bool_decide (is_Some (uq_userId q)) = false) as ->.
    { rewrite andb_false_iff in *. rewrite orb_false_iff in Hgraph.
      destruct Hgraph as [[? ?]|?]; by eauto. }
    assert (∀ f,
              (∀ u, f u = true → u_id u ≠ u_id viewer
                    ∧ ∀ m, truthy (uq_query q) = true →
                        rx (default "" (uq_query q)) = Some m →
                        m (u_name u) || m (u_username u) = true) →
              ∀ st' us, User_find f skip limit st = (st', Val us) →
                (Z.of_nat (length us) ≤ limit)%Z
                ∧ Forall (λ u, u ∈ users st ∧ f u = true) us) as Hpage.
    { intros f Hf st' us Hrun.
      destruct (Hfind f skip limit) as [_ H]. rewrite Hrun in H.
      destruct (H us eq_refl) as (pg & Hpg & ->).
      unfold skip, limit in Hpg. rewrite skip_limit_page in Hpg by done.
      injection Hpg as <-. split.
      - unfold page_of. rewrite length_take. unfold limit. lia.
      - apply Forall_forall. intros u Hu. apply page_of_subseteq in Hu.
        apply list_elem_of_filter in Hu as [Hfu Hu]. split; [done|].
        by apply Is_true_true. }
    destruct (truthy (uq_query q)) eqn:Hq.
    + destruct (rx _) as [m|] eqn:Hm; [|done].
      match goal with |- context [User_find ?f skip limit st] =>
        pose proof (Hpage f) as Hpf;
        destruct (User_find f skip limit st) as [st' [us|r|]] eqn:Hrun; [|done..]
      end.
      intros [= <-]. rewrite length_fmap.
      destruct (Hpf) with (st' := st') (us := us) as [Hlen Hus]; [|done|].
      { intros u Hu. apply andb_true_iff in Hu as [Hmu Hne].
        apply bool_decide_eq_true in Hne. split; [done|].
        intros m' _ [= <-]. done. }
      split; [done|]. apply Forall_fmap. eapply Forall_impl; [exact Hus|].
      intros u [Hu Hfu]. cbn. apply andb_true_iff in Hfu as [Hmu Hne].
      apply bool_decide_eq_true in Hne. split; [done|].
      exists u. repeat split; [done|]. intros m' _ [= <-]. done.
    + match goal with |- context [User_find ?f skip limit st] =>
        pose proof (Hpage f) as Hpf;
        destruct (User_find f skip limit st) as [st' [us|r|]] eqn:Hrun; [|done..]
      end.
      intros [= <-]. rewrite length_fmap.
      destruct (Hpf) with (st' := st') (us := us) as [Hlen Hus]; [|done|].
      { intros u Hu. apply bool_decide_eq_true in Hu. split; [done|].
        intros m' Hm'. done. }
      split; [done|]. apply Forall_fmap. eapply Forall_impl; [exact Hus|].
      intros u [Hu Hfu]. cbn. apply bool_decide_eq_true in Hfu.
      split; [done|]. exists u. repeat split; [done|]. intros m' Hm'. done.
Qed.

Lemma users_listing_witness :
  let rx := PcreLite.regex_i in
  let pop : list oid → Z → Z → Store → option (list User) := λ _ _ _ _, None in
  let search := mkUsersQuery (Some "a") None None None None in
  let followers_of_9 := mkUsersQuery None (Some "followers") (Some 9) None None in
  (get_users rx pop HomeScenario.V followers_of_9 HomeScenario.store).2
  = inl (fail 404 "User not found")
  ∧ ∃ l, (get_users rx pop HomeScenario.V search HomeScenario.store).2 = inr l
         ∧ (Z.of_nat (length l) ≤ 10)%Z
         ∧ Forall (λ e, ref_id (l_user e) ≠ u_id HomeScenario.V) l.
Proof.
  intros rx pop search followers_of_9. split.
  - apply (proj1 (proj2 (proj2
             (users_listing rx pop HomeScenario.store HomeScenario.V
                followers_of_9))) 9); reflexivity.
  - eexists. split; [vm_compute; reflexivity|].
    destruct (proj2 (proj2 (proj2
                (users_listing rx pop HomeScenario.store HomeScenario.V
                   search))) eq_refl eq_refl eq_refl _ eq_refl)
      as [Hlen Hall].
    split; [exact Hlen|]. eapply Forall_impl; [exact Hall|].
    intros e [H _]. exact H.
Defined.
